(** * Reaction sensitivity analysis (biomass/analysis/reaction/sensitivity.py)

    A shallow embedding of the [ReactionSensitivity] class and of the NumPy
    operations it relies on, together with the properties of the
    sensitivity pipeline: the perturbation sweep, the metric tensor, the
    on-disk cache, the cleaning of coefficient matrices and their summary.

    Python floats and NumPy [float64] values are IEEE-754 binary64 numbers;
    they are modelled by Rocq's primitive [float], whose operations are the
    binary64 ones.  Arrays are nested lists in row-major order.  An
    exception raised by Python or NumPy is the [None] of the [option]
    monad. *)

From Stdlib Require Import Floats ZArith Lia ZifyNat Bool.
From stdpp Require Import gmap strings list pretty.

(** ** Control structure shared by the loops of the module *)

(** A [for] loop whose body may raise: the accumulator is threaded through
    the iterations and the first exception aborts the loop. *)
Fixpoint foldlM {A B : Type} (f : A → B → option A) (a : A) (l : list B)
  : option A :=
  match l with
  | [] => Some a
  | b :: l' => a' ← f a b; foldlM f a' l'
  end.

(** [enumerate(l)], counting from [n]. *)
Fixpoint enumerate_from {A : Type} (n : nat) (l : list A) : list (nat * A) :=
  match l with
  | [] => []
  | x :: l' => (n, x) :: enumerate_from (S n) l'
  end.

Definition enumerate {A : Type} (l : list A) : list (nat * A) :=
  enumerate_from 0 l.

(** ** Files *)

(** What a file holds: an array in NumPy's [.npy] format, which stores the
    [float64] values bit for bit, or anything else. *)
Inductive file_content :=
  | npy_array (a : list (list (list (list float))))
  | other_content.

(** The part of the file system the module touches: regular files by path,
    and the directories that exist. *)
Record file_system := {
  files : gmap string file_content;
  dirs : gset string
}.

(** [s.endswith(suffix)]. *)
Fixpoint endswith (s suffix : string) : bool :=
  String.eqb s suffix
  || match s with
     | EmptyString => false
     | String _ s' => endswith s' suffix
     end.

Module os.

(** [os.makedirs(name, exist_ok=True)]: the directory exists afterwards;
    [FileExistsError] when the path is that of a regular file. *)
Definition makedirs (name : string) (fs : file_system)
  : option file_system :=
  if bool_decide (is_Some (files fs !! name)) then None
  else Some {| files := files fs; dirs := {[name]} ∪ dirs fs |}.

(** [os.path.isfile(path)]. *)
Definition isfile (path : string) (fs : file_system) : bool :=
  bool_decide (is_Some (files fs !! path)).

End os.

(** ** NumPy *)

Module np.

(** One-, two-, three- and four-dimensional [float64] arrays. *)
Abbreviation vector := (list float).
Abbreviation matrix := (list (list float)).
Abbreviation tensor3 := (list (list (list float))).
Abbreviation tensor4 := (list (list (list (list float)))).

Definition isnan (x : float) : bool := is_nan x.

Definition any (l : list bool) : bool := existsb id l.

Definition abs (a : vector) : vector := map PrimFloat.abs a.

(** [np.fmax] on two scalars, as its inner loop computes it:
    [(in1 >= in2 || isnan(in2)) ? in1 : in2]. *)
Definition fmax (in1 in2 : float) : float :=
  if (in2 <=? in1)%float || is_nan in2 then in1 else in2.

(** [np.nanmax] of a one-dimensional array is [np.fmax.reduce]: the
    reduction starts from the first element, and an empty array raises
    [ValueError] because [fmax] has no identity.  A slice made of NaN only
    yields NaN (with a warning). *)
Definition nanmax (a : vector) : option float :=
  match a with
  | [] => None
  | x :: rest => Some (foldl fmax x rest)
  end.

Definition zeros (n : nat) : vector := replicate n 0%float.

Definition zeros2 (shape : nat * nat) : matrix :=
  replicate shape.1 (zeros shape.2).

(** [np.full(shape, fill_value)] for a four-dimensional shape. *)
Definition full (shape : nat * nat * nat * nat) (fill_value : float)
  : tensor4 :=
  let '(n0, n1, n2, n3) := shape in
  replicate n0 (replicate n1 (replicate n2 (replicate n3 fill_value))).

(** Index normalisation of a basic integer index on an axis of length
    [n]: negative indices count from the end, anything outside
    [-n .. n-1] raises [IndexError]. *)
Definition index (n : nat) (i : Z) : option nat :=
  if bool_decide (0 ≤ i < Z.of_nat n)%Z then Some (Z.to_nat i)
  else if bool_decide (- Z.of_nat n ≤ i < 0)%Z
       then Some (Z.to_nat (Z.of_nat n + i))
       else None.

(** Update of the element taken at index [i] along the first axis; the
    update of the element may itself raise. *)
Definition at_index {A : Type} (i : Z) (f : A → option A) (l : list A)
  : option (list A) :=
  n ← index (length l) i;
  a ← l !! n;
  a' ← f a;
  Some (<[n := a']> l).

(** [a[i, j, k, l] = v]. *)
Definition setitem4 (a : tensor4) (i j k l : Z) (v : float)
  : option tensor4 :=
  at_index i (at_index j (at_index k (at_index l (λ _, Some v)))) a.

(** Read of the element at index [i] along the first axis. *)
Definition item {A : Type} (l : list A) (i : Z) : option A :=
  n ← index (length l) i; l !! n.

(** [a[i, j, k, l]]. *)
Definition getitem4 (a : tensor4) (i j k l : Z) : option float :=
  a_i ← item a i; a_ij ← item a_i j; a_ijk ← item a_ij k; item a_ijk l.

(** [a.shape[0]] and [a.shape[1]] of an array given by its rows.  The
    second is only read where the array has a row. *)
Definition shape0 {A : Type} (a : list A) : nat := length a.
Definition shape1 {A : Type} (a : list (list A)) : nat :=
  match a with
  | [] => 0
  | r :: _ => length r
  end.

(** The rows of [a], numbered from [n], whose number is not in [obj]. *)
Fixpoint delete_from {A : Type} (n : nat) (a : list A) (obj : list nat)
  : list A :=
  match a with
  | [] => []
  | r :: a' =>
      if bool_decide (n ∈ obj) then delete_from (S n) a' obj
      else r :: delete_from (S n) a' obj
  end.

(** [np.delete(a, obj, axis=0)] for a list [obj] of non-negative row
    numbers: a new array without those rows (a number may be listed
    several times); a number past the last row raises [IndexError]. *)
Definition delete {A : Type} (a : list A) (obj : list nat)
  : option (list A) :=
  if forallb (λ i, bool_decide (i < length a)) obj
  then Some (delete_from 0 a obj)
  else None.

(** [float(n)] for an element count. *)
Definition of_count (n : nat) : float :=
  of_uint63 (Uint63.of_Z (Z.of_nat n)).

(** [np.all(a == 0.0)] for a matrix. *)
Definition all_zero (a : matrix) : bool :=
  forallb (forallb (λ x, (x =? 0)%float)) a.

(** [a.shape[2]] and [a.size] of a three-dimensional array. *)
Definition shape2 {A : Type} (a : list (list (list A))) : nat :=
  match a with
  | (r :: _) :: _ => length r
  | _ => 0
  end.
Definition size3 {A : Type} (a : list (list (list A))) : nat :=
  shape0 a * shape1 a * shape2 a.

(** [np.add.reduce(a, axis=0)] for an array of matrices of the given
    shape: the matrices are added one after the other, entry by entry,
    to the identity of the addition. *)
Definition sum0 (shape : nat * nat) (a : tensor3) : matrix :=
  foldl (zip_with (zip_with PrimFloat.add)) (zeros2 shape) a.

(** [np.mean(a, axis=0)]: the sum along the first axis divided by the
    number of matrices. *)
Definition mean0 (a : tensor3) : matrix :=
  let rcount := of_count (shape0 a) in
  map (map (λ s, s / rcount)%float) (sum0 (shape1 a, shape2 a) a).

(** [np.std(a, axis=0, ddof=ddof)]: the deviations from the mean are
    squared and summed along the first axis, the sum is divided by
    [max(n - ddof, 0)], and the square root is taken. *)
Definition std0 (a : tensor3) (ddof : nat) : matrix :=
  let arrmean := mean0 a in
  let x := map (λ a_i, zip_with (zip_with PrimFloat.sub) a_i arrmean) a in
  let x := map (map (map (λ d, d * d)%float)) x in
  let ret := sum0 (shape1 a, shape2 a) x in
  let rcount := of_count (shape0 a - ddof) in
  map (map (λ s, sqrt (s / rcount))%float) ret.

(** [np.save(file, arr)]: the extension [.npy] is appended to the name
    unless it is there already, and the array is written under that name;
    the write fails on the path of a directory. *)
Definition save (file : string) (arr : tensor4) (fs : file_system)
  : option file_system :=
  let file := if endswith file ".npy" then file else file +:+ ".npy" in
  if bool_decide (file ∈ dirs fs) then None
  else Some {| files := <[file := npy_array arr]> (files fs);
               dirs := dirs fs |}.

(** [np.load(file)]: the array the file holds; an exception when there is
    no such file or when it does not hold an array. *)
Definition load (file : string) (fs : file_system) : option tensor4 :=
  match files fs !! file with
  | Some (npy_array a) => Some a
  | _ => None
  end.

(** [np.int64] addition. *)
Definition add_int64 (x y : Z) : Z :=
  ((x + y + 2 ^ 63) `mod` 2 ^ 64 - 2 ^ 63)%Z.

(** What [np.sum] may return for a list of lists of integers. *)
Inductive summed :=
  | scalar (x : float)
  | sequence (l : list Z).

(** [np.sum(a, axis=0)] for a list [a] of lists of integers.  NumPy first
    converts [a] to an array.  Lists of one length give a two-dimensional
    integer array, and the sum along the first axis adds them entry by
    entry.  Lists of different lengths give a one-dimensional array of
    list objects, and their sum is their concatenation, [+] on lists.  The
    empty list gives an empty float array, whose sum is the scalar 0.0. *)
Definition sum_axis0 (a : list (list Z)) : summed :=
  match a with
  | [] => scalar 0
  | first :: rest =>
      if forallb (λ r, length r =? length first) rest
      then sequence (foldl (zip_with add_int64)
                           (replicate (length first) 0%Z) a)
      else sequence (foldl app first rest)
  end.

(** [np.maximum] on two scalars, as its inner loop computes it:
    [(in1 >= in2 || isnan(in1)) ? in1 : in2]. *)
Definition maximum (in1 in2 : float) : float :=
  if (in2 <=? in1)%float || is_nan in1 then in1 else in2.

(** [np.max] of a two-dimensional array is [np.maximum.reduce] over its
    entries, taken here in row-major order; an empty array raises
    [ValueError]. *)
Definition max (a : matrix) : option float :=
  match concat a with
  | [] => None
  | x :: rest => Some (foldl maximum x rest)
  end.

(** The loop of [np.argmax] on floats, entered with the largest entry so
    far [mp], its index [max_ind] and the index [i] of the next entry: an
    entry that is not [<= mp] takes over, and a NaN ends the search. *)
Fixpoint argmax_from (mp : float) (max_ind i : nat) (ip : vector) : nat :=
  match ip with
  | [] => max_ind
  | x :: ip' =>
      if negb (x <=? mp)%float
      then if is_nan x then i else argmax_from x i (S i) ip'
      else argmax_from mp max_ind (S i) ip'
  end.

(** [np.argmax] of a one-dimensional array: the index of the first NaN if
    there is one, and of the first largest entry otherwise; an empty array
    raises [ValueError]. *)
Definition argmax (a : vector) : option nat :=
  match a with
  | [] => None
  | mp :: ip => Some (if is_nan mp then 0 else argmax_from mp 0 1 ip)
  end.

End np.

(** ** matplotlib *)

Module plt.

(** The calls of [matplotlib.pyplot] a bar plot is made of, each with the
    arguments the module computes for it; the constant arguments are left
    out.  A colour is given by its position in [options['cmap']]. *)
Inductive call :=
  | figure
  | axvspan (xmin xmax : float)
  | bar (x height yerr : np.vector) (color : nat) (width : float)
        (label : string)
  | text (x y : float) (s va : string)
  | hlines (xmin xmax : float)
  | xticks
  | ylabel (s : string)
  | xlim (left right : float)
  | legend
  | savefig (fname : string)
  | close.

(** [plt.savefig(fname)] as the file system sees it: the figure is
    written under the name, over the file that may be there; the write
    fails on the path of a directory. *)
Definition save (fname : string) (fs : file_system) : option file_system :=
  if bool_decide (fname ∈ dirs fs) then None
  else Some {| files := <[fname := other_content]> (files fs);
               dirs := dirs fs |}.

End plt.

(** The float 1 as sign, mantissa and exponent. *)
Definition SF_one : spec_float :=
  S754_finite false 4503599627370496 (-52).

(** Equality of two floats as Python's [==] decides it. *)
Definition feq (x y : float) : Prop := (x =? y)%float = true.

(** ** ReactionSensitivity._remove_nan *)

Definition nan_free (row : np.vector) : bool :=
  negb (np.any (map np.isnan row)).

(** The body of the loop over the rows of [sensitivity_matrix]: the row
    number is recorded when the row holds a NaN, and in every case the row
    is overwritten in place, with zeros when the largest absolute value is
    zero, with its quotient by that value or by 1 otherwise. *)
Definition remove_nan_body (normalize : bool) (ncols : nat)
    (acc : np.matrix * list nat) (i : nat) : option (np.matrix * list nat) :=
  let '(sensitivity_matrix, nan_idx) := acc in
  row ← sensitivity_matrix !! i;
  let nan_idx :=
    if np.any (map np.isnan row) then nan_idx ++ [i] else nan_idx in
  m ← np.nanmax (np.abs row);
  if (m =? 0)%float then
    Some (<[i := np.zeros ncols]> sensitivity_matrix, nan_idx)
  else
    m' ← np.nanmax (np.abs row);
    Some (<[i := map (λ x, x / (if normalize then m' else 1))%float row]>
            sensitivity_matrix, nan_idx).

(** [_remove_nan(sensitivity_matrix, normalize)].  The array passed in is
    written in place, so the result has two parts: the array of the caller
    as the call leaves it, and the new array that [np.delete] returns. *)
Definition _remove_nan (sensitivity_matrix : np.matrix) (normalize : bool)
  : option (np.matrix * np.matrix) :=
  '(written, nan_idx) ←
    foldlM (remove_nan_body normalize (np.shape1 sensitivity_matrix))
           (sensitivity_matrix, [])
           (seq 0 (np.shape0 sensitivity_matrix));
  returned ← np.delete written nan_idx;
  Some (written, returned).

(** ** The model under analysis *)

(** A perturbation dictionary: reaction index to the factor applied to the
    flux of that reaction.  The neutral factor is the integer 1 in the
    source; it multiplies a float flux, so it is the float 1 here. *)
Abbreviation perturbation_map := (gmap Z float).

(** What [ReactionSensitivity.__init__] takes from the [model] package and
    what the functions imported from [biomass.dynamics] and
    [biomass.analysis] provide.  None of it is defined in this module; the
    analysis is written against this interface.

    The simulator is an object with state: [simulate] runs one simulation
    and leaves the time courses in [simulations].  It returns [None] when it
    succeeds and something else when it fails, so the boolean below is
    [true] for a successful run. *)
Class BioModel := {
  (** [(x, y0)], the parameter vector and initial state of a parameter set *)
  params : Type;
  (** a time course [sim.simulations[k, :, l]] *)
  trace : Type;
  (** the state of the [NumericalSimulation] object *)
  sim_state : Type;
  model_path : string;
  (** [model.observables] *)
  obs : list string;
  (** [sim.conditions] *)
  conditions : list string;
  (** [get_executable(model_path)], the numbers of the accepted parameter
      sets *)
  n_file : list Z;
  (** [load_param(model_path, nth_paramset, sp.update)] *)
  load_param : Z → params;
  (** [sim.simulate(x, y0, perturbation) is None], and the simulator
      afterwards; the dictionary is absent in the unperturbed call *)
  simulate : params → option perturbation_map → sim_state → bool * sim_state;
  (** [sim.simulations[k, :, l]] *)
  simulations : sim_state → nat → nat → trace;
  (** [get_signaling_metric(metric, trace)] *)
  get_signaling_metric : string → trace → float;
  (** [rxn.group()], the reaction indices of each biological process *)
  group : list (list Z);
  (** [len(viz.sensitivity_options['cmap'])] *)
  cmap_len : nat;
  (** [np.log] on a scalar *)
  log : float → float
}.

(** The perturbation ratio [rate = 1.01  # 1% change]: the literal denotes
    the binary64 number nearest to 1.01. *)
Definition rate : float := 0x1.028f5c28f5c29p+0%float.

(** Lines 55-58: the dictionary of one perturbed run. *)
Definition perturbation (reaction_indices : list Z) (rxn_idx : Z)
  : perturbation_map :=
  let perturbation : perturbation_map := ∅ in
  let perturbation :=
    foldl (λ perturbation idx, <[idx := 1%float]> perturbation)
          perturbation reaction_indices in
  <[rxn_idx := rate]> perturbation.

(** ** biomass.analysis.dlnyi_dlnxj *)

Section coefficients.
Context `{BioModel}.

(** Modelled from the spec: [dlnyi_dlnxj] is imported from
    [biomass.analysis] and its source is not part of this module.  One
    entry of its result, following the policy for degenerate inputs: NaN
    when either metric is NaN; with a zero baseline, zero when the
    perturbed metric is zero too and NaN otherwise; else the log-log
    finite difference [ln(perturbed / baseline) / ln(rate)]. *)
Definition sensitivity_coefficient (rate perturbed baseline : float)
  : float :=
  if is_nan perturbed || is_nan baseline then nan
  else if (baseline =? 0)%float then
    if (perturbed =? 0)%float then 0%float else nan
  else (log (perturbed / baseline) / log rate)%float.

(** [range(len(l))] as array indices. *)
Definition indices {A : Type} (l : list A) : list Z :=
  Z.of_nat <$> seq 0 (length l).

(** Modelled from the spec: the coefficient tensor, one entry per
    parameter set, reaction, observable and condition; the baseline of an
    entry is read in the slot whose index is the length of
    [perturbed_idx], one past the last perturbation slot. *)
Definition dlnyi_dlnxj (signaling_metric : np.tensor4)
    (n_file perturbed_idx : list Z) (observables conditions : list string)
    (rate : float) : option np.tensor4 :=
  let baseline_slot := Z.of_nat (length perturbed_idx) in
  mapM (λ i, mapM (λ j, mapM (λ k, mapM (λ l,
    perturbed ← np.getitem4 signaling_metric i j k l;
    baseline ← np.getitem4 signaling_metric i baseline_slot k l;
    Some (sensitivity_coefficient rate perturbed baseline))
    (indices conditions)) (indices observables)) (indices perturbed_idx))
    (indices n_file).

End coefficients.

(** ** ReactionSensitivity._calc_sensitivity_coefficients *)

Section sweep.
Context `{BioModel}.

(** Lines 60-65 and 73-78: the metric of every observable under every
    condition, read from the simulation just run and written to slot [j]
    of parameter set [i]. *)
Definition store_metrics (metric : string) (sim : sim_state) (i j : Z)
    (signaling_metric : np.tensor4) : option np.tensor4 :=
  foldlM (λ signaling_metric '(k, _),
    foldlM (λ signaling_metric '(l, _),
      np.setitem4 signaling_metric i j (Z.of_nat k) (Z.of_nat l)
        (get_signaling_metric metric (simulations sim k l)))
      signaling_metric (enumerate conditions))
    signaling_metric (enumerate obs).

(** Lines 54-65: one iteration of the loop over the reactions. *)
Definition perturbed_run (metric : string) (reaction_indices : list Z)
    (x : params) (i : nat) (acc : sim_state * np.tensor4) (jr : nat * Z)
  : option (sim_state * np.tensor4) :=
  let '(sim, signaling_metric) := acc in
  let '(j, rxn_idx) := jr in
  let perturbation := perturbation reaction_indices rxn_idx in
  let '(succeeded, sim) := simulate x (Some perturbation) sim in
  signaling_metric ←
    (if succeeded
     then store_metrics metric sim (Z.of_nat i) (Z.of_nat j)
            signaling_metric
     else Some signaling_metric);
  Some (sim, signaling_metric).

(** Lines 52-78: one iteration of the loop over the parameter sets, the
    perturbed runs first and the unperturbed run after them. *)
Definition paramset_run (metric : string) (reaction_indices : list Z)
    (acc : sim_state * np.tensor4) (ip : nat * Z)
  : option (sim_state * np.tensor4) :=
  let '(i, nth_paramset) := ip in
  let x := load_param nth_paramset in
  '(sim, signaling_metric) ←
    foldlM (perturbed_run metric reaction_indices x i) acc
           (enumerate reaction_indices);
  let '(succeeded, sim) := simulate x None sim in
  signaling_metric ←
    (if succeeded
     then store_metrics metric sim (Z.of_nat i) (-1) signaling_metric
     else Some signaling_metric);
  Some (sim, signaling_metric).

(** Lines 43-78: the metric tensor, filled with NaN and then written by
    the sweep.  The progress counter printed after each perturbed run
    goes to the console only and is left out. *)
Definition signaling_metric_sweep (metric : string)
    (reaction_indices : list Z) (sim : sim_state)
  : option (sim_state * np.tensor4) :=
  let signaling_metric :=
    np.full (length n_file, length reaction_indices + 1,
             length obs, length conditions) nan in
  foldlM (paramset_run metric reaction_indices) (sim, signaling_metric)
         (enumerate n_file).

Definition _calc_sensitivity_coefficients (metric : string)
    (reaction_indices : list Z) (sim : sim_state)
  : option (sim_state * np.tensor4) :=
  '(sim, signaling_metric) ←
    signaling_metric_sweep metric reaction_indices sim;
  sensitivity_coefficients ←
    dlnyi_dlnxj signaling_metric n_file reaction_indices obs conditions
                rate;
  Some (sim, sensitivity_coefficients).

End sweep.

(** The metrics that the docstring of [_calc_sensitivity_coefficients]
    names (lines 27-33). *)
Definition metrics : list string := ["amplitude"; "duration"; "integral"].

(** ** ReactionSensitivity._load_sc *)

(** The state the analysis runs in: the simulator, the file system, and
    a counter, kept for the properties only, of the calls of
    [_calc_sensitivity_coefficients] made so far. *)
Record process `{BioModel} := {
  proc_sim : sim_state;
  proc_fs : file_system;
  calc_calls : nat
}.

Section cache.
Context `{BioModel}.

(** [model_path + '/sensitivity_coefficients/reaction/{}'.format(metric)] *)
Definition cache_dir (metric : string) : string :=
  model_path +:+ "/sensitivity_coefficients/reaction/" +:+ metric.

Definition _load_sc (metric : string) (reaction_indices : list Z)
    (p : process) : option (np.tensor4 * process) :=
  fs ← os.makedirs
         (model_path +:+ "/figure/sensitivity/reaction/" +:+ metric
            +:+ "/heatmap") (proc_fs p);
  if negb (os.isfile (cache_dir metric +:+ "/sc.npy") fs) then
    fs ← os.makedirs (cache_dir metric) fs;
    '(sim, sensitivity_coefficients) ←
      _calc_sensitivity_coefficients metric reaction_indices (proc_sim p);
    fs ← np.save (cache_dir metric +:+ "/sc") sensitivity_coefficients fs;
    Some (sensitivity_coefficients,
          {| proc_sim := sim; proc_fs := fs;
             calc_calls := S (calc_calls p) |})
  else
    sensitivity_coefficients ← np.load (cache_dir metric +:+ "/sc.npy") fs;
    Some (sensitivity_coefficients,
          {| proc_sim := proc_sim p; proc_fs := fs;
             calc_calls := calc_calls p |}).

End cache.

(** ** ReactionSensitivity._barplot_sensitivity *)

(** A bar plot: the observable, and the mean and standard deviation drawn
    for each reaction and condition.  The calls of matplotlib are
    represented by the data handed to them. *)
Definition barplot : Type := string * np.matrix * np.matrix.

(** A heat map: the condition, the observable and the matrix drawn. *)
Definition heatmap : Type := string * string * np.matrix.

(** Lines 173-180: the parameter sets with a NaN for some reaction and
    condition are removed.  The number of a parameter set is recorded once
    for each of its rows that holds a NaN. *)
Definition drop_nan_paramsets (sensitivity_array : np.tensor3)
  : option np.tensor3 :=
  let nan_idx :=
    '(i, a_i) ← enumerate sensitivity_array;
    a_ij ← a_i;
    if np.any (map np.isnan a_ij) then [i] else [] in
  np.delete sensitivity_array nan_idx.

(** Lines 182-188: the mean over the parameter sets, and the standard
    deviation with [ddof=1], replaced by zeros when one parameter set is
    left. *)
Definition average_and_stdev (sensitivity_array : np.tensor3)
  : np.matrix * np.matrix :=
  let average := np.mean0 sensitivity_array in
  let stdev :=
    if bool_decide (np.shape0 sensitivity_array = 1)
    then np.zeros2 (np.shape1 sensitivity_array,
                    np.shape2 sensitivity_array)
    else np.std0 sensitivity_array 1 in
  (average, stdev).

Section plots.
Context `{BioModel}.

(** [sensitivity_coefficients[:, :, k, :]]. *)
Definition view_obs (sensitivity_coefficients : np.tensor4) (k : Z)
  : option np.tensor3 :=
  mapM (mapM (λ a_ij, np.item a_ij k)) sensitivity_coefficients.

Definition _barplot_sensitivity (metric : string)
    (sensitivity_coefficients : np.tensor4)
    (biological_processes : list (list Z)) (reaction_indices : list Z)
  : option (list barplot) :=
  if bool_decide (cmap_len < length conditions) then None
  else
    foldlM (λ figures '(k, obs_name),
        sensitivity_array ←
          view_obs sensitivity_coefficients (Z.of_nat k);
        sensitivity_array ← drop_nan_paramsets sensitivity_array;
        if bool_decide (np.size3 sensitivity_array ≠ 0) then
          let '(average, stdev) := average_and_stdev sensitivity_array in
          Some (figures ++ [(obs_name, average, stdev)])
        else Some figures)
      [] (enumerate obs).

(** ** ReactionSensitivity._heatmap_sensitivity *)

(** [sensitivity_coefficients[:, :, k, l]].  The slice is a view: it
    shares the buffer of the tensor, so that reading it reads the tensor
    and writing it writes the tensor. *)
Definition view_obs_cond (sensitivity_coefficients : np.tensor4) (k l : Z)
  : option np.matrix :=
  mapM (mapM (λ a_ij, a_ijk ← np.item a_ij k; np.item a_ijk l))
       sensitivity_coefficients.

(** The tensor once the view [[:, :, k, l]] has been written with the
    entries of [written]. *)
Definition view_store (sensitivity_coefficients : np.tensor4) (k l : nat)
    (written : np.matrix) : np.tensor4 :=
  zip_with (zip_with (λ a_ij v, alter (<[l := v]>) k a_ij))
           sensitivity_coefficients written.

(** Lines 261-286: one iteration of the loops over the observables and
    the conditions.  [_remove_nan] receives the view, and what it writes
    to it is written to the tensor. *)
Definition heatmap_body (obs_name : string) (k : nat)
    (acc : np.tensor4 * list heatmap) (lc : nat * string)
  : option (np.tensor4 * list heatmap) :=
  let '(sensitivity_coefficients, figures) := acc in
  let '(l, condition) := lc in
  view ← view_obs_cond sensitivity_coefficients (Z.of_nat k) (Z.of_nat l);
  '(written, sensitivity_matrix) ← _remove_nan view false;
  let sensitivity_coefficients :=
    view_store sensitivity_coefficients k l written in
  if bool_decide (1 < np.shape0 sensitivity_matrix)
     && negb (np.all_zero sensitivity_matrix)
  then Some (sensitivity_coefficients,
             figures ++ [(condition, obs_name, sensitivity_matrix)])
  else Some (sensitivity_coefficients, figures).

(** The tensor of the caller as the call leaves it, and the heat maps
    drawn. *)
Definition _heatmap_sensitivity (metric : string)
    (sensitivity_coefficients : np.tensor4)
    (biological_processes : list (list Z)) (reaction_indices : list Z)
  : option (np.tensor4 * list heatmap) :=
  foldlM (λ acc '(k, obs_name),
      foldlM (heatmap_body obs_name k) acc (enumerate conditions))
    (sensitivity_coefficients, []) (enumerate obs).

(** ** ReactionSensitivity.analyze *)

Inductive figures :=
  | barplots (figs : list barplot)
  | heatmaps (figs : list heatmap).

(** Lines 289-290: the reaction indices handed to the rest of the
    analysis. *)
Definition analyze_reaction_indices : np.summed := np.sum_axis0 group.

(** Lines 214-219: the file of the bar plot of an observable. *)
Definition barplot_path (metric obs_name : string) : string :=
  model_path +:+ "/figure/sensitivity/reaction/" +:+ metric +:+ "/"
    +:+ obs_name +:+ ".pdf".

(** Lines 280-285: the file of the heat map of a condition and an
    observable. *)
Definition heatmap_path (metric condition obs_name : string) : string :=
  model_path +:+ "/figure/sensitivity/reaction/" +:+ metric
    +:+ "/heatmap/" +:+ condition +:+ "_" +:+ obs_name +:+ ".pdf".

(** With no biological process at all the sum is the scalar 0.0; the
    functions called next take [len()] of it or iterate over it, which
    raises [TypeError].

    Each figure drawn is saved by [plt.savefig] in the loop that draws it.
    The files are written here, once the function has returned its
    figures, in the order of the figures: when something raises, the
    state is lost with the exception, so that the moment of the writes
    does not show. *)
Definition analyze (metric style : string) (p : process)
  : option (figures * process) :=
  let biological_processes := group in
  match analyze_reaction_indices with
  | np.scalar _ => None
  | np.sequence reaction_indices =>
      '(sensitivity_coefficients, p) ←
        _load_sc metric reaction_indices p;
      if String.eqb style "barplot" then
        figs ← _barplot_sensitivity metric sensitivity_coefficients
                 biological_processes reaction_indices;
        fs ← foldlM (λ fs (fig : barplot),
                       plt.save (barplot_path metric fig.1.1) fs)
                    (proc_fs p) figs;
        Some (barplots figs,
              {| proc_sim := proc_sim p; proc_fs := fs;
                 calc_calls := calc_calls p |})
      else if String.eqb style "heatmap" then
        '(_, figs) ← _heatmap_sensitivity metric sensitivity_coefficients
                       biological_processes reaction_indices;
        fs ← foldlM (λ fs (fig : heatmap),
                       plt.save (heatmap_path metric fig.1.1 fig.1.2) fs)
                    (proc_fs p) figs;
        Some (heatmaps figs,
              {| proc_sim := proc_sim p; proc_fs := fs;
                 calc_calls := calc_calls p |})
      else None
  end.

End plots.

(** ** Descriptions used to state the properties *)

(** What [_remove_nan] writes over a row: nothing is written when
    [np.nanmax] raises. *)
Definition cleaned_row (normalize : bool) (ncols : nat) (row : np.vector)
  : option np.vector :=
  m ← np.nanmax (np.abs row);
  Some (if (m =? 0)%float then np.zeros ncols
        else map (λ x, x / (if normalize then m else 1))%float row).

(** The numbers, counted from [n], of the rows that hold a NaN. *)
Fixpoint nan_rows_from (n : nat) (a : np.matrix) : list nat :=
  match a with
  | [] => []
  | row :: a' =>
      (if np.any (map np.isnan row) then [n] else [])
        ++ nan_rows_from (S n) a'
  end.

(** The rows of [written] that stand where [original] has a row without
    NaN. *)
Definition survivors (original written : np.matrix) : np.matrix :=
  (filter (λ p, nan_free p.1 = true) (zip original written)).*2.

(** Every row of the array has [ncols] entries. *)
Definition rectangular (ncols : nat) (a : np.matrix) : Prop :=
  Forall (λ row, length row = ncols) a.

(** Two rows hold equal floats at every position. *)
Definition row_eq (r1 r2 : np.vector) : Prop := Forall2 feq r1 r2.

Section sweep_description.
Context `{BioModel}.

(** The metrics of the simulation the simulator holds, one row per
    observable and one column per condition. *)
Definition metrics_of (metric : string) (sim : sim_state) : np.matrix :=
  (λ k, (λ l, get_signaling_metric metric (simulations sim k l))
          <$> seq 0 (length conditions))
    <$> seq 0 (length obs).

(** A slot of the metric tensor that was never written. *)
Definition nan_slot : np.matrix :=
  replicate (length obs) (replicate (length conditions) nan).

(** What a run of the simulator leaves in its slot. *)
Definition slot_of (metric : string) (run : bool * sim_state) : np.matrix :=
  if run.1 then metrics_of metric run.2 else nan_slot.

(** The perturbation dictionaries of the perturbed runs of one parameter
    set, in the order of the runs. *)
Definition perturbed_calls (reaction_indices rest : list Z)
  : list (option perturbation_map) :=
  (λ rxn_idx, Some (perturbation reaction_indices rxn_idx)) <$> rest.

(** The calls of the simulator for one parameter set: the perturbed runs
    and then the unperturbed one. *)
Definition paramset_calls (reaction_indices : list Z)
  : list (option perturbation_map) :=
  perturbed_calls reaction_indices reaction_indices ++ [None].

(** The outcomes of consecutive calls of the simulator. *)
Fixpoint run_calls (x : params) (calls : list (option perturbation_map))
    (sim : sim_state) : list (bool * sim_state) :=
  match calls with
  | [] => []
  | c :: calls' =>
      let run := simulate x c sim in run :: run_calls x calls' run.2
  end.

(** The simulator after consecutive calls. *)
Definition sim_after (x : params) (calls : list (option perturbation_map))
    (sim : sim_state) : sim_state :=
  foldl (λ sim c, (simulate x c sim).2) sim calls.

(** The simulator after the sweep over the given parameter sets. *)
Definition sim_after_paramsets (reaction_indices paramsets : list Z)
    (sim : sim_state) : sim_state :=
  foldl (λ sim nth_paramset,
           sim_after (load_param nth_paramset)
                     (paramset_calls reaction_indices) sim)
        sim paramsets.

(** The metric tensor the sweep over the given parameter sets builds. *)
Fixpoint sweep_rows (metric : string) (reaction_indices paramsets : list Z)
    (sim : sim_state) : np.tensor4 :=
  match paramsets with
  | [] => []
  | nth_paramset :: rest =>
      let x := load_param nth_paramset in
      (slot_of metric <$> run_calls x (paramset_calls reaction_indices) sim)
        :: sweep_rows metric reaction_indices rest
             (sim_after x (paramset_calls reaction_indices) sim)
  end.

(** The simulator just before the [j]-th call made for the [i]-th
    parameter set; the call number [len(reaction_indices)] is the
    unperturbed one. *)
Definition sim_before (reaction_indices : list Z) (sim : sim_state)
    (i j : nat) : sim_state :=
  sim_after (load_param (default 0%Z (n_file !! i)))
            (take j (paramset_calls reaction_indices))
            (sim_after_paramsets reaction_indices (take i n_file) sim).

End sweep_description.

(** Every matrix of the array has [n1] rows of [n2] entries. *)
Definition shaped3 (n1 n2 : nat) (a : np.tensor3) : Prop :=
  Forall (λ a_i, length a_i = n1 ∧ rectangular n2 a_i) a.

(** The entries at position [j, l] of the matrices of the array, one per
    parameter set. *)
Definition column (a : np.tensor3) (j l : nat) : np.vector :=
  (λ a_i, default nan (row ← a_i !! j; row !! l)) <$> a.

(** The sum of floats added one after the other, from zero. *)
Definition fsum (xs : np.vector) : float := foldl PrimFloat.add 0%float xs.


(** The record of one call of the simulator: the parameter set and the
    perturbation dictionary it received. *)
Definition sim_call (M : BioModel) : Type :=
  @params M * option perturbation_map.

(** The model [M] with a simulator that, besides what the simulator of [M]
    does, appends each call it receives to a log. *)
Definition recording (M : BioModel) : BioModel := {|
  params := @params M;
  trace := @trace M;
  sim_state := @sim_state M * list (sim_call M);
  model_path := @model_path M;
  obs := @obs M;
  conditions := @conditions M;
  n_file := @n_file M;
  load_param := @load_param M;
  simulate := λ x perturbation sim,
    let run := @simulate M x perturbation sim.1 in
    (run.1, (run.2, sim.2 ++ [(x, perturbation)]));
  simulations := λ sim, @simulations M sim.1;
  get_signaling_metric := @get_signaling_metric M;
  group := @group M;
  cmap_len := @cmap_len M;
  log := @log M
|}.

(** The calls the sweep is expected to make: for each parameter set in
    turn, one call per reaction with the dictionary of that reaction, then
    the unperturbed call. *)
Definition expected_calls (M : BioModel) (reaction_indices : list Z)
  : list (sim_call M) :=
  nth_paramset ← @n_file M;
  (λ c, (@load_param M nth_paramset, c)) <$> paramset_calls reaction_indices.

Section coefficient_description.
Context `{BioModel}.


End coefficient_description.

(** ** A model to run the analysis on *)

(** Two accepted parameter sets, the reactions 1 and 2, one observable and
    one condition.  With the first parameter set the metric is 10.0, and
    10.1 (the binary64 number nearest to it) when reaction 1 is perturbed; every simulation of the second
    parameter set fails.  A time course is reduced to the one value that
    serves as its metric, and [x - 1] stands for [np.log x], which it
    approaches near 1. *)
Definition example_model : BioModel := {|
  params := Z;
  trace := list float;
  sim_state := list float;
  model_path := "models/example";
  obs := ["Phosphorylated_ERK"];
  conditions := ["EGF"];
  n_file := [1; 2]%Z;
  load_param := λ nth_paramset, nth_paramset;
  simulate := λ x perturbation sim,
    if bool_decide (x = 1%Z) then
      match perturbation ≫= (.!! 1%Z) with
      | Some factor =>
          if (factor =? 1)%float then (true, [10%float])
          else (true, [0x1.4333333333333p+3%float])
      | None => (true, [10%float])
      end
    else (false, sim);
  simulations := λ sim _ _, sim;
  get_signaling_metric := λ _ trace, default nan (head trace);
  group := [[1; 2]%Z];
  cmap_len := 10;
  log := λ x, (x - 1)%float
|}.

(** The model [M] with another grouping of the reactions. *)
Definition with_group (M : BioModel) (g : list (list Z)) : BioModel := {|
  params := @params M;
  trace := @trace M;
  sim_state := @sim_state M;
  model_path := @model_path M;
  obs := @obs M;
  conditions := @conditions M;
  n_file := @n_file M;
  load_param := @load_param M;
  simulate := @simulate M;
  simulations := @simulations M;
  get_signaling_metric := @get_signaling_metric M;
  group := g;
  cmap_len := @cmap_len M;
  log := @log M
|}.

(** The state of a first run of the example: nothing simulated yet, no
    file and no directory. *)
Definition fresh_process : @process example_model :=
  {| proc_sim := (@nil float : @sim_state example_model);
     proc_fs := {| files := ∅; dirs := ∅ |};
     calc_calls := 0 |}.

(** The tensor [sc] in the course of [_heatmap_sensitivity], just before the
    iteration for the observable [k] and the condition [l0]: it has the
    shape of the tensor [sc0] the function was called with; the views
    already passed to [_remove_nan] hold what it wrote, [W], and the
    others are those of [sc0], [V]. *)
Definition tensor_before `{BioModel} (sc0 : np.tensor4) (n_reactions : nat)
    (V W : nat → nat → np.matrix) (k l0 : nat) (sc : np.tensor4) : Prop :=
  length sc = length sc0
  ∧ Forall (λ blk,
      length blk = n_reactions
      ∧ Forall (λ slot,
          length slot = length obs
          ∧ rectangular (length conditions) slot) blk) sc
  ∧ ∀ k' l', k' < length obs → l' < length conditions →
      view_obs_cond sc (Z.of_nat k') (Z.of_nat l')
      = Some (if decide (k' < k ∨ (k' = k ∧ l' < l0))
              then W k' l' else V k' l').

(** A heat map worth drawing: of a condition and an observable of the
    model, with at least two parameter sets, without NaN, and with a
    coefficient that is not zero. *)
Definition drawable `{BioModel} (fig : heatmap) : Prop :=
  fig.1.1 ∈ conditions ∧ fig.1.2 ∈ obs
  ∧ 1 < length fig.2
  ∧ np.all_zero fig.2 = false
  ∧ Forall (λ row, nan_free row = true) fig.2.

(** The bar plot of the observable number [k], if one is drawn: the mean
    and standard deviation over the parameter sets whose coefficients for
    that observable hold no NaN; no plot when the array left is empty. *)
Definition barplot_of (sc : np.tensor4) (k : nat) (obs_name : string)
  : option barplot :=
  let kept :=
    filter (λ a_i, forallb nan_free a_i = true)
           (default [] (mapM (mapM (λ a_ij : np.matrix, a_ij !! k)) sc)) in
  if bool_decide (np.size3 kept ≠ 0)
  then Some (obs_name, (average_and_stdev kept).1, (average_and_stdev kept).2)
  else None.

(** ** Strings *)

Module str.

(** The string of the line feed alone. *)
Definition newline : string := String (Ascii.ascii_of_nat 10) "".

(** The scan of [s.replace(old, new)] for a pattern [old] that is not
    empty: the occurrences are replaced from the left, and the characters
    of an occurrence take part in no other; [skip] counts the characters
    of the last occurrence still to be passed over. *)
Fixpoint replace_from (old new : string) (skip : nat) (s : string)
  : string :=
  match s with
  | EmptyString => EmptyString
  | String c s' =>
      match skip with
      | S n => replace_from old new n s'
      | 0 =>
          if String.prefix old s
          then new +:+ replace_from old new (String.length old - 1) s'
          else String c (replace_from old new 0 s')
      end
  end.

Definition replace (s old new : string) : string :=
  replace_from old new 0 s.

End str.

(** ** ReactionSensitivity._draw_vertical_span *)

(** The grey bands behind every other biological process, drawn when
    there are two processes or more. *)
Definition _draw_vertical_span (biological_processes : list (list Z))
    (width : float) : list plt.call :=
  if bool_decide (1 < length biological_processes) then
    (foldl (λ '(left_end, calls) '(i, proc),
        let calls :=
          if bool_decide (i `mod` 2 = 0)
          then calls ++ [plt.axvspan
                           (np.of_count left_end - width)
                           (np.of_count left_end - width
                            + np.of_count (length proc))]
          else calls in
        (left_end + length proc, calls))
      (0, []) (enumerate biological_processes)).2
  else [].

(** ** ReactionSensitivity._write_reaction_indices *)

(** The float nearest to 0.05. *)
Definition distance_ratio : float := 0x1.999999999999ap-5%float.

(** One label per reaction index, above the bars of the reaction when the
    coefficient of largest magnitude is positive and below them
    otherwise. *)
Definition _write_reaction_indices (reaction_indices : list Z)
    (average stdev : np.matrix) (width : float) : option (list plt.call) :=
  m ← np.max average;
  let distance := (m * distance_ratio)%float in
  foldlM (λ calls '(i, j),
      let xp := (np.of_count i + width / 2)%float in
      average_i ← average !! i;
      i_yp ← np.argmax (np.abs average_i);
      yp ← average_i !! i_yp;
      stdev_i ← stdev !! i;
      i_yerr ← np.argmax stdev_i;
      yerr ← stdev_i !! i_yerr;
      if (0 <? yp)%float
      then Some (calls ++ [plt.text xp (yp + yerr + distance) (pretty j)
                                    "bottom"])
      else Some (calls ++ [plt.text xp (yp - yerr - distance) (pretty j)
                                    "top"]))
    [] (enumerate reaction_indices).

(** ** The calls of ReactionSensitivity._barplot_sensitivity *)

Section barplot_calls.
Context `{BioModel}.

(** [options['width']], read from the visualization of the model. *)
Variable width : float.

(** Lines 189-195: the bars of each condition, shifted by [l * width],
    with the column [l] of the means and of the standard deviations, in
    the colour [l]. *)
Definition bars (reaction_indices : list Z) (average stdev : np.matrix)
  : option (list plt.call) :=
  foldlM (λ calls '(l, condition),
      let x := map (λ i, np.of_count i + np.of_count l * width)%float
                   (seq 0 (length reaction_indices)) in
      height ← mapM (λ row : np.vector, row !! l) average;
      yerr ← mapM (λ row : np.vector, row !! l) stdev;
      if bool_decide (l < cmap_len)
      then Some (calls ++ [plt.bar x height yerr l width condition])
      else None)
    [] (enumerate conditions).

(** Lines 168-220: the calls made for the observable number [k]. *)
Definition barplot_calls_of (metric : string)
    (sensitivity_coefficients : np.tensor4)
    (biological_processes : list (list Z)) (reaction_indices : list Z)
    (k : nat) (obs_name : string) : option (list plt.call) :=
  let opened :=
    plt.figure :: _draw_vertical_span biological_processes width in
  sensitivity_array ← view_obs sensitivity_coefficients (Z.of_nat k);
  sensitivity_array ← drop_nan_paramsets sensitivity_array;
  if bool_decide (np.size3 sensitivity_array ≠ 0) then
    let '(average, stdev) := average_and_stdev sensitivity_array in
    drawn ← bars reaction_indices average stdev;
    written ← _write_reaction_indices reaction_indices average stdev width;
    Some (opened ++ drawn ++ written
          ++ [plt.hlines (- width)
                (np.of_count (length reaction_indices) - width);
              plt.xticks;
              plt.ylabel ("Control coefficients on" +:+ str.newline
                          +:+ metric +:+ " ("
                          +:+ str.replace obs_name "_" " " +:+ ")");
              plt.xlim (- width)
                (np.of_count (length reaction_indices) - width);
              plt.legend;
              plt.savefig (model_path +:+ "/figure/sensitivity/reaction/"
                           +:+ metric +:+ "/" +:+ obs_name +:+ ".pdf");
              plt.close])
  else Some opened.

(** Lines 162-220: all the calls of [_barplot_sensitivity], in their
    order. *)
Definition barplot_calls (metric : string)
    (sensitivity_coefficients : np.tensor4)
    (biological_processes : list (list Z)) (reaction_indices : list Z)
  : option (list plt.call) :=
  if bool_decide (cmap_len < length conditions) then None
  else
    foldlM (λ calls '(k, obs_name),
        made ← barplot_calls_of metric sensitivity_coefficients
                 biological_processes reaction_indices k obs_name;
        Some (calls ++ made))
      [] (enumerate obs).

End barplot_calls.

(** The band of the process number [i] of [processes], if it has one:
    given for the pair [(i, proc)] of [enumerate]. *)
Definition band_of (width : float) (processes : list (list Z))
    (ip : nat * list Z) : option plt.call :=
  if bool_decide (ip.1 `mod` 2 = 0) then
    let left_end := length (concat (take ip.1 processes)) in
    Some (plt.axvspan (np.of_count left_end - width)
                      (np.of_count left_end - width
                       + np.of_count (length ip.2)))
  else None.

(** The label of the reaction index [j], the one number [i] of the
    indices, with [distance] as computed from the largest mean. *)
Definition label_of (average stdev : np.matrix) (width distance : float)
    (ij : nat * Z) : option plt.call :=
  let xp := (np.of_count ij.1 + width / 2)%float in
  average_i ← average !! ij.1;
  i_yp ← np.argmax (np.abs average_i);
  yp ← average_i !! i_yp;
  stdev_i ← stdev !! ij.1;
  i_yerr ← np.argmax stdev_i;
  yerr ← stdev_i !! i_yerr;
  Some (if (0 <? yp)%float
        then plt.text xp (yp + yerr + distance) (pretty ij.2) "bottom"
        else plt.text xp (yp - yerr - distance) (pretty ij.2) "top").

(** The bars of the condition number [l], given for the pair
    [(l, condition)] of [enumerate]. *)
Definition bar_of `{BioModel} (width : float) (reaction_indices : list Z)
    (average stdev : np.matrix) (lc : nat * string) : option plt.call :=
  height ← mapM (λ row : np.vector, row !! lc.1) average;
  yerr ← mapM (λ row : np.vector, row !! lc.1) stdev;
  if bool_decide (lc.1 < cmap_len)
  then Some (plt.bar
               (map (λ i, np.of_count i + np.of_count lc.1 * width)%float
                    (seq 0 (length reaction_indices)))
               height yerr lc.1 width lc.2)
  else None.

(** What a sequence of calls does to the figures: those it opens, those
    it closes, and the files it saves them to. *)
Definition is_figure (c : plt.call) : bool :=
  match c with plt.figure => true | _ => false end.
Definition is_close (c : plt.call) : bool :=
  match c with plt.close => true | _ => false end.
Definition saved_as (c : plt.call) : option string :=
  match c with plt.savefig fname => Some fname | _ => None end.
Definition count_calls (p : plt.call → bool) (calls : list plt.call)
  : nat :=
  length (filter (λ c, p c = true) calls).

(** A call that opens no figure, closes none and saves none. *)
Definition quiet (c : plt.call) : Prop :=
  is_figure c = false ∧ is_close c = false ∧ saved_as c = None.

(** The model [M] with other accepted parameter sets. *)
Definition with_n_file (M : BioModel) (paramsets : list Z) : BioModel := {|
  params := @params M;
  trace := @trace M;
  sim_state := @sim_state M;
  model_path := @model_path M;
  obs := @obs M;
  conditions := @conditions M;
  n_file := paramsets;
  load_param := @load_param M;
  simulate := @simulate M;
  simulations := @simulations M;
  get_signaling_metric := @get_signaling_metric M;
  group := @group M;
  cmap_len := @cmap_len M;
  log := @log M
|}.

(** The model [M] with other observables. *)
Definition with_obs (M : BioModel) (names : list string) : BioModel := {|
  params := @params M;
  trace := @trace M;
  sim_state := @sim_state M;
  model_path := @model_path M;
  obs := names;
  conditions := @conditions M;
  n_file := @n_file M;
  load_param := @load_param M;
  simulate := @simulate M;
  simulations := @simulations M;
  get_signaling_metric := @get_signaling_metric M;
  group := @group M;
  cmap_len := @cmap_len M;
  log := @log M
|}.

(** * The insulin signalling model
      (biomass/models/insulin_signaling/ode.py) *)

Module insulin_signaling.

(** [name2idx.V] and [name2idx.C]: the position of each species in the
    state vector and of each constant in the parameter vector, and their
    numbers [NUM].  The module [name2idx] is not among these sources; the
    positions are parameters of what follows. *)
Record V_index := {
  V_NUM : nat;
  V_pro_IRcom : nat; V_IRcom : nat; V_p1IRcom : nat; V_p2IRcom : nat;
  V_p1p2IRcom : nat; V_iAKT : nat; V_pAKT : nat; V_imTOR : nat;
  V_pmTOR : nat; V_iX : nat; V_pX : nat; V_iS6K : nat; V_pS6K : nat;
  V_iGSK3B : nat; V_pGSK3B : nat; V_iFoxO1 : nat; V_pFoxO1 : nat;
  V_G6Pase : nat
}.

Record C_index := {
  C_NUM : nat;
  C_k1_synthesis : nat; C_k1_InsIRcom : nat; C_k2_InsIRcom : nat;
  C_k1_p1IRcomDeg : nat; C_k1_p1IRcomPhos : nat;
  C_k1_p1p2IRcomdePhos : nat; C_k1_IRcomPhos : nat;
  C_k1_p2IRcomdePhos : nat; C_k1_p2IRcomDeg : nat; C_k1_Insp2IRcom : nat;
  C_k2_Insp2IRcom : nat; C_k1_p1p2IRcomDeg : nat; C_k1_AKTPhos : nat;
  C_k1_pAKTdePhos : nat; C_k1_mTORPhos : nat; C_k1_pmTORdePhos : nat;
  C_k1_S6KPhos : nat; C_k1_pS6KdePhos : nat; C_k1_XPhos : nat;
  C_k1_pXdePhos : nat; C_k1_GSK3BPhos : nat; C_k1_pGSK3BdePhos : nat;
  C_k1_FoxO1Phos : nat; C_k1_pFoxO1dePhos : nat;
  C_k1_G6PaseSynthesis : nat; C_k1_G6PaseDeg : nat
}.

(** [l[i] = x] on a list, for an index that is not negative: [IndexError]
    past the end. *)
Definition setitem (l : list float) (i : nat) (x : float)
  : option (list float) :=
  if bool_decide (i < length l) then Some (<[i := x]> l) else None.

(** Assignments [l[i] = rhs] made one after the other; the right-hand
    side is evaluated first and may raise. *)
Definition assign (l : list float) (items : list (nat * option float))
  : option (list float) :=
  foldlM (λ l '(i, rhs), x ← rhs; setitem l i x) l items.

(** The float operations on right-hand sides that may raise. *)
Definition osub (a b : option float) : option float :=
  x ← a; y ← b; Some (x - y)%float.
Definition oadd (a b : option float) : option float :=
  x ← a; y ← b; Some (x + y)%float.

Notation "a -? b" := (osub a b) (at level 50, left associativity).
Notation "a +? b" := (oadd a b) (at level 50, left associativity).

(** Lines 14-16: [v[i] = v[i] * dv] for the items of the perturbation
    dictionary, in the order it yields them; [KeyError] for a reaction
    that has no flux. *)
Definition scale_fluxes (v : gmap Z float) (items : list (Z * float))
  : option (gmap Z float) :=
  foldlM (λ v '(i, dv), v_i ← v !! i; Some (<[i := (v_i * dv)%float]> v))
         v items.

(** Lines 18-30: the right-hand sides of the equations, from the fluxes
    [v], each with the position it is assigned to. *)
Definition equations (V : V_index) (v : gmap Z float)
  : list (nat * option float) :=
  let v (i : Z) := v !! i in
  [(V_IRcom V, v 1 -? v 2 -? v 6 +? v 7);
   (V_p1IRcom V, v 2 -? v 3 -? v 4 +? v 5);
   (V_p2IRcom V, v 6 -? v 7 -? v 8 -? v 9);
   (V_p1p2IRcom V, v 4 -? v 5 +? v 9 -? v 10);
   (V_pAKT V, v 11 -? v 12);
   (V_pmTOR V, v 13 -? v 14);
   (V_pX V, v 17 -? v 18);
   (V_pS6K V, v 15 -? v 16);
   (V_pGSK3B V, v 19 -? v 20);
   (V_pFoxO1 V, v 21 -? v 22);
   (V_G6Pase V, v 23 -? v 24)]%Z.

(** [dydt = [0] * V.NUM] and the assignments.  The integer zeros of the
    list are the float zero here. *)
Definition derivative (V : V_index) (v : gmap Z float)
  : option (list float) :=
  assign (replicate (V_NUM V) 0%float) (equations V v).

(** The fluxes after lines 12-16.  A dictionary of perturbations that is
    absent or empty is not gone through. *)
Definition perturbed_fluxes (v : gmap Z float)
    (perturbation : option (gmap Z float)) : option (gmap Z float) :=
  match perturbation with
  | Some p =>
      if bool_decide (p = ∅) then Some v
      else scale_fluxes v (map_to_list p)
  | None => Some v
  end.

(** [DifferentialEquation(perturbation).diffeq(t, y, *x)].  The method
    [flux] is inherited from [ReactionNetwork], which is not among these
    sources: it is a parameter, and returns the dictionary of the fluxes
    by reaction number. *)
Definition diffeq (V : V_index)
    (flux : float → list float → list float → gmap Z float)
    (perturbation : option (gmap Z float))
    (t : float) (y x : list float) : option (list float) :=
  let v := flux t y x in
  v ← perturbed_fluxes v perturbation;
  derivative V v.

(** The assignments of [param_values] and of [initial_values], each with
    the value the source gives in decimal, read as the nearest float. *)
#[warnings="-inexact-float"]
Definition param_table (C : C_index) : list (nat * float) :=
  [   (C_k1_synthesis C, 0.04780);
   (C_k1_InsIRcom C, 7.78161);
   (C_k2_InsIRcom C, 1.61148);
   (C_k1_p1IRcomDeg C, 0.00792);
   (C_k1_p1IRcomPhos C, 0.00004);
   (C_k1_p1p2IRcomdePhos C, 0.28443);
   (C_k1_IRcomPhos C, 9.93311);
   (C_k1_p2IRcomdePhos C, 0.00001);
   (C_k1_p2IRcomDeg C, 0.00001);
   (C_k1_Insp2IRcom C, 0.36303);
   (C_k2_Insp2IRcom C, 0.40813);
   (C_k1_p1p2IRcomDeg C, 0.09490);
   (C_k1_AKTPhos C, 0.00920);
   (C_k1_pAKTdePhos C, 7.70619);
   (C_k1_mTORPhos C, 0.41968);
   (C_k1_pmTORdePhos C, 0.12433);
   (C_k1_S6KPhos C, 0.00752);
   (C_k1_pS6KdePhos C, 1.95498);
   (C_k1_XPhos C, 0.00105);
   (C_k1_pXdePhos C, 0.00146);
   (C_k1_GSK3BPhos C, 2.97538);
   (C_k1_pGSK3BdePhos C, 0.92460);
   (C_k1_FoxO1Phos C, 4.59698);
   (C_k1_pFoxO1dePhos C, 0.15172);
   (C_k1_G6PaseSynthesis C, 4.86146);
   (C_k1_G6PaseDeg C, 0.05496)]%float.

#[warnings="-inexact-float"]
Definition initial_table (V : V_index) : list (nat * float) :=
  [   (V_pro_IRcom V, 46.22225);
   (V_IRcom V, 46.22225);
   (V_p1IRcom V, 0);
   (V_p2IRcom V, 0);
   (V_p1p2IRcom V, 0);
   (V_iAKT V, 4.33812);
   (V_pAKT V, 0);
   (V_imTOR V, 0.09592);
   (V_pmTOR V, 0);
   (V_iX V, 14.99133);
   (V_pX V, 0);
   (V_iS6K V, 2.77699);
   (V_pS6K V, 0);
   (V_iGSK3B V, 10.56415);
   (V_pGSK3B V, 0);
   (V_iFoxO1 V, 0.43571);
   (V_pFoxO1 V, 0);
   (V_G6Pase V, 38.54029)]%float.

Definition param_values (C : C_index) : option (list float) :=
  assign (replicate (C_NUM C) 0%float)
         ((λ iv, (iv.1, Some iv.2)) <$> param_table C).

Definition initial_values (V : V_index) : option (list float) :=
  assign (replicate (V_NUM V) 0%float)
         ((λ iv, (iv.1, Some iv.2)) <$> initial_table V).

(** The positions [name2idx] gives when the names are numbered in the
    order in which [initial_values] and [param_values] list them. *)
Definition V_in_order : V_index :=
  {| V_NUM := 18;
     V_pro_IRcom := 0;
     V_IRcom := 1;
     V_p1IRcom := 2;
     V_p2IRcom := 3;
     V_p1p2IRcom := 4;
     V_iAKT := 5;
     V_pAKT := 6;
     V_imTOR := 7;
     V_pmTOR := 8;
     V_iX := 9;
     V_pX := 10;
     V_iS6K := 11;
     V_pS6K := 12;
     V_iGSK3B := 13;
     V_pGSK3B := 14;
     V_iFoxO1 := 15;
     V_pFoxO1 := 16;
     V_G6Pase := 17 |}.

Definition C_in_order : C_index :=
  {| C_NUM := 26;
     C_k1_synthesis := 0;
     C_k1_InsIRcom := 1;
     C_k2_InsIRcom := 2;
     C_k1_p1IRcomDeg := 3;
     C_k1_p1IRcomPhos := 4;
     C_k1_p1p2IRcomdePhos := 5;
     C_k1_IRcomPhos := 6;
     C_k1_p2IRcomdePhos := 7;
     C_k1_p2IRcomDeg := 8;
     C_k1_Insp2IRcom := 9;
     C_k2_Insp2IRcom := 10;
     C_k1_p1p2IRcomDeg := 11;
     C_k1_AKTPhos := 12;
     C_k1_pAKTdePhos := 13;
     C_k1_mTORPhos := 14;
     C_k1_pmTORdePhos := 15;
     C_k1_S6KPhos := 16;
     C_k1_pS6KdePhos := 17;
     C_k1_XPhos := 18;
     C_k1_pXdePhos := 19;
     C_k1_GSK3BPhos := 20;
     C_k1_pGSK3BdePhos := 21;
     C_k1_FoxO1Phos := 22;
     C_k1_pFoxO1dePhos := 23;
     C_k1_G6PaseSynthesis := 24;
     C_k1_G6PaseDeg := 25 |}.

(** The positions to which [diffeq] assigns. *)
Definition assigned (V : V_index) : list nat := (equations V ∅).*1.

(** The numbers of the reactions of the network, 1 to 24. *)
Definition reactions : list Z := Z.of_nat <$> seq 1 24.

(** The reactions that the equations mention, equation by equation. *)
Definition reactions_of_equations : list (list Z) :=
  [[1; 2; 6; 7]; [2; 3; 4; 5]; [6; 7; 8; 9]; [4; 5; 9; 10]; [11; 12];
   [13; 14]; [17; 18]; [15; 16]; [19; 20]; [21; 22]; [23; 24]]%Z.

End insulin_signaling.

(** * Settings of the figures *)

(** ** matplotlib.rcParams *)

(** A value assigned to a key of [plt.rcParams]: a number or a string. *)
Inductive rc_value :=
  | rc_number (x : float)
  | rc_string (s : string).

(** [plt.rcParams], by key. *)
Abbreviation rcParams := (gmap string rc_value).

(** Lines 153-160 of sensitivity.py: the settings of the bar plots. *)
#[warnings="-inexact-float"]
Definition barplot_rcParams (rc : rcParams) : rcParams :=
  let rc := <["font.size" := rc_number 15]> rc in
  let rc := <["font.family" := rc_string "Arial"]> rc in
  let rc := <["mathtext.fontset" := rc_string "custom"]> rc in
  let rc := <["mathtext.it" := rc_string "Arial:italic"]> rc in
  let rc := <["axes.linewidth" := rc_number 1.2]> rc in
  let rc := <["xtick.major.width" := rc_number 1.2]> rc in
  <["ytick.major.width" := rc_number 1.2]> rc.

(** Lines 250-257 of sensitivity.py: the settings of the heat maps. *)
#[warnings="-inexact-float"]
Definition heatmap_rcParams (rc : rcParams) : rcParams :=
  let rc := <["font.size" := rc_number 8]> rc in
  let rc := <["font.family" := rc_string "Arial"]> rc in
  let rc := <["mathtext.fontset" := rc_string "custom"]> rc in
  let rc := <["mathtext.it" := rc_string "Arial:italic"]> rc in
  let rc := <["axes.linewidth" := rc_number 1.2]> rc in
  let rc := <["xtick.major.width" := rc_number 1.2]> rc in
  <["ytick.major.width" := rc_number 1.2]> rc.

(** * The visualization of the Nakakuki model
      (biomass/models/Nakakuki_Cell_2010/viz.py) *)

Module Nakakuki_Cell_2010.

(** [Visualization.set_timecourse_rcParams] *)
#[warnings="-inexact-float"]
Definition set_timecourse_rcParams (rc : rcParams) : rcParams :=
  let rc := <["font.size" := rc_number 20]> rc in
  let rc := <["axes.linewidth" := rc_number 1.5]> rc in
  let rc := <["xtick.major.width" := rc_number 1.5]> rc in
  let rc := <["ytick.major.width" := rc_number 1.5]> rc in
  let rc := <["lines.linewidth" := rc_number 1.8]> rc in
  let rc := <["lines.markersize" := rc_number 12]> rc in
  <["savefig.bbox" := rc_string "tight"]> rc.

(** [Visualization.set_sensitivity_rcParams] *)
#[warnings="-inexact-float"]
Definition set_sensitivity_rcParams (rc : rcParams) : rcParams :=
  let rc := <["font.size" := rc_number 12]> rc in
  let rc := <["axes.linewidth" := rc_number 1.2]> rc in
  let rc := <["xtick.major.width" := rc_number 1.2]> rc in
  let rc := <["ytick.major.width" := rc_number 1.2]> rc in
  <["savefig.bbox" := rc_string "tight"]> rc.

(** [Visualization.convert_species_name] *)
Definition convert_species_name (name : string) : string := name.

Section visualization.

(** The colours of matplotlib and the markers of [Line2D]; the colour
    map [plt.cm.get_cmap("tab10")] is given by its list [colors]. *)
Variables color marker : Type.
Variable cm_colors : list color.
Variable filled_markers : list marker.

(** [Observable.obs_names]; the class [Observable] is not among these
    sources. *)
Variable obs_names : list string.

(** A dictionary of [timecourse_options]. *)
Record timecourse_option := {
  tc_divided_by : Z;
  tc_figsize : Z * Z;
  tc_xlim : list float;
  tc_xticks : option (list float);
  tc_xlabel : string;
  tc_ylim : list float;
  tc_yticks : option (list float);
  tc_ylabel : string;
  tc_exp_data : bool;
  tc_legend_kws : option (list (string * string));
  tc_cmap : list color;
  tc_shape : list marker;
  tc_dont_show : list string
}.

(** The dictionary [multiplot_options]; the keywords of the legend are
    kept as they are written. *)
Record multiplot_option := {
  mp_fname : string;
  mp_figsize : Z * Z;
  mp_observables : list string;
  mp_condition : option string;
  mp_xlim : list float;
  mp_xticks : option (list float);
  mp_xlabel : string;
  mp_ylim : list float;
  mp_yticks : option (list float);
  mp_ylabel : string;
  mp_legend_kws : list (string * string);
  mp_cmap : list color;
  mp_shape : list marker
}.

(** The dictionary [sensitivity_options]. *)
Record sensitivity_option := {
  so_figsize : Z * Z;
  so_width : float;
  so_legend_kws : list (string * string);
  so_cmap : list color
}.

Record Visualization := {
  timecourse_options : list timecourse_option;
  multiplot_options : multiplot_option;
  sensitivity_options : sensitivity_option
}.

(** [[self.cm.colors[j] for j in range(10)]]: [IndexError] for a colour
    map of fewer than ten colours. *)
Definition first_colors : option (list color) :=
  mapM (λ j, cm_colors !! j) (seq 0 10).

(** The label of the y axis of an observable. *)
Definition default_ylabel (name : string) : string :=
  str.replace (str.replace name "__" str.newline) "_" " ".

(** [Visualization.__init__] *)
#[warnings="-inexact-float"]
Definition init : option Visualization :=
  timecourse ←
    mapM (λ '(i, _),
        name ← obs_names !! i;
        cmap ← first_colors;
        Some {| tc_divided_by := 1;
                tc_figsize := (4, 3)%Z;
                tc_xlim := [];
                tc_xticks := None;
                tc_xlabel := "Time";
                tc_ylim := [];
                tc_yticks := None;
                tc_ylabel := default_ylabel name;
                tc_exp_data := true;
                tc_legend_kws := None;
                tc_cmap := cmap;
                tc_shape := filled_markers;
                tc_dont_show := [] |})
      (enumerate obs_names);
  cmap ← first_colors;
  let multiplot :=
    {| mp_fname := "multiplot_observables";
       mp_figsize := (4, 3)%Z;
       mp_observables := [];
       mp_condition := None;
       mp_xlim := [];
       mp_xticks := None;
       mp_xlabel := "Time";
       mp_ylim := [];
       mp_yticks := None;
       mp_ylabel := "";
       mp_legend_kws :=
         [("bbox_to_anchor", "(1.05, 1)"); ("loc", "upper left");
          ("borderaxespad", "0"); ("labelspacing", "1.25");
          ("frameon", "False"); ("fontsize", "12")];
       mp_cmap := cmap;
       mp_shape := filled_markers |} in
  cmap ← first_colors;
  let sensitivity :=
    {| so_figsize := (12, 5)%Z;
       so_width := 0.3;
       so_legend_kws := [("loc", "upper left"); ("frameon", "False")];
       so_cmap := cmap |} in
  Some {| timecourse_options := timecourse;
          multiplot_options := multiplot;
          sensitivity_options := sensitivity |}.

(** [Visualization.get_timecourse_options] and
    [Visualization.multiplot_observables]: their bodies are a docstring
    and a [return]. *)
Definition get_timecourse_options (self : Visualization)
  : list timecourse_option :=
  timecourse_options self.

Definition multiplot_observables (self : Visualization)
  : multiplot_option :=
  multiplot_options self.

End visualization.

End Nakakuki_Cell_2010.

(** The underscore. *)
Definition underscore : Ascii.ascii := Ascii.ascii_of_nat 95.

(** A character of a string. *)
Fixpoint occurs (c : Ascii.ascii) (s : string) : bool :=
  match s with
  | EmptyString => false
  | String c' s' => Ascii.eqb c' c || occurs c s'
  end.

(** A model that takes the colours of its bar plots from a
    visualization with [n] colours. *)
Definition with_cmap_len (M : BioModel) (n : nat) : BioModel := {|
  params := @params M;
  trace := @trace M;
  sim_state := @sim_state M;
  model_path := @model_path M;
  obs := @obs M;
  conditions := @conditions M;
  n_file := @n_file M;
  load_param := @load_param M;
  simulate := @simulate M;
  simulations := @simulations M;
  get_signaling_metric := @get_signaling_metric M;
  group := @group M;
  cmap_len := n;
  log := @log M
|}.

(** * Properties *)

(** ** Facts about binary64 arithmetic *)

Module binary64.

Lemma Prim2SF_one : Prim2SF 1%float = SF_one.
Proof. vm_compute. reflexivity. Qed.

Lemma Prim2SF_zero : Prim2SF 0%float = S754_zero false.
Proof. vm_compute. reflexivity. Qed.

(** Division of a multiple of 2^52 by 2^52 is exact. *)
Lemma div_eucl_pow2 (a : Z) :
  Z.div_eucl (a * 4503599627370496) 4503599627370496 = (a, 0%Z).
Proof.
  pose proof (Z.div_eucl_eq (a * 4503599627370496) 4503599627370496
                ltac:(lia)) as Heq.
  pose proof (Z.mod_pos_bound (a * 4503599627370496) 4503599627370496
                ltac:(lia)) as Hb.
  unfold Z.modulo in Hb.
  destruct (Z.div_eucl _ _) as [q r].
  assert (r = 0%Z) by lia. subst r. f_equal. lia.
Qed.

(** The quotient of a binary64 mantissa by the mantissa of 1 is the
    mantissa itself, doubled for a normal number above the smallest
    exponent. *)
Lemma SFdiv_core_one (m : positive) (e : Z) :
  bounded 53 1024 m e = true →
  SFdiv_core_binary 53 1024 (Zpos m) e 4503599627370496 (-52) =
    if ((Zpos (digits2_pos m) =? 53)%Z && (-1074 <? e)%Z)%bool
    then (Zpos m~0, (e - 1)%Z, loc_Exact)
    else (Zpos m, e, loc_Exact).
Proof.
  unfold bounded, canonical_mantissa, fexp, emin. intros Hb.
  apply andb_true_iff in Hb as [Hc He].
  apply Z.eqb_eq in Hc. apply Z.leb_le in He.
  unfold SFdiv_core_binary, fexp, emin.
  change (Zdigits2 (Z.pos m)) with (Zpos (digits2_pos m)).
  change (Zdigits2 4503599627370496) with 53%Z.
  set (d := Zpos (digits2_pos m)) in *.
  assert (0 < d)%Z by (unfold d; lia).
  destruct ((d =? 53)%Z && (-1074 <? e)%Z)%bool eqn:Hcase.
  - apply andb_true_iff in Hcase as [Hd Hlt].
    apply Z.eqb_eq in Hd. apply Z.ltb_lt in Hlt.
    replace (Z.min (Z.max (d + e - (53 + -52) - 53) (3 - 1024 - 53))
               (e - -52))%Z with (e - 1)%Z by lia.
    replace (e - -52 - (e - 1))%Z with 53%Z by lia.
    cbv beta iota zeta.
    rewrite Z.shiftl_mul_pow2 by lia.
    replace (Z.pos m * 2 ^ 53)%Z
      with (Z.pos m~0 * 4503599627370496)%Z by lia.
    by rewrite div_eucl_pow2.
  - assert (d ≠ 53 ∨ e ≤ -1074)%Z as Hor.
    { apply andb_false_iff in Hcase as [Hd|Hd].
      - left. by apply Z.eqb_neq in Hd.
      - right. apply Z.ltb_ge in Hd. lia. }
    replace (Z.min (Z.max (d + e - (53 + -52) - 53) (3 - 1024 - 53))
               (e - -52))%Z with e by lia.
    replace (e - -52 - e)%Z with 52%Z by lia.
    cbv beta iota zeta.
    rewrite Z.shiftl_mul_pow2 by lia.
    replace (Z.pos m * 2 ^ 52)%Z
      with (Z.pos m * 4503599627370496)%Z by lia.
    by rewrite div_eucl_pow2.
Qed.

Lemma SFdiv_one (x : spec_float) :
  valid_binary x = true → SF64div x SF_one = x.
Proof.
  intros Hv.
  destruct x as [s|s| |s m e];
    [by destruct s | by destruct s | done | ].
  unfold SF64div, SF_one, SFdiv, prec, emax in *. cbn [valid_binary] in Hv.
  rewrite (SFdiv_core_one m e Hv).
  unfold bounded, canonical_mantissa, fexp, emin in Hv.
  apply andb_true_iff in Hv as [Hc He].
  apply Z.eqb_eq in Hc. apply Z.leb_le in He.
  rewrite xorb_false_r.
  assert ((e <=? 1024 - 53)%Z = true) as Hle by (apply Z.leb_le; lia).
  destruct ((Zpos (digits2_pos m) =? 53)%Z && (-1074 <? e)%Z)%bool
    eqn:Hcase.
  - apply andb_true_iff in Hcase as [Hd Hlt].
    apply Z.eqb_eq in Hd. apply Z.ltb_lt in Hlt.
    unfold binary_round_aux, shr_fexp, fexp, emin.
    change (Zdigits2 (Z.pos m~0)) with (Zpos (Pos.succ (digits2_pos m))).
    rewrite Pos2Z.inj_succ.
    replace (Z.max (Z.succ (Z.pos (digits2_pos m)) + (e - 1) - 53)
               (3 - 1024 - 53) - (e - 1))%Z with 1%Z by lia.
    cbn [shr shr_record_of_loc SpecFloat.iter_pos shr_1 shr_m
         loc_of_shr_record round_nearest_even orb].
    change (Zdigits2 (Z.pos m)) with (Zpos (digits2_pos m)).
    replace (e - 1 + 1)%Z with e by lia.
    replace (Z.max (Z.pos (digits2_pos m) + e - 53) (3 - 1024 - 53) - e)%Z
      with 0%Z by lia.
    cbn [shr shr_record_of_loc shr_m].
    by rewrite Hle.
  - unfold binary_round_aux, shr_fexp, fexp, emin.
    change (Zdigits2 (Z.pos m)) with (Zpos (digits2_pos m)).
    replace (Z.max (Z.pos (digits2_pos m) + e - 53) (3 - 1024 - 53) - e)%Z
      with 0%Z by lia.
    cbn [shr shr_record_of_loc SpecFloat.iter_pos shr_1 shr_m
         loc_of_shr_record round_nearest_even orb].
    change (Zdigits2 (Z.pos m)) with (Zpos (digits2_pos m)).
    replace (Z.max (Z.pos (digits2_pos m) + e - 53) (3 - 1024 - 53) - e)%Z
      with 0%Z by lia.
    cbn [shr shr_record_of_loc shr_m].
    by rewrite Hle.
Qed.

(** Dividing by 1 changes no binary64 value. *)
Lemma div_one (x : float) : (x / 1)%float = x.
Proof.
  apply Prim2SF_inj. rewrite div_spec, Prim2SF_one.
  apply SFdiv_one, Prim2SF_valid.
Qed.

Lemma is_nan_spec (x : float) :
  is_nan x = match Prim2SF x with S754_nan => true | _ => false end.
Proof.
  unfold is_nan. rewrite FloatAxioms.eqb_spec. unfold SFeqb, SFcompare.
  destruct (Prim2SF x) as [s|[]| |[] m e]; try done.
  - by rewrite Z.compare_refl, Pos.compare_cont_refl.
  - by rewrite Z.compare_refl, Pos.compare_cont_refl.
Qed.

Lemma is_zero_spec (x : float) :
  (x =? 0)%float =
    match Prim2SF x with S754_zero _ => true | _ => false end.
Proof.
  rewrite FloatAxioms.eqb_spec, Prim2SF_zero. unfold SFeqb, SFcompare.
  by destruct (Prim2SF x) as [s|[]| |[] m e].
Qed.

(** A float that is not NaN equals itself. *)
Lemma feq_refl (x : float) : is_nan x = false → feq x x.
Proof. unfold feq, is_nan. by intros ?%negb_false_iff. Qed.

Lemma feq_zero_zero (x : float) : (x =? 0)%float = true → feq 0%float x.
Proof.
  unfold feq. rewrite is_zero_spec, FloatAxioms.eqb_spec, Prim2SF_zero.
  by destruct (Prim2SF x).
Qed.

Lemma abs_zero (y : float) :
  (PrimFloat.abs y =? 0)%float = (y =? 0)%float.
Proof.
  rewrite !is_zero_spec, abs_spec. by destruct (Prim2SF y).
Qed.

(** The largest of two absolute values is zero only if both are. *)
Lemma fmax_abs_zero (a y : float) :
  (0 <=? a)%float = true → is_nan y = false →
  (np.fmax a (PrimFloat.abs y) =? 0)%float = true →
  (a =? 0)%float = true ∧ (y =? 0)%float = true.
Proof.
  unfold np.fmax. intros Ha Hy.
  destruct (_ || _) eqn:Hc; intros Hz.
  - split; [done|].
    rewrite is_nan_spec, FloatAxioms.leb_spec, abs_spec in Hc.
    rewrite is_nan_spec in Hy. rewrite is_zero_spec in Hz |- *.
    destruct (Prim2SF a) as [sa|[]| |[] ma ea],
             (Prim2SF y) as [sy|[]| |[] my ey]; done.
  - rewrite abs_zero in Hz. split; [|done].
    apply orb_false_iff in Hc as [Hc _].
    rewrite FloatAxioms.leb_spec, abs_spec in Hc.
    rewrite FloatAxioms.leb_spec, Prim2SF_zero in Ha.
    rewrite is_zero_spec in Hz |- *.
    destruct (Prim2SF a) as [sa|[]| |[] ma ea],
             (Prim2SF y) as [sy|[]| |[] my ey]; done.
Qed.

Lemma fmax_abs_nonneg (a y : float) :
  (0 <=? a)%float = true → is_nan y = false →
  (0 <=? np.fmax a (PrimFloat.abs y))%float = true.
Proof.
  intros Ha Hy. unfold np.fmax.
  destruct (_ || _); [done|].
  rewrite FloatAxioms.leb_spec, abs_spec, Prim2SF_zero.
  rewrite is_nan_spec in Hy.
  by destruct (Prim2SF y) as [sy|[]| |[] my ey].
Qed.

Lemma abs_nonneg (y : float) :
  is_nan y = false → (0 <=? PrimFloat.abs y)%float = true.
Proof.
  intros Hy. rewrite FloatAxioms.leb_spec, abs_spec, Prim2SF_zero.
  rewrite is_nan_spec in Hy.
  by destruct (Prim2SF y) as [sy|[]| |[] my ey].
Qed.

End binary64.

(** ** The loops *)

(** A loop over [enumerate(l)] that ignores the elements is a loop over
    the positions. *)
Lemma foldlM_enumerate_from {A B : Type} (f : A → nat → option A) (a : A)
    (n : nat) (l : list B) :
  foldlM (λ a '(k, _), f a k) a (enumerate_from n l)
  = foldlM f a (seq n (length l)).
Proof.
  revert a n. induction l as [|x l IH]; intros a n; [done|].
  cbn. destruct (f a n); [apply IH | done].
Qed.

(** ** _remove_nan *)

Lemma nan_rows_from_ge (n : nat) (a : np.matrix) (i : nat) :
  i ∈ nan_rows_from n a → n ≤ i < n + length a.
Proof.
  revert n. induction a as [|row a IH]; intros n; cbn.
  - by intros ?%elem_of_nil.
  - intros [Hin|Hin]%elem_of_app.
    + destruct (np.any _); [|by apply elem_of_nil in Hin].
      apply list_elem_of_singleton in Hin. lia.
    + apply IH in Hin. lia.
Qed.

(** One iteration of the loop of [_remove_nan], on the row after [pre]. *)
Lemma remove_nan_body_eq (normalize : bool) (ncols : nat)
    (pre rest : np.matrix) (row : np.vector) (idx : list nat) :
  remove_nan_body normalize ncols (pre ++ row :: rest, idx) (length pre)
  = row' ← cleaned_row normalize ncols row;
    Some (pre ++ row' :: rest,
          if np.any (map np.isnan row) then idx ++ [length pre] else idx).
Proof.
  unfold remove_nan_body, cleaned_row.
  rewrite list_lookup_middle by done. cbn [mbind option_bind].
  assert (∀ row', <[length pre:=row']> (pre ++ row :: rest)
                  = pre ++ row' :: rest) as Hins.
  { intros row'. rewrite insert_app_r_alt by done.
    by replace (length pre - length pre) with 0 by lia. }
  destruct (np.nanmax (np.abs row)) as [m|]; [|done].
  cbn [mbind option_bind].
  destruct (m =? 0)%float; cbn [mbind option_bind]; by rewrite Hins.
Qed.

(** The loop of [_remove_nan], started with the rows [pre] already
    written. *)
Lemma remove_nan_loop (normalize : bool) (ncols : nat)
    (pre rest : np.matrix) (idx : list nat) :
  foldlM (remove_nan_body normalize ncols) (pre ++ rest, idx)
         (seq (length pre) (length rest))
  = rest' ← mapM (cleaned_row normalize ncols) rest;
    Some (pre ++ rest', idx ++ nan_rows_from (length pre) rest).
Proof.
  revert pre idx. induction rest as [|row rest IH]; intros pre idx.
  - cbn. by rewrite !app_nil_r.
  - cbn [length seq foldlM mapM nan_rows_from].
    rewrite remove_nan_body_eq.
    destruct (cleaned_row normalize ncols row) as [row'|]; [|done].
    cbn [mbind option_bind].
    pose proof (IH (pre ++ [row'])
                  (if np.any (map np.isnan row) then idx ++ [length pre]
                   else idx)) as Hnext.
    rewrite length_app in Hnext. cbn [length] in Hnext.
    replace (length pre + 1) with (S (length pre)) in Hnext by lia.
    rewrite <- !(assoc_L (++)) in Hnext. cbn [app] in Hnext.
    rewrite Hnext.
    destruct (mapM _ rest) as [rest'|]; [|done]. cbn.
    destruct (np.any _); by rewrite <- ?(assoc_L (++)).
Qed.

(** [np.delete] with the recorded row numbers keeps the rows that stand
    where the original has no NaN. *)
Lemma delete_from_nan_rows (n : nat) (original written : np.matrix)
    (idx : list nat) :
  length original = length written →
  (∀ i, i ∈ idx → i < n) →
  np.delete_from n written (idx ++ nan_rows_from n original)
  = survivors original written.
Proof.
  revert n written idx.
  induction original as [|row original IH]; intros n written idx Hlen Hidx.
  - by destruct written.
  - destruct written as [|row' written]; [done|].
    cbn in Hlen. injection Hlen as Hlen.
    cbn [np.delete_from nan_rows_from].
    unfold survivors. cbn [zip zip_with]. rewrite filter_cons. cbn [fst].
    assert (nan_free row = negb (np.any (map np.isnan row))) as Hfree by done.
    destruct (np.any (map np.isnan row)) eqn:Hany; cbn [negb] in Hfree.
    + rewrite bool_decide_true by set_solver.
      rewrite decide_False by (by rewrite Hfree).
      rewrite (assoc_L (++)).
      apply IH; [done|].
      intros i [Hi|Hi]%elem_of_app; [apply Hidx in Hi; lia|].
      apply list_elem_of_singleton in Hi. lia.
    + rewrite bool_decide_false.
      2:{ intros [Hi|[Hi|Hi]%elem_of_app]%elem_of_app.
          - apply Hidx in Hi. lia.
          - by apply elem_of_nil in Hi.
          - apply nan_rows_from_ge in Hi. lia. }
      rewrite decide_True by done. cbn [fmap list_fmap snd]. f_equal.
      cbn [app]. apply IH; [done|].
      intros i Hi. apply Hidx in Hi. lia.
Qed.

(** [_remove_nan] in one equation: every row is overwritten with its
    cleaned version, and the rows without NaN are returned. *)
Lemma remove_nan_eq (a : np.matrix) (normalize : bool) :
  _remove_nan a normalize
  = written ← mapM (cleaned_row normalize (np.shape1 a)) a;
    Some (written, survivors a written).
Proof.
  unfold _remove_nan, np.shape0.
  pose proof (remove_nan_loop normalize (np.shape1 a) [] a []) as Hloop.
  cbn [app length] in Hloop. rewrite Hloop.
  destruct (mapM _ a) as [written|] eqn:Hw; [|done].
  cbn [mbind option_bind].
  apply length_mapM in Hw.
  unfold np.delete.
  assert (forallb (λ i, bool_decide (i < length written))
            (nan_rows_from 0 a) = true) as ->.
  { apply forallb_forall. intros i Hi%list_elem_of_In.
    apply nan_rows_from_ge in Hi. apply bool_decide_eq_true. lia. }
  cbn. f_equal. f_equal.
  apply (delete_from_nan_rows 0 a written []); [done|].
  by intros i ?%elem_of_nil.
Qed.

(** *** Rows *)

Lemma nan_free_Forall (row : np.vector) :
  nan_free row = true ↔ Forall (λ x, is_nan x = false) row.
Proof.
  unfold nan_free, np.any, np.isnan. induction row as [|x row IH].
  - split; [constructor | done].
  - cbn. rewrite Forall_cons, <- IH.
    destruct (is_nan x); cbn; [|tauto]. split; [done | by intros []].
Qed.

Lemma row_eq_refl (row : np.vector) : nan_free row = true → row_eq row row.
Proof.
  intros Hfree%nan_free_Forall. unfold row_eq.
  induction Hfree; constructor; auto using binary64.feq_refl.
Qed.

Lemma nanmax_is_Some (row : np.vector) :
  row ≠ [] → is_Some (np.nanmax (np.abs row)).
Proof. destruct row; [done|]. intros _. by eexists. Qed.

Lemma foldl_fmax_abs_zero (rest : np.vector) (a : float) :
  (0 <=? a)%float = true →
  Forall (λ x, is_nan x = false) rest →
  (foldl np.fmax a (np.abs rest) =? 0)%float = true →
  (a =? 0)%float = true ∧ Forall (λ x, (x =? 0)%float = true) rest.
Proof.
  intros Ha Hrest. revert a Ha.
  induction Hrest as [|y rest Hy Hrest IH]; intros a Ha Hz.
  - by split.
  - cbn in Hz.
    apply IH in Hz as [Hz Hall]; [|by apply binary64.fmax_abs_nonneg].
    apply binary64.fmax_abs_zero in Hz as [? ?]; [|done..].
    split; [done|]. by constructor.
Qed.

(** A row without NaN whose largest absolute value is zero holds zeros
    only. *)
Lemma nanmax_abs_zero (row : np.vector) (m : float) :
  nan_free row = true →
  np.nanmax (np.abs row) = Some m →
  (m =? 0)%float = true →
  Forall (λ x, (x =? 0)%float = true) row.
Proof.
  intros Hfree%nan_free_Forall Hmax Hz.
  destruct row as [|x rest]; [done|].
  cbn in Hmax. injection Hmax as <-.
  apply Forall_cons in Hfree as [Hx Hrest].
  apply foldl_fmax_abs_zero in Hz as [Hz Hall];
    [|by apply binary64.abs_nonneg|done].
  rewrite binary64.abs_zero in Hz. by constructor.
Qed.

Lemma zeros_row_eq (row : np.vector) :
  Forall (λ x, (x =? 0)%float = true) row →
  row_eq (np.zeros (length row)) row.
Proof.
  unfold row_eq, np.zeros.
  induction 1; cbn; constructor; auto using binary64.feq_zero_zero.
Qed.

Lemma zeros_nan_free (n : nat) :
  Forall (λ x, is_nan x = false) (np.zeros n).
Proof. unfold np.zeros. by apply Forall_replicate. Qed.

Lemma map_div_one (row : np.vector) : map (λ x, x / 1)%float row = row.
Proof.
  induction row as [|x row IH]; [done|].
  cbn. by rewrite binary64.div_one, IH.
Qed.

(** Without normalisation a row without NaN is overwritten with equal
    values, and with the very same floats unless it holds zeros only. *)
Lemma cleaned_row_unchanged (row row' : np.vector) :
  nan_free row = true →
  cleaned_row false (length row) row = Some row' →
  row_eq row' row ∧ (Exists (λ x, (x =? 0)%float = false) row → row' = row).
Proof.
  intros Hfree. unfold cleaned_row.
  destruct (np.nanmax (np.abs row)) as [m|] eqn:Hmax; [|done].
  cbn. intros [= <-].
  destruct (m =? 0)%float eqn:Hz.
  - pose proof (nanmax_abs_zero row m Hfree Hmax Hz) as Hall.
    split; [by apply zeros_row_eq|].
    intros (x & Hx & Hnz)%Exists_exists.
    rewrite Forall_forall in Hall. apply Hall in Hx. congruence.
  - rewrite map_div_one. split; [by apply row_eq_refl | done].
Qed.

(** *** The rows that survive *)

Lemma survivors_Forall2 (R : np.vector → np.vector → Prop)
    (original written : np.matrix) :
  Forall2 (λ row row', nan_free row = true → R row row') original written →
  Forall2 R (filter (λ row, nan_free row = true) original)
            (survivors original written).
Proof.
  unfold survivors. induction 1 as [|row row' original written HR _ IH].
  - constructor.
  - cbn [zip zip_with]. rewrite !filter_cons. cbn [fst].
    destruct (decide (nan_free row = true)); [|done].
    cbn. constructor; auto.
Qed.

(** [_remove_nan] returns whenever every row has an entry. *)
Lemma remove_nan_returns (a : np.matrix) (ncols : nat) (normalize : bool) :
  rectangular ncols a → 0 < ncols →
  ∃ written,
    mapM (cleaned_row normalize (np.shape1 a)) a = Some written
    ∧ _remove_nan a normalize = Some (written, survivors a written).
Proof.
  intros Hrect Hcols.
  destruct (mapM (cleaned_row normalize (np.shape1 a)) a) as [written|]
    eqn:Hw.
  - exists written. split; [done|]. by rewrite remove_nan_eq, Hw.
  - apply mapM_None in Hw. apply Exists_exists in Hw as (row & Hin & Hnone).
    unfold rectangular in Hrect. rewrite Forall_forall in Hrect.
    apply Hrect in Hin. unfold cleaned_row in Hnone.
    destruct (nanmax_is_Some row) as [m Hm].
    { intros ->. cbn in Hin. lia. }
    by rewrite Hm in Hnone.
Qed.

Lemma Forall2_impl_l {A B : Type} (P : A → Prop) (R Q : A → B → Prop)
    (l : list A) (k : list B) :
  Forall P l → Forall2 R l k → (∀ x y, P x → R x y → Q x y) →
  Forall2 Q l k.
Proof.
  intros HP HR HQ. revert HP.
  induction HR; inversion 1; constructor; auto.
Qed.

Lemma rectangular_cleaned (a written : np.matrix) (ncols : nat)
    (normalize : bool) :
  rectangular ncols a →
  mapM (cleaned_row normalize (np.shape1 a)) a = Some written →
  Forall2 (λ row row', length row = ncols
                       ∧ cleaned_row normalize ncols row = Some row')
          a written.
Proof.
  intros Hrect Hw%mapM_Some_1.
  assert (a ≠ [] → np.shape1 a = ncols) as Hshape.
  { destruct a as [|r a]; [done|]. intros _.
    by apply Forall_cons in Hrect as [Hr _]. }
  destruct a as [|r a]; [inversion Hw; constructor|].
  rewrite Hshape in Hw by done.
  apply (Forall2_impl_l _ _ _ _ _ Hrect Hw). auto.
Qed.

(** C6 (as amended): for every matrix whose rows have at least one entry,
    cleaning without normalisation returns the rows that hold no NaN, in
    their original order: each returned row holds floats equal to those of
    the row it comes from, and the very same floats when that row has a
    non-zero entry. *)
Theorem remove_nan_keeps_nan_free_rows (a : np.matrix) (ncols : nat) :
  rectangular ncols a → 0 < ncols →
  ∃ written returned,
    _remove_nan a false = Some (written, returned)
    ∧ Forall2 (λ row row',
        row_eq row' row
        ∧ (Exists (λ x, (x =? 0)%float = false) row → row' = row))
        (filter (λ row, nan_free row = true) a) returned.
Proof.
  intros Hrect Hcols.
  destruct (remove_nan_returns a ncols false Hrect Hcols)
    as (written & Hw & Hcall).
  exists written, (survivors a written). split; [done|].
  apply survivors_Forall2.
  eapply Forall2_impl; [by apply rectangular_cleaned|].
  intros row row' [Hlen Hrow] Hfree. cbn in Hrow.
  apply cleaned_row_unchanged; [done|]. by rewrite Hlen.
Qed.

Lemma remove_nan_keeps_nan_free_rows_witness :
  ∃ written returned,
    _remove_nan [[1; 2; 3]; [4; 5; 6]; [7; nan; 9]; [10; 11; 12]]%float false
    = Some (written, returned)
    ∧ Forall2 (λ row row',
        row_eq row' row
        ∧ (Exists (λ x, (x =? 0)%float = false) row → row' = row))
        (filter (λ row, nan_free row = true)
           [[1; 2; 3]; [4; 5; 6]; [7; nan; 9]; [10; 11; 12]]%float)
        returned.
Proof.
  apply (remove_nan_keeps_nan_free_rows _ 3); [|lia].
  repeat constructor.
Defined.

(** The 4 x 3 matrix whose row 2 holds a NaN is cleaned to the 3 x 3 matrix
    of its other rows. *)
Example remove_nan_4x3 :
  snd <$> _remove_nan
    [[1; 2; 3]; [4; 5; 6]; [7; nan; 9]; [10; 11; 12]]%float false
  = Some [[1; 2; 3]; [4; 5; 6]; [10; 11; 12]]%float.
Proof. vm_compute. reflexivity. Qed.

(** C6, as stated, fails on a matrix without columns: its one row holds no
    NaN, yet the call raises instead of returning it, because [np.nanmax]
    rejects an empty row. *)
Lemma remove_nan_no_column :
  filter (λ row, nan_free row = true) [[]] = [[]]
  ∧ _remove_nan [[]] false = None.
Proof. split; reflexivity. Qed.

(** C7: with normalisation, every returned row comes from a row without
    NaN and is that row divided entry by entry by its largest absolute
    value when the latter is not zero, and a row of zeros (no NaN) when it
    is zero; in particular [2, -4, 1] becomes [0.5, -1, 0.25] and a zero row
    stays a zero row.  Without normalisation, the returned rows hold the
    values of the rows they come from. *)
Theorem remove_nan_normalize (a : np.matrix) (ncols : nat) :
  rectangular ncols a → 0 < ncols →
  (∃ written returned,
      _remove_nan a true = Some (written, returned)
      ∧ Forall2 (λ row row',
          ∃ m, np.nanmax (np.abs row) = Some m
               ∧ ((m =? 0)%float = false
                  → row' = map (λ x, x / m)%float row)
               ∧ ((m =? 0)%float = true
                  → row' = np.zeros ncols
                    ∧ Forall (λ x, is_nan x = false) row'))
          (filter (λ row, nan_free row = true) a) returned)
  ∧ (∃ written returned,
      _remove_nan a false = Some (written, returned)
      ∧ Forall2 (λ row row',
          row_eq row' row
          ∧ (Exists (λ x, (x =? 0)%float = false) row → row' = row))
          (filter (λ row, nan_free row = true) a) returned)
  ∧ snd <$> _remove_nan [[2; -4; 1]; [0; 0; 0]]%float true
    = Some [[0.5; -1; 0.25]; [0; 0; 0]]%float.
Proof.
  intros Hrect Hcols. split; [|split].
  - destruct (remove_nan_returns a ncols true Hrect Hcols)
      as (written & Hw & Hcall).
    exists written, (survivors a written). split; [done|].
    apply survivors_Forall2.
    eapply Forall2_impl; [by apply rectangular_cleaned|].
    intros row row' [Hlen Hrow] _. cbn in Hrow. unfold cleaned_row in Hrow.
    destruct (np.nanmax (np.abs row)) as [m|]; [|done].
    cbn in Hrow. injection Hrow as <-.
    exists m. split; [done|].
    split; intros ->; [done|]. split; [done | apply zeros_nan_free].
  - destruct (remove_nan_returns a ncols false Hrect Hcols)
      as (written & Hw & Hcall).
    exists written, (survivors a written). split; [done|].
    apply survivors_Forall2.
    eapply Forall2_impl; [by apply rectangular_cleaned|].
    intros row row' [Hlen Hrow] Hfree. cbn in Hrow.
    apply cleaned_row_unchanged; [done|]. by rewrite Hlen.
  - vm_compute. reflexivity.
Qed.

(** C7, as stated, fails on a matrix without columns.  Its rows hold no
    NaN and survive the cleaning, yet the call with [normalize=False]
    raises instead of returning them with their values unchanged, and so
    does the call with [normalize=True]: [np.nanmax] rejects the empty row
    before anything is divided or returned.  This is so for every matrix
    that has rows and no column. *)
Lemma remove_nan_normalize_no_column :
  filter (λ row, nan_free row = true) [[]; []] = [[]; []]
  ∧ _remove_nan [[]; []] false = None
  ∧ _remove_nan [[]; []] true = None
  ∧ ∀ (a : np.matrix) (normalize : bool),
      a ≠ [] → rectangular 0 a → _remove_nan a normalize = None.
Proof.
  split; [reflexivity|]. split; [reflexivity|]. split; [reflexivity|].
  intros a normalize Hne Hrect. rewrite remove_nan_eq.
  destruct a as [|row a]; [done|].
  apply Forall_cons in Hrect as [Hrow _].
  apply nil_length_inv in Hrow. subst row. reflexivity.
Qed.

(** ** Array indexing *)

Lemma index_of_nat (n i : nat) : i < n → np.index n (Z.of_nat i) = Some i.
Proof.
  intros Hi. unfold np.index.
  rewrite bool_decide_true by lia. by rewrite Nat2Z.id.
Qed.

Lemma index_last (n : nat) : np.index (S n) (-1) = Some n.
Proof.
  unfold np.index.
  rewrite bool_decide_false by lia. rewrite bool_decide_true by lia.
  f_equal. lia.
Qed.

Lemma index_lt (n : nat) (i : Z) (k : nat) : np.index n i = Some k → k < n.
Proof.
  unfold np.index. repeat case_bool_decide; intros [= <-]; lia.
Qed.

Lemma at_index_Some {A : Type} (i : Z) (f : A → option A) (l : list A)
    (n : nat) (a : A) :
  np.index (length l) i = Some n → l !! n = Some a →
  np.at_index i f l = a' ← f a; Some (<[n := a']> l).
Proof.
  intros Hi Ha. unfold np.at_index. rewrite Hi. cbn [mbind option_bind].
  by rewrite Ha.
Qed.

(** A loop that writes, at each iteration, inside the same element of an
    array is a loop on that element. *)
Lemma foldlM_at_index {A B : Type} (i : Z) (F : B → A → option A)
    (bs : list B) (l : list A) (n : nat) (a : A) :
  np.index (length l) i = Some n → l !! n = Some a →
  foldlM (λ l b, np.at_index i (F b) l) l bs
  = a' ← foldlM (λ a b, F b a) a bs; Some (<[n := a']> l).
Proof.
  revert l a. induction bs as [|b bs IH]; intros l a Hi Ha.
  - cbn. by rewrite list_insert_id.
  - cbn [foldlM]. rewrite (at_index_Some i _ l n a) by done.
    destruct (F b a) as [a1|]; [|done]. cbn [mbind option_bind].
    pose proof (index_lt _ _ _ Hi) as Hn.
    rewrite (IH (<[n:=a1]> l) a1).
    + destruct (foldlM _ a1 bs); [|done]. cbn.
      by rewrite list_insert_insert_eq.
    + by rewrite length_insert.
    + by apply list_lookup_insert_eq.
Qed.

(** Writing every position of a row in turn. *)
Lemma fill_row (g : nat → float) (pre rest : np.vector) :
  foldlM (λ row l, np.at_index (Z.of_nat l) (λ _, Some (g l)) row)
         (pre ++ rest) (seq (length pre) (length rest))
  = Some (pre ++ (g <$> seq (length pre) (length rest))).
Proof.
  revert pre. induction rest as [|x rest IH]; intros pre; [done|].
  cbn [length seq foldlM fmap list_fmap].
  rewrite (at_index_Some _ _ _ (length pre) x).
  - cbn [mbind option_bind].
    rewrite insert_app_r_alt by done.
    replace (length pre - length pre) with 0 by lia. cbn [insert list_insert].
    pose proof (IH (pre ++ [g (length pre)])) as Hnext.
    rewrite length_app in Hnext. cbn [length] in Hnext.
    replace (length pre + 1) with (S (length pre)) in Hnext by lia.
    rewrite <- !(assoc_L (++)) in Hnext. by cbn [app] in Hnext.
  - apply index_of_nat. rewrite length_app. cbn. lia.
  - by apply list_lookup_middle.
Qed.

Lemma foldlM_ext {A B : Type} (f g : A → B → option A) (a : A)
    (l : list B) :
  (∀ a b, f a b = g a b) → foldlM f a l = foldlM g a l.
Proof.
  intros Hfg. revert a. induction l as [|b l IH]; intros a; [done|].
  cbn. rewrite Hfg. destruct (g a b); [apply IH | done].
Qed.

(** A loop whose body rewrites the element [n] of an array, whatever the
    array holds elsewhere, is a loop on that element. *)
Lemma foldlM_inside {A B : Type} (body : list A → B → option (list A))
    (F : B → A → option A) (n : nat) (bs : list B) (l : list A) (a : A) :
  (∀ l' a' b, length l' = length l → l' !! n = Some a' →
              body l' b = a'' ← F b a'; Some (<[n := a'']> l')) →
  l !! n = Some a →
  foldlM body l bs = a' ← foldlM (λ a b, F b a) a bs; Some (<[n := a']> l).
Proof.
  intros Hbody. revert l a Hbody.
  induction bs as [|b bs IH]; intros l a Hbody Ha.
  - cbn. by rewrite list_insert_id.
  - cbn [foldlM]. rewrite (Hbody l a b) by done.
    destruct (F b a) as [a1|]; [|done]. cbn [mbind option_bind].
    pose proof (lookup_lt_Some _ _ _ Ha) as Hn.
    rewrite (IH (<[n:=a1]> l) a1).
    + destruct (foldlM _ a1 bs); [|done]. cbn.
      by rewrite list_insert_insert_eq.
    + intros l' a' b' Hlen. apply Hbody.
      by rewrite Hlen, length_insert.
    + by apply list_lookup_insert_eq.
Qed.

(** Writing every entry of a matrix, row after row. *)
Lemma fill_matrix (g : nat → nat → float) (ncols : nat)
    (pre rest : np.matrix) :
  rectangular ncols rest →
  foldlM (λ slot k,
      foldlM (λ slot l,
          np.at_index (Z.of_nat k)
            (np.at_index (Z.of_nat l) (λ _, Some (g k l))) slot)
        slot (seq 0 ncols))
    (pre ++ rest) (seq (length pre) (length rest))
  = Some (pre ++ ((λ k, g k <$> seq 0 ncols)
                    <$> seq (length pre) (length rest))).
Proof.
  intros Hrect. revert pre.
  induction Hrect as [|row rest Hrow Hrect IH]; intros pre; [done|].
  cbn [length seq foldlM fmap list_fmap].
  rewrite (foldlM_at_index (Z.of_nat (length pre))
             (λ l, np.at_index (Z.of_nat l) (λ _, Some (g (length pre) l)))
             (seq 0 ncols) (pre ++ row :: rest) (length pre) row).
  - pose proof (fill_row (g (length pre)) [] row) as Hfill.
    cbn [app length] in Hfill. rewrite Hrow in Hfill. rewrite Hfill.
    cbn [mbind option_bind].
    rewrite insert_app_r_alt by done.
    replace (length pre - length pre) with 0 by lia. cbn [insert list_insert].
    pose proof (IH (pre ++ [g (length pre) <$> seq 0 ncols])) as Hnext.
    rewrite length_app in Hnext. cbn [length] in Hnext.
    replace (length pre + 1) with (S (length pre)) in Hnext by lia.
    rewrite <- !(assoc_L (++)) in Hnext. by cbn [app] in Hnext.
  - apply index_of_nat. rewrite length_app. cbn. lia.
  - by apply list_lookup_middle.
Qed.

Section sweep_facts.
Context `{BioModel}.

Lemma nan_slot_rectangular : rectangular (length conditions) nan_slot.
Proof. apply Forall_replicate, length_replicate. Qed.

Lemma nan_slot_length : length nan_slot = length obs.
Proof. apply length_replicate. Qed.

(** The loops that store the metrics of a run overwrite one slot of one
    parameter set. *)
Lemma store_metrics_eq (metric : string) (sim : sim_state) (i : nat)
    (j : Z) (jn : nat) (sm : np.tensor4) (blk : np.tensor3)
    (slot : np.matrix) :
  sm !! i = Some blk →
  np.index (length blk) j = Some jn → blk !! jn = Some slot →
  length slot = length obs → rectangular (length conditions) slot →
  store_metrics metric sim (Z.of_nat i) j sm
  = Some (<[i := <[jn := metrics_of metric sim]> blk]> sm).
Proof.
  intros Hi Hj Hjn Hlen Hrect.
  set (g := λ k l, get_signaling_metric metric (simulations sim k l)).
  transitivity
    (foldlM (λ sm k,
       foldlM (λ sm l,
         np.setitem4 sm (Z.of_nat i) j (Z.of_nat k) (Z.of_nat l) (g k l))
         sm (seq 0 (length conditions)))
       sm (seq 0 (length obs))).
  { unfold store_metrics, enumerate.
    rewrite <- (foldlM_enumerate_from _ sm 0 obs).
    apply foldlM_ext. intros sm' [k ?].
    by rewrite <- (foldlM_enumerate_from _ sm' 0 conditions). }
  unfold np.setitem4.
  rewrite (foldlM_inside _
    (λ k blk, foldlM (λ blk l,
       np.at_index j (np.at_index (Z.of_nat k)
         (np.at_index (Z.of_nat l) (λ _, Some (g k l)))) blk)
       blk (seq 0 (length conditions))) i _ sm blk); [| |done].
  2:{ intros sm' blk' k Hlen' Hblk'.
      apply (foldlM_at_index (Z.of_nat i)
        (λ l, np.at_index j (np.at_index (Z.of_nat k)
           (np.at_index (Z.of_nat l) (λ _, Some (g k l))))));
        [|done].
      apply index_of_nat. by apply lookup_lt_Some in Hblk'. }
  rewrite (foldlM_inside _
    (λ k slot, foldlM (λ slot l,
       np.at_index (Z.of_nat k)
         (np.at_index (Z.of_nat l) (λ _, Some (g k l))) slot)
       slot (seq 0 (length conditions))) jn _ blk slot); [| |done].
  2:{ intros blk' slot' k Hlen' Hslot'.
      apply (foldlM_at_index j
        (λ l, np.at_index (Z.of_nat k)
           (np.at_index (Z.of_nat l) (λ _, Some (g k l)))));
        [|done].
      by rewrite Hlen'. }
  pose proof (fill_matrix g (length conditions) [] slot Hrect) as Hfill.
  cbn [app length] in Hfill. rewrite Hlen in Hfill. rewrite Hfill.
  done.
Qed.

Lemma run_calls_app (x : params) (cs ds : list (option perturbation_map))
    (sim : sim_state) :
  run_calls x (cs ++ ds) sim
  = run_calls x cs sim ++ run_calls x ds (sim_after x cs sim).
Proof.
  revert sim. induction cs as [|c cs IH]; intros sim; [done|].
  cbn. by rewrite IH.
Qed.

Lemma run_calls_length (x : params) (cs : list (option perturbation_map))
    (sim : sim_state) :
  length (run_calls x cs sim) = length cs.
Proof.
  revert sim. induction cs as [|c cs IH]; intros sim; [done|].
  cbn. by rewrite IH.
Qed.

Lemma perturbed_calls_length (reaction_indices rest : list Z) :
  length (perturbed_calls reaction_indices rest) = length rest.
Proof. apply length_fmap. Qed.

(** One run of the simulator followed by the conditional store leaves
    [slot_of] of the run in a slot that held NaN. *)
Lemma store_run (metric : string) (run : bool * sim_state) (i : nat)
    (j : Z) (jn : nat) (sm : np.tensor4) (blk : np.tensor3) :
  sm !! i = Some blk →
  np.index (length blk) j = Some jn → blk !! jn = Some nan_slot →
  (if run.1 then store_metrics metric run.2 (Z.of_nat i) j sm else Some sm)
  = Some (<[i := <[jn := slot_of metric run]> blk]> sm).
Proof.
  intros Hi Hj Hjn. unfold slot_of. destruct run as [[] sim']; cbn [fst snd].
  - apply (store_metrics_eq _ _ _ _ _ _ _ nan_slot);
      auto using nan_slot_length, nan_slot_rectangular.
  - rewrite (list_insert_id blk) by done. by rewrite list_insert_id.
Qed.

Lemma sim_after_cons (x : params) (c : option perturbation_map)
    (cs : list (option perturbation_map)) (sim : sim_state) :
  sim_after x (c :: cs) sim = sim_after x cs (simulate x c sim).2.
Proof. done. Qed.

Lemma run_calls_cons (x : params) (c : option perturbation_map)
    (cs : list (option perturbation_map)) (sim : sim_state) :
  run_calls x (c :: cs) sim
  = simulate x c sim :: run_calls x cs (simulate x c sim).2.
Proof. done. Qed.

Lemma perturbed_calls_cons (reaction_indices rest : list Z) (rxn_idx : Z) :
  perturbed_calls reaction_indices (rxn_idx :: rest)
  = Some (perturbation reaction_indices rxn_idx)
      :: perturbed_calls reaction_indices rest.
Proof. done. Qed.

Lemma perturbed_run_eq (metric : string) (reaction_indices : list Z)
    (x : params) (i j : nat) (rxn_idx : Z) (sim : sim_state)
    (sm : np.tensor4) :
  perturbed_run metric reaction_indices x i (sim, sm) (j, rxn_idx)
  = sm' ← (let run := simulate x
                        (Some (perturbation reaction_indices rxn_idx)) sim
           in if run.1
              then store_metrics metric run.2 (Z.of_nat i) (Z.of_nat j) sm
              else Some sm);
    Some ((simulate x (Some (perturbation reaction_indices rxn_idx))
             sim).2, sm').
Proof. unfold perturbed_run. by destruct (simulate _ _ _). Qed.

(** The loop over the reactions, entered with the slots [pre] of the
    parameter set already written. *)
Lemma perturbed_loop (metric : string) (reaction_indices : list Z)
    (x : params) (i : nat) (rest : list Z) (pre tail : np.tensor3)
    (sim : sim_state) (sm : np.tensor4) :
  sm !! i = Some (pre ++ replicate (length rest) nan_slot ++ tail) →
  foldlM (perturbed_run metric reaction_indices x i) (sim, sm)
         (enumerate_from (length pre) rest)
  = Some (sim_after x (perturbed_calls reaction_indices rest) sim,
          <[i := pre
                 ++ (slot_of metric
                       <$> run_calls x
                             (perturbed_calls reaction_indices rest) sim)
                 ++ tail]> sm).
Proof.
  revert pre sim sm. induction rest as [|rxn_idx rest IH];
    intros pre sim sm Hi.
  - cbn in *. by rewrite list_insert_id.
  - cbn [enumerate_from foldlM].
    rewrite perturbed_calls_cons, sim_after_cons, run_calls_cons.
    rewrite perturbed_run_eq. cbv zeta.
    set (run := simulate x (Some (perturbation reaction_indices rxn_idx))
                         sim).
    cbn [length replicate app] in Hi.
    rewrite (store_run metric run i (Z.of_nat (length pre)) (length pre) sm
               (pre ++ nan_slot :: replicate (length rest) nan_slot ++ tail)).
    + cbn [mbind option_bind].
      rewrite insert_app_r_alt by done.
      replace (length pre - length pre) with 0 by lia.
      cbn [insert list_insert].
      pose proof (IH (pre ++ [slot_of metric run]) run.2
        (<[i:=pre ++ slot_of metric run
                  :: replicate (length rest) nan_slot ++ tail]> sm))
        as Hnext.
      rewrite length_app in Hnext. cbn [length] in Hnext.
      replace (length pre + 1) with (S (length pre)) in Hnext by lia.
      rewrite <- !(assoc_L (++)) in Hnext. cbn [app] in Hnext.
      rewrite Hnext.
      * rewrite list_insert_insert_eq. by rewrite fmap_cons.
      * apply list_lookup_insert_eq. by apply lookup_lt_Some in Hi.
    + done.
    + apply index_of_nat. rewrite length_app. cbn. lia.
    + by apply list_lookup_middle.
Qed.

(** One iteration of the loop over the parameter sets fills the block of
    the parameter set with the outcomes of its runs. *)
Lemma paramset_run_eq (metric : string) (reaction_indices : list Z)
    (i : nat) (nth_paramset : Z) (sim : sim_state) (sm : np.tensor4) :
  sm !! i = Some (replicate (length reaction_indices + 1) nan_slot) →
  paramset_run metric reaction_indices (sim, sm) (i, nth_paramset)
  = Some (sim_after (load_param nth_paramset)
                    (paramset_calls reaction_indices) sim,
          <[i := slot_of metric
                   <$> run_calls (load_param nth_paramset)
                         (paramset_calls reaction_indices) sim]> sm).
Proof.
  intros Hi. unfold paramset_run, enumerate. cbv zeta.
  set (x := load_param nth_paramset).
  rewrite replicate_add in Hi. cbn [replicate] in Hi.
  pose proof (perturbed_loop metric reaction_indices x i reaction_indices
                [] [nan_slot] sim sm Hi) as Hloop.
  cbn [length app] in Hloop. rewrite Hloop. clear Hloop.
  cbn [mbind option_bind app].
  set (calls := perturbed_calls reaction_indices reaction_indices).
  set (sim1 := sim_after x calls sim).
  set (outs := run_calls x calls sim).
  set (blk := (slot_of metric <$> outs) ++ [nan_slot]).
  assert (length (slot_of metric <$> outs) = length reaction_indices)
    as Hlen.
  { unfold outs, calls.
    by rewrite length_fmap, run_calls_length, perturbed_calls_length. }
  pose proof (store_run metric (simulate x None sim1) i (-1)
                (length reaction_indices) (<[i:=blk]> sm) blk) as Hstore.
  destruct (simulate x None sim1) as [succeeded sim2] eqn:Hrun.
  cbn [fst snd] in Hstore. rewrite Hstore.
  - cbn [mbind option_bind]. f_equal. f_equal.
    + unfold paramset_calls, sim_after. fold calls.
      rewrite foldl_app. cbn [foldl]. fold (sim_after x calls sim).
      fold sim1. by rewrite Hrun.
    + rewrite list_insert_insert_eq. f_equal.
      unfold paramset_calls. fold calls.
      rewrite run_calls_app, fmap_app. fold outs sim1.
      cbn [run_calls fmap list_fmap]. rewrite Hrun.
      unfold blk. rewrite insert_app_r_alt by lia.
      by replace (length reaction_indices - length (slot_of metric <$> outs))
        with 0 by lia.
  - apply list_lookup_insert_eq. by apply lookup_lt_Some in Hi.
  - unfold blk. rewrite length_app, Hlen. cbn [length].
    replace (length reaction_indices + 1) with
      (S (length reaction_indices)) by lia.
    apply index_last.
  - unfold blk. rewrite lookup_app_r by lia.
    by replace (length reaction_indices - length (slot_of metric <$> outs))
      with 0 by lia.
Qed.

(** The loop over the parameter sets, entered with the blocks [pre]
    already filled. *)
Lemma paramset_loop (metric : string) (reaction_indices rest : list Z)
    (pre : np.tensor4) (sim : sim_state) :
  foldlM (paramset_run metric reaction_indices)
    (sim, pre ++ replicate (length rest)
                   (replicate (length reaction_indices + 1) nan_slot))
    (enumerate_from (length pre) rest)
  = Some (sim_after_paramsets reaction_indices rest sim,
          pre ++ sweep_rows metric reaction_indices rest sim).
Proof.
  revert pre sim. induction rest as [|nth_paramset rest IH];
    intros pre sim; [done|].
  cbn [enumerate_from foldlM length replicate sweep_rows
       sim_after_paramsets foldl].
  rewrite paramset_run_eq by (by apply list_lookup_middle).
  cbn [mbind option_bind].
  rewrite insert_app_r_alt by done.
  replace (length pre - length pre) with 0 by lia. cbn [insert list_insert].
  set (row := slot_of metric <$> _).
  pose proof (IH (pre ++ [row])
    (sim_after (load_param nth_paramset) (paramset_calls reaction_indices)
       sim)) as Hnext.
  rewrite length_app in Hnext. cbn [length] in Hnext.
  replace (length pre + 1) with (S (length pre)) in Hnext by lia.
  rewrite <- !(assoc_L (++)) in Hnext. by cbn [app] in Hnext.
Qed.

(** The sweep always returns, and the tensor it returns is the one that
    [sweep_rows] describes. *)
Lemma signaling_metric_sweep_eq (metric : string)
    (reaction_indices : list Z) (sim : sim_state) :
  signaling_metric_sweep metric reaction_indices sim
  = Some (sim_after_paramsets reaction_indices n_file sim,
          sweep_rows metric reaction_indices n_file sim).
Proof.
  unfold signaling_metric_sweep, enumerate, np.full.
  apply (paramset_loop metric reaction_indices n_file [] sim).
Qed.

End sweep_facts.

(** ** The perturbation dictionary *)

Lemma neutral_factors_lookup (reaction_indices : list Z)
    (m : perturbation_map) (idx : Z) :
  foldl (λ perturbation idx, <[idx := 1%float]> perturbation) m
        reaction_indices !! idx
  = if decide (idx ∈ reaction_indices) then Some 1%float else m !! idx.
Proof.
  revert m. induction reaction_indices as [|r ris IH]; intros m; [done|].
  cbn [foldl]. rewrite IH.
  destruct (decide (idx ∈ ris)) as [Hin|Hin].
  - rewrite decide_True; [done | by right].
  - destruct (decide (idx = r)) as [->|Hne].
    + rewrite decide_True by left. by rewrite lookup_insert_eq.
    + rewrite decide_False by (by intros [?|?]%elem_of_cons).
      by rewrite lookup_insert_ne.
Qed.

Lemma perturbation_lookup (reaction_indices : list Z) (rxn_idx idx : Z) :
  perturbation reaction_indices rxn_idx !! idx
  = if decide (idx = rxn_idx) then Some rate
    else if decide (idx ∈ reaction_indices) then Some 1%float
    else None.
Proof.
  unfold perturbation. destruct (decide (idx = rxn_idx)) as [->|Hne].
  - by rewrite lookup_insert_eq.
  - rewrite lookup_insert_ne by done. by rewrite neutral_factors_lookup.
Qed.

(** ** The tensor of the sweep, entry by entry *)

Section sweep_lookup.
Context `{BioModel}.

Lemma run_calls_lookup (x : params) (cs : list (option perturbation_map))
    (sim : sim_state) (j : nat) (c : option perturbation_map) :
  cs !! j = Some c →
  run_calls x cs sim !! j
  = Some (simulate x c (sim_after x (take j cs) sim)).
Proof.
  revert j sim. induction cs as [|c' cs IH]; intros j sim Hj; [done|].
  destruct j as [|j]; cbn in Hj.
  - by injection Hj as ->.
  - cbn [run_calls take]. rewrite sim_after_cons. cbn. by apply IH.
Qed.

Lemma sweep_rows_lookup (metric : string)
    (reaction_indices paramsets : list Z) (sim : sim_state) (i : nat)
    (nth_paramset : Z) :
  paramsets !! i = Some nth_paramset →
  sweep_rows metric reaction_indices paramsets sim !! i
  = Some (slot_of metric
            <$> run_calls (load_param nth_paramset)
                  (paramset_calls reaction_indices)
                  (sim_after_paramsets reaction_indices (take i paramsets)
                     sim)).
Proof.
  revert i sim. induction paramsets as [|p ps IH]; intros i sim Hi; [done|].
  destruct i as [|i]; cbn in Hi.
  - by injection Hi as ->.
  - cbn [sweep_rows take]. cbn. by apply IH.
Qed.

Lemma sweep_rows_length (metric : string)
    (reaction_indices paramsets : list Z) (sim : sim_state) :
  length (sweep_rows metric reaction_indices paramsets sim)
  = length paramsets.
Proof.
  revert sim. induction paramsets as [|p ps IH]; intros sim; [done|].
  cbn. by rewrite IH.
Qed.

Lemma paramset_calls_length (reaction_indices : list Z) :
  length (paramset_calls reaction_indices) = length reaction_indices + 1.
Proof.
  unfold paramset_calls.
  by rewrite length_app, perturbed_calls_length.
Qed.

Lemma paramset_calls_lookup_perturbed (reaction_indices : list Z) (j : nat)
    (rxn_idx : Z) :
  reaction_indices !! j = Some rxn_idx →
  paramset_calls reaction_indices !! j
  = Some (Some (perturbation reaction_indices rxn_idx)).
Proof.
  intros Hj. unfold paramset_calls, perturbed_calls.
  rewrite lookup_app_l.
  - by rewrite list_lookup_fmap, Hj.
  - rewrite length_fmap. by apply lookup_lt_Some in Hj.
Qed.

Lemma paramset_calls_lookup_baseline (reaction_indices : list Z) :
  paramset_calls reaction_indices !! length reaction_indices = Some None.
Proof.
  unfold paramset_calls.
  rewrite lookup_app_r by (by rewrite perturbed_calls_length).
  rewrite perturbed_calls_length.
  by replace (length reaction_indices - length reaction_indices)
    with 0 by lia.
Qed.

(** The slot of the [j]-th call made for the [i]-th parameter set holds
    what that call left. *)
Lemma sweep_slot (metric : string) (reaction_indices : list Z)
    (sim : sim_state) (i j : nat) (nth_paramset : Z)
    (c : option perturbation_map) :
  n_file !! i = Some nth_paramset →
  paramset_calls reaction_indices !! j = Some c →
  ∃ blk,
    sweep_rows metric reaction_indices n_file sim !! i = Some blk
    ∧ length blk = length reaction_indices + 1
    ∧ blk !! j
      = Some (slot_of metric
                (simulate (load_param nth_paramset) c
                   (sim_before reaction_indices sim i j))).
Proof.
  intros Hi Hj. eexists. split; [by apply sweep_rows_lookup|].
  split.
  - by rewrite length_fmap, run_calls_length, paramset_calls_length.
  - rewrite list_lookup_fmap, (run_calls_lookup _ _ _ _ c) by done.
    unfold sim_before. by rewrite Hi.
Qed.

Lemma metrics_of_shape (metric : string) (sim : sim_state) :
  length (metrics_of metric sim) = length obs
  ∧ rectangular (length conditions) (metrics_of metric sim).
Proof.
  unfold metrics_of, rectangular. split.
  - by rewrite length_fmap, length_seq.
  - apply Forall_fmap, Forall_forall. intros k _. cbn.
    by rewrite length_fmap, length_seq.
Qed.

Lemma slot_of_shape (metric : string) (run : bool * sim_state) :
  length (slot_of metric run) = length obs
  ∧ rectangular (length conditions) (slot_of metric run).
Proof.
  unfold slot_of. destruct run.1.
  - apply metrics_of_shape.
  - split; [apply nan_slot_length | apply nan_slot_rectangular].
Qed.

(** The full shape of the tensor of the sweep. *)
Lemma sweep_rows_shape (metric : string) (reaction_indices : list Z)
    (sim : sim_state) :
  length (sweep_rows metric reaction_indices n_file sim) = length n_file
  ∧ Forall (λ blk,
      length blk = length reaction_indices + 1
      ∧ Forall (λ slot,
          length slot = length obs
          ∧ rectangular (length conditions) slot) blk)
      (sweep_rows metric reaction_indices n_file sim).
Proof.
  split; [apply sweep_rows_length|].
  generalize n_file. intros paramsets. revert sim.
  induction paramsets as [|p ps IH]; intros sim; [constructor|].
  cbn [sweep_rows]. constructor; [|apply IH]. split.
  - by rewrite length_fmap, run_calls_length, paramset_calls_length.
  - apply Forall_fmap, Forall_forall. intros run _. apply slot_of_shape.
Qed.

End sweep_lookup.

(** ** The calls a recording simulator sees *)

Section recorded.
Context (M : BioModel).

Lemma recording_sim_after (x : @params M)
    (cs : list (option perturbation_map)) (sim : @sim_state (recording M)) :
  (@sim_after (recording M) x cs sim).2
  = sim.2 ++ ((λ c, (x, c)) <$> cs).
Proof.
  revert sim. induction cs as [|c cs IH]; intros sim.
  - cbn. by rewrite app_nil_r.
  - rewrite (@sim_after_cons (recording M)), IH. cbn.
    by rewrite <- (assoc_L (++)).
Qed.

Lemma recording_sim_after_paramsets (reaction_indices paramsets : list Z)
    (sim : @sim_state (recording M)) :
  (@sim_after_paramsets (recording M) reaction_indices paramsets sim).2
  = sim.2
    ++ (nth_paramset ← paramsets;
        (λ c, (@load_param M nth_paramset, c))
          <$> paramset_calls reaction_indices).
Proof.
  revert sim. induction paramsets as [|p ps IH]; intros sim.
  - cbn. by rewrite app_nil_r.
  - unfold sim_after_paramsets in *. cbn [foldl]. rewrite IH.
    rewrite recording_sim_after. cbn [mbind list_bind].
    by rewrite <- (assoc_L (++)).
Qed.

End recorded.


Lemma length_bind_const {A B : Type} (f : A → list B) (n : nat)
    (l : list A) :
  (∀ a, length (f a) = n) → length (l ≫= f) = length l * n.
Proof.
  intros Hf. induction l as [|a l IH]; [done|].
  rewrite bind_cons, length_app, IH, Hf. cbn [length]. lia.
Qed.

Section sweep_claims.
Context `{BioModel}.

(** C3: in the block of every parameter set, the slot of the [j]-th
    reaction holds what the perturbed run of that reaction left, and the
    last slot, whose index is the length of [reaction_indices] and which
    the index -1 reads, holds what the unperturbed run left: its metrics
    when it succeeded, NaN when it failed.  The unperturbed run is the one
    made after all the perturbed runs of the parameter set, and the loop
    over the perturbed runs, entered with the block of the parameter set
    still holding NaN, leaves the last slot of that block and every other
    block as they were. *)
Theorem baseline_in_last_slot (metric : string)
    (reaction_indices : list Z) (sim : sim_state) (i : nat)
    (nth_paramset : Z) :
  n_file !! i = Some nth_paramset →
  ∃ sim' sm blk,
    signaling_metric_sweep metric reaction_indices sim = Some (sim', sm)
    ∧ sm !! i = Some blk
    ∧ length blk = length reaction_indices + 1
    ∧ (∀ j rxn_idx, reaction_indices !! j = Some rxn_idx →
         blk !! j
         = Some (slot_of metric
                   (simulate (load_param nth_paramset)
                      (Some (perturbation reaction_indices rxn_idx))
                      (sim_before reaction_indices sim i j))))
    ∧ blk !! length reaction_indices
      = Some (slot_of metric
                (simulate (load_param nth_paramset) None
                   (sim_before reaction_indices sim i
                      (length reaction_indices))))
    ∧ np.item blk (-1) = blk !! length reaction_indices
    ∧ sim_before reaction_indices sim i (length reaction_indices)
      = sim_after (load_param nth_paramset)
          (perturbed_calls reaction_indices reaction_indices)
          (sim_before reaction_indices sim i 0)
    ∧ ∀ sim0 (sm0 : np.tensor4),
        sm0 !! i = Some (replicate (length reaction_indices + 1) nan_slot) →
        ∃ sim1 sm1 blk1,
          foldlM (perturbed_run metric reaction_indices
                    (load_param nth_paramset) i)
                 (sim0, sm0) (enumerate reaction_indices)
          = Some (sim1, sm1)
          ∧ sm1 !! i = Some blk1
          ∧ blk1 !! length reaction_indices = Some nan_slot
          ∧ ∀ i', i' ≠ i → sm1 !! i' = sm0 !! i'.
Proof.
  intros Hi. rewrite signaling_metric_sweep_eq.
  destruct (sweep_slot metric reaction_indices sim i
              (length reaction_indices) nth_paramset None Hi
              (paramset_calls_lookup_baseline _))
    as (blk & Hblk & Hlen & Hlast).
  eexists _, _, blk. split; [done|].
  split; [done|]. split; [done|]. split; [|split; [done|split; [|split]]].
  - intros j rxn_idx Hj.
    destruct (sweep_slot metric reaction_indices sim i j nth_paramset
                (Some (perturbation reaction_indices rxn_idx)) Hi
                (paramset_calls_lookup_perturbed _ _ _ Hj))
      as (blk' & Hblk' & _ & Hslot).
    rewrite Hblk in Hblk'. by injection Hblk' as <-.
  - unfold np.item. rewrite Hlen.
    replace (length reaction_indices + 1)
      with (S (length reaction_indices)) by lia.
    by rewrite index_last.
  - unfold sim_before. rewrite Hi. cbn [take default].
    unfold paramset_calls.
    rewrite take_app_length' by (by rewrite perturbed_calls_length).
    done.
  - intros sim0 sm0 Hblk0.
    pose proof (lookup_lt_Some _ _ _ Hblk0) as Hlt.
    rewrite replicate_add in Hblk0. cbn [replicate] in Hblk0.
    pose proof (perturbed_loop metric reaction_indices
                  (load_param nth_paramset) i reaction_indices [] [nan_slot]
                  sim0 sm0 Hblk0) as Hloop.
    cbn [length app] in Hloop. unfold enumerate. rewrite Hloop.
    eexists _, _, _. split; [done|].
    split; [by apply list_lookup_insert_eq|]. split.
    + rewrite lookup_app_r
        by (by rewrite length_fmap, run_calls_length,
                       perturbed_calls_length).
      rewrite length_fmap, run_calls_length, perturbed_calls_length.
      by replace (length reaction_indices - length reaction_indices)
        with 0 by lia.
    + intros i' Hne. by apply list_lookup_insert_ne.
Qed.

(** C4: the sweep returns for every simulator, whichever of its runs
    fail, and a failure stops nothing.  The simulator is left as all the
    calls of all the parameter sets leave it, and it receives every call
    expected, those that follow a failed one as well.  The tensor has the
    full shape, one block per parameter set, one slot per reaction plus
    one, one row per observable and one entry per condition.  The slot of
    every run, made on the simulator as the runs before it left it, holds
    the metrics of the run when it succeeded and NaN only when it
    failed. *)
Theorem sweep_survives_failures (metric : string)
    (reaction_indices : list Z) (sim : sim_state) :
  ∃ sim' sm,
    signaling_metric_sweep metric reaction_indices sim = Some (sim', sm)
    ∧ sim' = sim_after_paramsets reaction_indices n_file sim
    ∧ length sm = length n_file
    ∧ Forall (λ blk,
        length blk = length reaction_indices + 1
        ∧ Forall (λ slot,
            length slot = length obs
            ∧ rectangular (length conditions) slot) blk) sm
    ∧ (∀ i j nth_paramset c,
        n_file !! i = Some nth_paramset →
        paramset_calls reaction_indices !! j = Some c →
        (simulate (load_param nth_paramset) c
           (sim_before reaction_indices sim i j)).1 = false →
        ∃ blk, sm !! i = Some blk
               ∧ blk !! j
                 = Some (replicate (length obs)
                           (replicate (length conditions) nan)))
    ∧ (∀ i j nth_paramset c,
        n_file !! i = Some nth_paramset →
        paramset_calls reaction_indices !! j = Some c →
        (simulate (load_param nth_paramset) c
           (sim_before reaction_indices sim i j)).1 = true →
        ∃ blk, sm !! i = Some blk
               ∧ blk !! j
                 = Some (metrics_of metric
                           (simulate (load_param nth_paramset) c
                              (sim_before reaction_indices sim i j)).2))
    ∧ ∃ sim'' calls sm',
        @signaling_metric_sweep (recording _) metric reaction_indices
          (sim, []) = Some ((sim'', calls), sm')
        ∧ calls = expected_calls _ reaction_indices
        ∧ length calls = length n_file * (length reaction_indices + 1).
Proof.
  rewrite signaling_metric_sweep_eq. eexists _, _. split; [done|].
  destruct (sweep_rows_shape metric reaction_indices sim) as [Hlen Hshape].
  split; [done|]. split; [done|]. split; [done|].
  split; [|split].
  - intros i j nth_paramset c Hi Hj Hfail.
    destruct (sweep_slot metric reaction_indices sim i j nth_paramset c
                Hi Hj) as (blk & Hblk & _ & Hslot).
    exists blk. split; [done|]. rewrite Hslot.
    unfold slot_of. by rewrite Hfail.
  - intros i j nth_paramset c Hi Hj Hran.
    destruct (sweep_slot metric reaction_indices sim i j nth_paramset c
                Hi Hj) as (blk & Hblk & _ & Hslot).
    exists blk. split; [done|]. rewrite Hslot.
    unfold slot_of. by rewrite Hran.
  - rewrite (@signaling_metric_sweep_eq (recording _)).
    destruct (@sim_after_paramsets (recording _) reaction_indices
                (@n_file (recording _)) (sim, [])) as [sim'' calls]
      eqn:Hend.
    eexists sim'', calls, _. split; [done|].
    pose proof (recording_sim_after_paramsets _ reaction_indices
                  n_file (sim, [])) as Hlog.
    cbn [n_file recording] in Hend. rewrite Hend in Hlog. cbn in Hlog.
    split; [done|]. rewrite Hlog. apply length_bind_const.
    intros nth_paramset. by rewrite length_fmap, paramset_calls_length.
Qed.

End sweep_claims.

(** ** The coefficient tensor *)

Lemma item_of_nat {A : Type} (l : list A) (n : nat) (a : A) :
  l !! n = Some a → np.item l (Z.of_nat n) = Some a.
Proof.
  intros Ha. unfold np.item.
  rewrite index_of_nat by (by apply lookup_lt_Some in Ha). done.
Qed.



Section coefficient_facts.
Context `{BioModel}.


End coefficient_facts.




Section coefficient_claims.
Context `{BioModel}.






End coefficient_claims.


(** ** The cache *)

Lemma string_app_assoc (s1 s2 s3 : string) :
  (s1 +:+ s2) +:+ s3 = s1 +:+ s2 +:+ s3.
Proof.
  induction s1 as [|c s1 IH]; [done|].
  change (String c ((s1 +:+ s2) +:+ s3) = String c (s1 +:+ s2 +:+ s3)).
  by rewrite IH.
Qed.

(** A name that ends with [/sc] does not end with [.npy]. *)
Lemma endswith_sc (s : string) : endswith (s +:+ "/sc") ".npy" = false.
Proof.
  induction s as [|c s IH]; [done|].
  change (String.eqb (String c (s +:+ "/sc")) ".npy"
          || endswith (s +:+ "/sc") ".npy" = false).
  rewrite IH, orb_false_r.
  apply String.eqb_neq. intros Heq. injection Heq as _ Heq.
  destruct s as [|c1 [|c2 [|c3 [|c4 s]]]]; lazy [String.append] in Heq;
    discriminate.
Qed.

Lemma makedirs_Some (name : string) (fs fs' : file_system) :
  os.makedirs name fs = Some fs' →
  files fs !! name = None
  ∧ fs' = {| files := files fs; dirs := {[name]} ∪ dirs fs |}.
Proof.
  unfold os.makedirs. case_bool_decide as Hfile; [done|].
  intros [= <-]. split; [|done]. by apply eq_None_not_Some.
Qed.

Lemma makedirs_None (name : string) (fs : file_system) :
  files fs !! name = None →
  os.makedirs name fs
  = Some {| files := files fs; dirs := {[name]} ∪ dirs fs |}.
Proof.
  intros Hnone. unfold os.makedirs.
  rewrite bool_decide_false; [done|]. rewrite Hnone. by intros [? ?].
Qed.

Lemma isfile_lookup (path : string) (fs : file_system) :
  os.isfile path fs = bool_decide (is_Some (files fs !! path)).
Proof. done. Qed.

Lemma load_Some (file : string) (fs : file_system) (a : np.tensor4) :
  np.load file fs = Some a ↔ files fs !! file = Some (npy_array a).
Proof.
  unfold np.load. destruct (files fs !! file) as [[a'|]|]; split; try done.
  - by intros [= ->].
  - by intros [= ->].
Qed.

Section cache_facts.
Context `{BioModel}.

Lemma save_cache_file (metric : string) (sc : np.tensor4)
    (fs : file_system) :
  np.save (cache_dir metric +:+ "/sc") sc fs
  = if bool_decide (cache_dir metric +:+ "/sc.npy" ∈ dirs fs) then None
    else Some {| files := <[cache_dir metric +:+ "/sc.npy" :=
                             npy_array sc]> (files fs);
                 dirs := dirs fs |}.
Proof.
  unfold np.save. rewrite endswith_sc.
  by rewrite string_app_assoc.
Qed.

Lemma heatmap_dir_not_cache_file (metric : string) :
  model_path +:+ "/figure/sensitivity/reaction/" +:+ metric +:+ "/heatmap"
  ≠ cache_dir metric +:+ "/sc.npy".
Proof.
  unfold cache_dir. rewrite string_app_assoc.
  intros Heq%(inj (String.append model_path)).
  lazy [String.append] in Heq. discriminate.
Qed.

(** C5: when a call of [_load_sc] has returned a tensor, a second call
    with the same model and metric returns the same tensor, float for
    float, NaN included, read back from the file the first call left or
    found; the second call does not compute, so that the two calls
    together compute at most once. *)
Theorem load_sc_twice (metric : string) (reaction_indices : list Z)
    (p p1 : process) (sc1 : np.tensor4) :
  _load_sc metric reaction_indices p = Some (sc1, p1) →
  ∃ p2,
    _load_sc metric reaction_indices p1 = Some (sc1, p2)
    ∧ calc_calls p2 = calc_calls p1
    ∧ calc_calls p2 ≤ calc_calls p + 1
    ∧ proc_sim p2 = proc_sim p1
    ∧ np.load (cache_dir metric +:+ "/sc.npy") (proc_fs p1) = Some sc1
    ∧ np.load (cache_dir metric +:+ "/sc.npy") (proc_fs p2) = Some sc1.
Proof.
  unfold _load_sc. intros Hcall.
  set (hdir := model_path +:+ "/figure/sensitivity/reaction/" +:+ metric
                 +:+ "/heatmap") in *.
  set (file := cache_dir metric +:+ "/sc.npy") in *.
  assert (hdir ≠ file) as Hne by apply heatmap_dir_not_cache_file.
  destruct (os.makedirs hdir (proc_fs p)) as [fs|] eqn:Hmk; [|done].
  apply makedirs_Some in Hmk as [Hnone ->].
  cbn [mbind option_bind] in Hcall.
  (* what the first call leaves: the file holds [sc1] *)
  assert (files (proc_fs p1) !! file = Some (npy_array sc1)
          ∧ files (proc_fs p1) !! hdir = None
          ∧ calc_calls p1 ≤ calc_calls p + 1) as (Hfile & Hhdir & Hcount).
  { rewrite isfile_lookup in Hcall. cbn [files] in Hcall.
    case_bool_decide as Hf; cbn [negb] in Hcall.
    - destruct (np.load file _) as [a|] eqn:Hload; [|done].
      apply load_Some in Hload. cbn [files] in Hload.
      cbn in Hcall. injection Hcall as <- <-. cbn. split; [done|].
      split; [done|lia].
    - destruct (os.makedirs (cache_dir metric) _) as [fs|] eqn:Hmk;
        [|done].
      apply makedirs_Some in Hmk as [_ ->].
      cbn [mbind option_bind] in Hcall.
      destruct (_calc_sensitivity_coefficients _ _ _) as [[sim sc]|];
        [|done]. cbn [mbind option_bind] in Hcall.
      rewrite save_cache_file in Hcall. fold file in Hcall.
      case_bool_decide; [done|].
      cbn in Hcall. injection Hcall as <- <-. cbn.
      split; [by rewrite lookup_insert_eq|].
      split; [by rewrite lookup_insert_ne | lia]. }
  rewrite (makedirs_None hdir (proc_fs p1) Hhdir).
  cbn [mbind option_bind]. rewrite isfile_lookup. cbn [files].
  rewrite bool_decide_true by (by rewrite Hfile).
  cbn [negb].
  assert (∀ d, np.load file {| files := files (proc_fs p1); dirs := d |}
               = Some sc1) as Hload.
  { intros d. by apply load_Some. }
  rewrite Hload. cbn [mbind option_bind].
  eexists. split; [done|]. cbn.
  split; [done|]. split; [lia|]. split; [done|].
  split; [by apply load_Some | apply Hload].
Qed.

End cache_facts.

(** ** Mean and standard deviation over the parameter sets *)

Lemma shaped3_lookup (a_i : np.matrix) (n1 n2 j l : nat) :
  length a_i = n1 → rectangular n2 a_i → j < n1 → l < n2 →
  ∃ row v, a_i !! j = Some row ∧ row !! l = Some v.
Proof.
  intros Hlen Hrect Hj Hl.
  destruct (lookup_lt_is_Some_2 a_i j) as [row Hrow]; [lia|].
  unfold rectangular in Hrect. rewrite Forall_forall in Hrect.
  pose proof (Hrect row ltac:(by eapply list_elem_of_lookup_2)) as Hlen'.
  destruct (lookup_lt_is_Some_2 row l) as [v Hv]; [lia|].
  by exists row, v.
Qed.

(** The sum along the first axis, entry by entry. *)
Lemma foldl_zip_with_entry (f : float → float → float) (a : np.tensor3)
    (acc : np.matrix) (n1 n2 j l : nat) (row0 : np.vector) (v0 : float) :
  shaped3 n1 n2 a → j < n1 → l < n2 →
  acc !! j = Some row0 → row0 !! l = Some v0 →
  ∃ row,
    foldl (zip_with (zip_with f)) acc a !! j = Some row
    ∧ row !! l = Some (foldl f v0 (column a j l)).
Proof.
  intros Hshape Hj Hl. revert acc row0 v0.
  induction Hshape as [|a_i a [Hlen Hrect] _ IH]; intros acc row0 v0 Hrow0 Hv0.
  - by exists row0.
  - cbn [foldl column fmap list_fmap].
    destruct (shaped3_lookup a_i n1 n2 j l Hlen Hrect Hj Hl)
      as (row & v & Hrow & Hv).
    rewrite Hrow. cbn [mbind option_bind]. rewrite Hv. cbn [default].
    apply (IH _ (zip_with f row0 row)).
    + rewrite lookup_zip_with, Hrow0. cbn. by rewrite Hrow.
    + rewrite lookup_zip_with, Hv0. cbn. by rewrite Hv.
Qed.

Lemma zeros2_entry (n1 n2 j l : nat) :
  j < n1 → l < n2 →
  np.zeros2 (n1, n2) !! j = Some (np.zeros n2)
  ∧ np.zeros n2 !! l = Some 0%float.
Proof.
  intros Hj Hl. unfold np.zeros2, np.zeros. cbn [fst snd].
  split; by apply lookup_replicate_2.
Qed.

Lemma sum0_entry (a : np.tensor3) (n1 n2 j l : nat) :
  shaped3 n1 n2 a → j < n1 → l < n2 →
  ∃ row,
    np.sum0 (n1, n2) a !! j = Some row
    ∧ row !! l = Some (fsum (column a j l)).
Proof.
  intros Hshape Hj Hl. unfold np.sum0, fsum.
  destruct (zeros2_entry n1 n2 j l Hj Hl) as [Hrow Hv].
  by apply (foldl_zip_with_entry _ a _ n1 n2 j l _ _ Hshape Hj Hl Hrow Hv).
Qed.

Lemma shaped3_shape (a : np.tensor3) (n1 n2 : nat) :
  shaped3 n1 n2 a → a ≠ [] → 0 < n1 →
  np.shape1 a = n1 ∧ np.shape2 a = n2.
Proof.
  intros Hshape Hne Hn1. destruct a as [|a_i a]; [done|].
  apply Forall_cons in Hshape as [[Hlen Hrect] _]. cbn.
  split; [done|]. destruct a_i as [|row a_i]; [cbn in Hlen; lia|].
  by apply Forall_cons in Hrect as [? _].
Qed.

Lemma mean0_entry (a : np.tensor3) (n1 n2 j l : nat) :
  shaped3 n1 n2 a → a ≠ [] → j < n1 → l < n2 →
  ∃ row,
    np.mean0 a !! j = Some row
    ∧ row !! l
      = Some (fsum (column a j l) / np.of_count (length a))%float.
Proof.
  intros Hshape Hne Hj Hl. unfold np.mean0, np.shape0.
  destruct (shaped3_shape a n1 n2 Hshape Hne ltac:(lia)) as [-> ->].
  destruct (sum0_entry a n1 n2 j l Hshape Hj Hl) as (row & Hrow & Hv).
  eexists. split.
  - by rewrite list_lookup_fmap, Hrow.
  - by rewrite list_lookup_fmap, Hv.
Qed.

Lemma mean0_shape (a : np.tensor3) (n1 n2 : nat) :
  shaped3 n1 n2 a → a ≠ [] → 0 < n1 →
  length (np.mean0 a) = n1 ∧ rectangular n2 (np.mean0 a).
Proof.
  intros Hshape Hne Hn1. unfold np.mean0.
  destruct (shaped3_shape a n1 n2 Hshape Hne Hn1) as [-> ->].
  assert (∀ acc : np.matrix,
    length acc = n1 → rectangular n2 acc →
    length (foldl (zip_with (zip_with PrimFloat.add)) acc a) = n1
    ∧ rectangular n2 (foldl (zip_with (zip_with PrimFloat.add)) acc a))
    as Hfold.
  { clear Hne. induction Hshape as [|a_i a [Hlen Hrect] _ IH];
      intros acc Hacc Hacc_rect; [done|].
    cbn [foldl]. apply IH.
    - rewrite length_zip_with. lia.
    - unfold rectangular in *. apply Forall_forall.
      intros row (r1 & r2 & -> & Hr1 & Hr2)%elem_of_zip_with.
      rewrite Forall_forall in Hacc_rect, Hrect.
      rewrite length_zip_with, (Hacc_rect r1), (Hrect r2) by done. lia. }
  destruct (Hfold (np.zeros2 (n1, n2))) as [Hlen Hrect].
  { unfold np.zeros2. apply length_replicate. }
  { unfold np.zeros2, np.zeros, rectangular. cbn.
    apply Forall_replicate, length_replicate. }
  unfold np.sum0. split.
  - by rewrite length_fmap.
  - unfold rectangular in *. apply Forall_fmap.
    eapply Forall_impl; [exact Hrect|]. intros row Hrow. cbn.
    by rewrite length_fmap.
Qed.

(** The squared deviations from the mean have the shape of the array, and
    their columns are the squared deviations of the columns. *)
Lemma deviations_column (a : np.tensor3) (arrmean : np.matrix)
    (n1 n2 j l : nat) (row : np.vector) (mu : float) :
  shaped3 n1 n2 a → length arrmean = n1 → rectangular n2 arrmean →
  j < n1 → l < n2 →
  arrmean !! j = Some row → row !! l = Some mu →
  let x := map (map (map (λ d, d * d)%float))
             (map (λ a_i, zip_with (zip_with PrimFloat.sub) a_i arrmean) a) in
  shaped3 n1 n2 x
  ∧ column x j l = (λ v, (v - mu) * (v - mu))%float <$> column a j l.
Proof.
  intros Hshape Hlen Hrect Hj Hl Hrow Hmu. cbv zeta.
  induction Hshape as [|a_i a [Hlen_i Hrect_i] _ [IH1 IH2]].
  - split; [constructor | done].
  - split.
    + constructor; [|exact IH1]. split.
      * rewrite length_fmap, length_zip_with. lia.
      * unfold rectangular in *. apply Forall_fmap, Forall_forall.
        intros r (r1 & r2 & -> & Hr1 & Hr2)%elem_of_zip_with. cbn.
        rewrite Forall_forall in Hrect, Hrect_i.
        rewrite length_fmap, length_zip_with, (Hrect_i r1), (Hrect r2)
          by done. lia.
    + cbn [map column fmap list_fmap] in *. f_equal; [|exact IH2].
      destruct (shaped3_lookup a_i n1 n2 j l Hlen_i Hrect_i Hj Hl)
        as (r & v & Hr & Hv).
      rewrite Hr. cbn [mbind option_bind]. rewrite Hv. cbn [default].
      change (map ?f ?l) with (f <$> l).
      rewrite list_lookup_fmap, lookup_zip_with, Hr. cbn.
      rewrite Hrow. cbn.
      by rewrite list_lookup_fmap, lookup_zip_with, Hv, Hmu.
Qed.

Lemma std0_entry (a : np.tensor3) (ddof n1 n2 j l : nat) :
  shaped3 n1 n2 a → a ≠ [] → j < n1 → l < n2 →
  let mu := (fsum (column a j l) / np.of_count (length a))%float in
  ∃ row,
    np.std0 a ddof !! j = Some row
    ∧ row !! l
      = Some (sqrt (fsum ((λ v, (v - mu) * (v - mu))%float
                            <$> column a j l)
                    / np.of_count (length a - ddof)))%float.
Proof.
  intros Hshape Hne Hj Hl mu. unfold np.std0, np.shape0.
  destruct (mean0_entry a n1 n2 j l Hshape Hne Hj Hl)
    as (mrow & Hmrow & Hmu).
  destruct (mean0_shape a n1 n2 Hshape Hne ltac:(lia)) as [Hmlen Hmrect].
  destruct (deviations_column a (np.mean0 a) n1 n2 j l mrow mu
              Hshape Hmlen Hmrect Hj Hl Hmrow Hmu) as [Hxshape Hxcol].
  destruct (shaped3_shape a n1 n2 Hshape Hne ltac:(lia)) as [-> ->].
  destruct (sum0_entry _ n1 n2 j l Hxshape Hj Hl) as (row & Hrow & Hv).
  eexists. split.
  - by rewrite list_lookup_fmap, Hrow.
  - by rewrite list_lookup_fmap, Hv, Hxcol.
Qed.

(** C8: for every reaction and condition, the average is the sum of the
    coefficients of the parameter sets divided by their number [n]; the
    standard deviation is the square root of the sum of the squared
    deviations from that average divided by [n - 1]; and with one parameter
    set the standard deviations are zeros, not NaN. *)
Theorem mean_and_sample_stdev (a : np.tensor3) (n1 n2 j l : nat) :
  shaped3 n1 n2 a → a ≠ [] → j < n1 → l < n2 →
  let n := length a in
  let mu := (fsum (column a j l) / np.of_count n)%float in
  ∃ average_row stdev_row,
    (average_and_stdev a).1 !! j = Some average_row
    ∧ average_row !! l = Some mu
    ∧ (average_and_stdev a).2 !! j = Some stdev_row
    ∧ (n ≠ 1 →
       stdev_row !! l
       = Some (sqrt (fsum ((λ v, (v - mu) * (v - mu))%float
                             <$> column a j l)
                     / np.of_count (n - 1)))%float)
    ∧ (n = 1 →
       (average_and_stdev a).2 = np.zeros2 (n1, n2)
       ∧ stdev_row !! l = Some 0%float
       ∧ is_nan 0 = false).
Proof.
  intros Hshape Hne Hj Hl n mu. unfold average_and_stdev. cbn [fst snd].
  destruct (mean0_entry a n1 n2 j l Hshape Hne Hj Hl)
    as (mrow & Hmrow & Hmu).
  destruct (shaped3_shape a n1 n2 Hshape Hne ltac:(lia)) as [-> ->].
  unfold np.shape0. fold n. case_bool_decide as Hn.
  - destruct (zeros2_entry n1 n2 j l Hj Hl) as [Hzrow Hz].
    exists mrow, (np.zeros n2). by repeat split.
  - destruct (std0_entry a 1 n1 n2 j l Hshape Hne Hj Hl)
      as (srow & Hsrow & Hs).
    exists mrow, srow. by repeat split.
Qed.

Lemma mean_and_sample_stdev_witness :
  let a := [[[1]; [0]]]%float in
  ∃ average_row stdev_row,
    (average_and_stdev a).1 !! 0 = Some average_row
    ∧ average_row !! 0 = Some (fsum (column a 0 0) / np.of_count 1)%float
    ∧ (average_and_stdev a).2 !! 0 = Some stdev_row
    ∧ (1 ≠ 1 →
       stdev_row !! 0
       = Some (sqrt (fsum ((λ v,
                 (v - fsum (column a 0 0) / np.of_count 1)
                 * (v - fsum (column a 0 0) / np.of_count 1))%float
                             <$> column a 0 0)
                     / np.of_count (1 - 1)))%float)
    ∧ (1 = 1 →
       (average_and_stdev a).2 = np.zeros2 (2, 1)
       ∧ stdev_row !! 0 = Some 0%float
       ∧ is_nan 0 = false).
Proof.
  apply (mean_and_sample_stdev [[[1]; [0]]]%float 2 1 0 0);
    [repeat constructor | done | lia | lia].
Defined.

(** One parameter set whose coefficients are 1 and 0: the averages are 1
    and 0 and the standard deviations are zeros. *)
Example average_and_stdev_one_paramset :
  average_and_stdev [[[1]; [0]]]%float = ([[1]; [0]], [[0]; [0]])%float.
Proof. vm_compute. reflexivity. Qed.

(** Without the special case, the standard deviation of one parameter set
    with [ddof=1] would be NaN. *)
Example std0_one_paramset : np.std0 [[[1]; [0]]]%float 1 = [[nan]; [nan]].
Proof. vm_compute. reflexivity. Qed.

(** Two parameter sets: the divisor of the variance is 1, not 2. *)
Example average_and_stdev_two_paramsets :
  average_and_stdev [[[1]]; [[3]]]%float = ([[2]], [[sqrt 2]])%float.
Proof. vm_compute. reflexivity. Qed.

(** ** The reaction indices of the analysis *)

Lemma foldl_app_concat {A : Type} (first : list A) (rest : list (list A)) :
  foldl app first rest = first ++ concat rest.
Proof.
  revert first. induction rest as [|r rest IH]; intros first; cbn.
  - by rewrite app_nil_r.
  - by rewrite IH, (assoc_L (++)).
Qed.

(** When the biological processes do not all have the same number of
    reactions, the sum is the concatenation of their reaction indices:
    every index of the grouping, once, in the order of the grouping. *)
Lemma sum_axis0_ragged (first : list Z) (rest : list (list Z)) :
  forallb (λ r, length r =? length first) rest = false →
  np.sum_axis0 (first :: rest) = np.sequence (concat (first :: rest)).
Proof.
  intros Hragged. unfold np.sum_axis0. rewrite Hragged.
  by rewrite foldl_app_concat.
Qed.

(** C9 fails on the code: with two biological processes of two reactions
    each, [[1, 2], [3, 4]], an ordered partition of the indices 1 to 4, the
    indices handed to the sweep are the sums [4, 6] of the processes entry
    by entry, not the four indices [1, 2, 3, 4] of the grouping. *)
Theorem reaction_indices_of_equal_processes :
  @analyze_reaction_indices
    (with_group example_model [[1; 2]; [3; 4]]%Z)
  = np.sequence [4; 6]%Z
  ∧ concat [[1; 2]; [3; 4]]%Z = [1; 2; 3; 4]%Z
  ∧ NoDup (concat [[1; 2]; [3; 4]]%Z).
Proof.
  split; [vm_compute; reflexivity|]. split; [reflexivity|].
  apply (bool_decide_unpack _). by vm_compute.
Qed.

(** With processes of different sizes the same call yields the indices of
    the grouping. *)
Example reaction_indices_of_unequal_processes :
  @analyze_reaction_indices
    (with_group example_model [[1; 2; 3]; [4; 5]]%Z)
  = np.sequence [1; 2; 3; 4; 5]%Z.
Proof. vm_compute. reflexivity. Qed.

(** ** Views of the coefficient tensor *)

Lemma item_of_nat_inv {A : Type} (l : list A) (n : nat) (a : A) :
  np.item l (Z.of_nat n) = Some a → l !! n = Some a.
Proof.
  unfold np.item, np.index. case_bool_decide as Hn.
  - cbn. by rewrite Nat2Z.id.
  - case_bool_decide; [lia | done].
Qed.

(** Reading position [k, l] of a slot after it has been written there. *)
Lemma read_after_write (a_ij : np.matrix) (k l : nat) (v v' : float) :
  (a_ijk ← np.item a_ij (Z.of_nat k); np.item a_ijk (Z.of_nat l)) = Some v →
  (a_ijk ← np.item (alter (<[l := v']>) k a_ij) (Z.of_nat k);
   np.item a_ijk (Z.of_nat l)) = Some v'.
Proof.
  intros Hread.
  destruct (np.item a_ij (Z.of_nat k)) as [a_ijk|] eqn:Hk; [|done].
  cbn in Hread.
  apply item_of_nat_inv in Hk. apply item_of_nat_inv in Hread.
  rewrite (item_of_nat _ k (<[l := v']> a_ijk)).
  - cbn. apply item_of_nat, list_lookup_insert_eq.
    by apply lookup_lt_Some in Hread.
  - by rewrite list_lookup_alter_eq, Hk.
Qed.

Lemma view_obs_cond_Some (sc : np.tensor4) (k l : Z) (view : np.matrix) :
  view_obs_cond sc k l = Some view
  ↔ Forall2 (Forall2 (λ a_ij v,
       (a_ijk ← np.item a_ij k; np.item a_ijk l) = Some v)) sc view.
Proof.
  unfold view_obs_cond. rewrite mapM_Some.
  split; intros Hall; (eapply Forall2_impl; [exact Hall|]);
    intros a_i row; by rewrite mapM_Some.
Qed.

(** The view read again after [written] has been stored in it. *)
Lemma view_store_read (sc : np.tensor4) (k l : nat) (view written : np.matrix) :
  view_obs_cond sc (Z.of_nat k) (Z.of_nat l) = Some view →
  Forall2 (λ row row', length row = length row') view written →
  view_obs_cond (view_store sc k l written) (Z.of_nat k) (Z.of_nat l)
  = Some written.
Proof.
  rewrite !view_obs_cond_Some. unfold view_store.
  intros Hview. revert written.
  induction Hview as [|a_i row sc view Hrow _ IH]; intros written Hlen.
  - inversion Hlen. constructor.
  - inversion Hlen as [|? row' ? written' Hlen_row Hlen_rest]; subst.
    cbn [zip_with]. constructor; [|by apply IH].
    clear IH Hlen Hlen_rest. revert row' Hlen_row.
    induction Hrow as [|a_ij v a_i row Hv _ IH]; intros row' Hlen_row.
    + destruct row'; [constructor | done].
    + destruct row' as [|v' row']; [done|].
      cbn [zip_with]. constructor.
      * by eapply read_after_write.
      * apply IH. cbn in Hlen_row. lia.
Qed.

(** A tensor of full shape has a view at every observable and condition,
    with one row per parameter set and one entry per reaction. *)
Lemma view_obs_cond_shaped (sc : np.tensor4) (n1 n2 n3 k l : nat) :
  Forall (λ blk,
    length blk = n1
    ∧ Forall (λ slot, length slot = n2 ∧ rectangular n3 slot) blk) sc →
  k < n2 → l < n3 →
  ∃ view,
    view_obs_cond sc (Z.of_nat k) (Z.of_nat l) = Some view
    ∧ length view = length sc
    ∧ rectangular n1 view.
Proof.
  intros Hshape Hk Hl.
  induction Hshape as [|blk sc [Hlen Hblk] _ (view & Hview & Hvlen & Hvrect)].
  - exists []. split; [done|]. split; [done | constructor].
  - assert (∃ row,
      mapM (λ a_ij, a_ijk ← np.item a_ij (Z.of_nat k);
                    np.item a_ijk (Z.of_nat l)) blk = Some row
      ∧ length row = length blk) as (row & Hrow & Hrlen).
    { clear Hlen. induction Hblk as [|slot blk [Hslen Hsrect] _
                                       (row & Hrow & Hrlen)].
      - by exists [].
      - destruct (shaped3_lookup slot n2 n3 k l Hslen Hsrect Hk Hl)
          as (r & v & Hr & Hv).
        exists (v :: row). split; [|by cbn; rewrite Hrlen].
        cbn [mapM]. rewrite (item_of_nat _ _ _ Hr). cbn.
        rewrite (item_of_nat _ _ _ Hv). cbn. by rewrite Hrow. }
    exists (row :: view). split; [|split].
    + unfold view_obs_cond in *. cbn [mapM]. rewrite Hrow. cbn.
      by rewrite Hview.
    + cbn. by rewrite Hvlen.
    + constructor; [lia | done].
Qed.

(** *** What [_remove_nan] writes *)

Lemma cleaned_row_length (normalize : bool) (row row' : np.vector) :
  cleaned_row normalize (length row) row = Some row' →
  length row = length row'.
Proof.
  unfold cleaned_row. destruct (np.nanmax _) as [m|]; [|done].
  cbn. intros [= <-]. destruct (m =? 0)%float.
  - unfold np.zeros. by rewrite length_replicate.
  - by rewrite length_map.
Qed.

(** Every row of the array passed to [_remove_nan], with or without NaN,
    is overwritten: with zeros when its largest absolute value is zero,
    with its quotient by that value under [normalize], by 1 otherwise.  No
    row is removed from that array; the rows without NaN are copied to the
    array returned. *)
Lemma remove_nan_written (a : np.matrix) (ncols : nat) (normalize : bool) :
  rectangular ncols a → 0 < ncols →
  ∃ written returned,
    _remove_nan a normalize = Some (written, returned)
    ∧ returned = survivors a written
    ∧ Forall2 (λ row row',
        length row = length row'
        ∧ ∃ m, np.nanmax (np.abs row) = Some m
               ∧ ((m =? 0)%float = true → row' = np.zeros ncols)
               ∧ ((m =? 0)%float = false →
                  row' = map (λ x, x / (if normalize then m else 1))%float
                             row))
        a written.
Proof.
  intros Hrect Hcols.
  destruct (remove_nan_returns a ncols normalize Hrect Hcols)
    as (written & Hw & Hcall).
  exists written, (survivors a written). split; [done|]. split; [done|].
  eapply Forall2_impl; [by apply rectangular_cleaned|].
  intros row row' [Hlen Hrow]. cbn in Hrow. split.
  - apply (cleaned_row_length normalize). by rewrite Hlen.
  - unfold cleaned_row in Hrow.
    destruct (np.nanmax (np.abs row)) as [m|]; [|done].
    cbn in Hrow. injection Hrow as <-. exists m. split; [done|].
    split; by intros ->.
Qed.

(** *** The tensor across the iterations of [_heatmap_sensitivity] *)

Lemma item_nat {A : Type} (l : list A) (n : nat) :
  np.item l (Z.of_nat n) = l !! n.
Proof.
  destruct (l !! n) as [a|] eqn:Hn; [by apply item_of_nat|].
  apply lookup_ge_None in Hn. unfold np.item, np.index.
  rewrite !bool_decide_false by lia. done.
Qed.

(** Writing position [k, l] of a slot leaves the other positions as they
    were. *)
Lemma read_other_after_write (a_ij : np.matrix) (k l k' l' : nat)
    (v' : float) :
  (k, l) ≠ (k', l') →
  (a_ijk ← np.item (alter (<[l := v']>) k a_ij) (Z.of_nat k');
   np.item a_ijk (Z.of_nat l'))
  = (a_ijk ← np.item a_ij (Z.of_nat k'); np.item a_ijk (Z.of_nat l')).
Proof.
  intros Hne. rewrite !item_nat.
  destruct (decide (k = k')) as [<-|Hk].
  - rewrite list_lookup_alter_eq.
    destruct (a_ij !! k) as [a_ijk|]; [|done]. cbn.
    rewrite !item_nat. apply list_lookup_insert_ne. congruence.
  - by rewrite list_lookup_alter_ne.
Qed.

(** A view read after another view has been stored. *)
Lemma view_store_frame (sc : np.tensor4) (k l k' l' : nat)
    (written : np.matrix) :
  (k, l) ≠ (k', l') →
  Forall2 (λ blk row, length blk = length row) sc written →
  view_obs_cond (view_store sc k l written) (Z.of_nat k') (Z.of_nat l')
  = view_obs_cond sc (Z.of_nat k') (Z.of_nat l').
Proof.
  intros Hne Hlen. unfold view_obs_cond, view_store.
  induction Hlen as [|blk row sc written Hrow _ IH]; [done|].
  cbn [zip_with mapM]. rewrite IH. f_equal.
  clear IH. revert row Hrow.
  induction blk as [|a_ij blk IH]; intros row Hrow; [done|].
  destruct row as [|v row]; [done|].
  cbn [zip_with mapM]. rewrite read_other_after_write by done.
  rewrite IH; [done|]. cbn in Hrow. lia.
Qed.

(** Storing a view keeps the shape of the tensor. *)
Lemma view_store_shape (sc : np.tensor4) (n1 n2 n3 k l : nat)
    (written : np.matrix) :
  Forall (λ blk,
    length blk = n1
    ∧ Forall (λ slot, length slot = n2 ∧ rectangular n3 slot) blk) sc →
  length written = length sc → rectangular n1 written →
  length (view_store sc k l written) = length sc
  ∧ Forall (λ blk,
      length blk = n1
      ∧ Forall (λ slot, length slot = n2 ∧ rectangular n3 slot) blk)
      (view_store sc k l written).
Proof.
  intros Hshape. revert written. unfold view_store.
  induction Hshape as [|blk sc [Hblk Hslots] _ IH]; intros written Hlen Hrect.
  - destruct written; [by split | done].
  - destruct written as [|row written]; [done|].
    apply Forall_cons in Hrect as [Hrow Hrect].
    cbn in Hlen. destruct (IH written ltac:(lia) Hrect) as [IHlen IHshape].
    cbn [zip_with length]. split; [by rewrite IHlen|].
    constructor; [|done]. split.
    + rewrite length_zip_with. lia.
    + clear Hblk Hrow. revert row.
      induction Hslots as [|slot blk [Hslot Hsrect] _ IHs]; intros row.
      * constructor.
      * destruct row as [|v row]; [constructor|].
        cbn [zip_with]. constructor; [|apply IHs]. split.
        -- by rewrite length_alter.
        -- unfold rectangular in *. apply Forall_alter; [done|].
           intros r _ Hr. by rewrite length_insert.
Qed.

Lemma blocks_rows_lengths (sc : np.tensor4) (n1 n2 n3 : nat)
    (written : np.matrix) :
  Forall (λ blk,
    length blk = n1
    ∧ Forall (λ slot, length slot = n2 ∧ rectangular n3 slot) blk) sc →
  length written = length sc → rectangular n1 written →
  Forall2 (λ blk row, length blk = length row) sc written.
Proof.
  intros Hshape. revert written. unfold rectangular.
  induction Hshape as [|blk sc [Hblk _] _ IH]; intros written Hlen Hrect.
  - destruct written; [constructor | done].
  - destruct written as [|row written]; [done|].
    apply Forall_cons in Hrect as [Hrow Hrect].
    constructor; [lia|]. apply IH; [cbn in Hlen; lia | done].
Qed.

Section heatmap_loop.
Context `{BioModel}.

(** The tensor [sc0] the function is called with has the full shape;
    [V k l] is its view at [k] and [l], and [W k l] what [_remove_nan]
    writes to that view. *)
Variable (sc0 : np.tensor4) (n_reactions : nat).
Variable (V W : nat → nat → np.matrix).
Hypothesis views :
  ∀ k l, k < length obs → l < length conditions →
    view_obs_cond sc0 (Z.of_nat k) (Z.of_nat l) = Some (V k l)
    ∧ length (V k l) = length sc0
    ∧ rectangular n_reactions (V k l)
    ∧ ∃ returned,
        _remove_nan (V k l) false = Some (W k l, returned)
        ∧ Forall2 (λ row row', length row = length row') (V k l) (W k l).

Local Abbreviation before := (tensor_before sc0 n_reactions V W).

Lemma heatmap_body_step (obs_name condition : string) (k l : nat)
    (sc : np.tensor4) (figs : list heatmap) :
  k < length obs → l < length conditions →
  before k l sc →
  ∃ sc' figs',
    heatmap_body obs_name k (sc, figs) (l, condition) = Some (sc', figs')
    ∧ before k (S l) sc'.
Proof.
  intros Hk Hl (Hlen & Hshape & Hviews).
  destruct (views k l Hk Hl)
    as (_ & HVlen & HVrect & returned & Hcall & Hrows).
  pose proof (Hviews k l Hk Hl) as Hview.
  rewrite decide_False in Hview by lia.
  assert (length (W k l) = length sc) as HWlen.
  { apply Forall2_length in Hrows. lia. }
  assert (rectangular n_reactions (W k l)) as HWrect.
  { unfold rectangular in *. clear -HVrect Hrows.
    induction Hrows as [|row row' ? ? Hrow _ IH]; [constructor|].
    apply Forall_cons in HVrect as [Hr HVrect].
    constructor; [lia | by apply IH]. }
  destruct (view_store_shape sc _ _ _ k l (W k l) Hshape HWlen HWrect)
    as [Hlen' Hshape'].
  assert (before k (S l) (view_store sc k l (W k l))) as Hnext.
  { split; [lia|]. split; [done|].
    intros k' l' Hk' Hl'.
    destruct (decide ((k, l) = (k', l'))) as [[= <- <-]|Hne].
    - rewrite decide_True by lia.
      by apply (view_store_read sc k l (V k l)).
    - rewrite view_store_frame; [| done |].
      + rewrite (Hviews k' l' Hk' Hl').
        do 2 f_equal. destruct (decide (k' < k ∨ k' = k ∧ l' < l));
          destruct (decide (k' < k ∨ k' = k ∧ l' < S l)); try done.
        * lia.
        * assert (k' = k ∧ l' = l) as [-> ->] by lia. done.
      + by eapply blocks_rows_lengths. }
  unfold heatmap_body. rewrite Hview. cbn [mbind option_bind].
  rewrite Hcall. cbn [mbind option_bind].
  destruct (_ && _); by eexists _, _.
Qed.

(** The loop over the conditions, for the observable [k]. *)
Lemma heatmap_conditions_loop (obs_name : string) (k l0 : nat)
    (rest : list string) (sc : np.tensor4) (figs : list heatmap) :
  k < length obs → l0 + length rest = length conditions →
  before k l0 sc →
  ∃ sc' figs',
    foldlM (heatmap_body obs_name k) (sc, figs) (enumerate_from l0 rest)
    = Some (sc', figs')
    ∧ before k (length conditions) sc'.
Proof.
  intros Hk. revert l0 sc figs.
  induction rest as [|condition rest IH]; intros l0 sc figs Hl Hbefore.
  - cbn in *. replace (length conditions) with l0 by lia.
    by eexists _, _.
  - cbn [enumerate_from foldlM]. cbn in Hl.
    destruct (heatmap_body_step obs_name condition k l0 sc figs Hk
                ltac:(lia) Hbefore) as (sc1 & figs1 & -> & Hnext).
    cbn [mbind option_bind]. apply IH; [lia | done].
Qed.

Lemma tensor_before_next (k : nat) (sc : np.tensor4) :
  before k (length conditions) sc → before (S k) 0 sc.
Proof.
  intros (Hlen & Hshape & Hviews). split; [done|]. split; [done|].
  intros k' l' Hk' Hl'. rewrite (Hviews k' l' Hk' Hl'). do 2 f_equal.
  destruct (decide (k' < k ∨ k' = k ∧ l' < length conditions));
    destruct (decide (k' < S k ∨ k' = S k ∧ l' < 0)); try done; lia.
Qed.

(** The loop over the observables. *)
Lemma heatmap_observables_loop (k0 : nat) (rest : list string)
    (sc : np.tensor4) (figs : list heatmap) :
  k0 + length rest = length obs →
  before k0 0 sc →
  ∃ sc' figs',
    foldlM (λ acc '(k, obs_name),
        foldlM (heatmap_body obs_name k) acc (enumerate conditions))
      (sc, figs) (enumerate_from k0 rest)
    = Some (sc', figs')
    ∧ before (length obs) 0 sc'.
Proof.
  revert k0 sc figs.
  induction rest as [|obs_name rest IH]; intros k0 sc figs Hk Hbefore.
  - cbn in *. replace (length obs) with k0 by lia. by eexists _, _.
  - cbn [enumerate_from foldlM]. cbn in Hk.
    destruct (heatmap_conditions_loop obs_name k0 0 conditions sc figs
                ltac:(lia) ltac:(lia) Hbefore)
      as (sc1 & figs1 & Hinner & Hnext).
    unfold enumerate. rewrite Hinner. cbn [mbind option_bind].
    apply IH; [lia|]. by apply tensor_before_next.
Qed.

End heatmap_loop.

(** After [_heatmap_sensitivity], every view [[:, :, k, l]] of the tensor
    of the caller holds what [_remove_nan] wrote to it. *)
Lemma heatmap_sensitivity_writes `{BioModel} (metric : string)
    (sc : np.tensor4) (biological_processes : list (list Z))
    (reaction_indices : list Z) (n_reactions : nat) :
  Forall (λ blk,
    length blk = n_reactions
    ∧ Forall (λ slot,
        length slot = length obs
        ∧ rectangular (length conditions) slot) blk) sc →
  0 < n_reactions →
  ∃ sc' figs,
    _heatmap_sensitivity metric sc biological_processes reaction_indices
    = Some (sc', figs)
    ∧ ∀ k l, k < length obs → l < length conditions →
        ∃ view written returned,
          view_obs_cond sc (Z.of_nat k) (Z.of_nat l) = Some view
          ∧ _remove_nan view false = Some (written, returned)
          ∧ view_obs_cond sc' (Z.of_nat k) (Z.of_nat l) = Some written.
Proof.
  intros Hshape Hcols.
  set (V := λ k l : nat,
         default [] (view_obs_cond sc (Z.of_nat k) (Z.of_nat l))).
  set (W := λ k l : nat, default [] (fst <$> _remove_nan (V k l) false)).
  assert (∀ k l, k < length obs → l < length conditions →
    view_obs_cond sc (Z.of_nat k) (Z.of_nat l) = Some (V k l)
    ∧ length (V k l) = length sc
    ∧ rectangular n_reactions (V k l)
    ∧ ∃ returned,
        _remove_nan (V k l) false = Some (W k l, returned)
        ∧ Forall2 (λ row row', length row = length row') (V k l) (W k l))
    as Hviews.
  { intros k l Hk Hl.
    destruct (view_obs_cond_shaped sc _ _ _ k l Hshape Hk Hl)
      as (view & Hview & Hvlen & Hvrect).
    assert (V k l = view) as HV by (unfold V; by rewrite Hview).
    destruct (remove_nan_written view n_reactions false Hvrect Hcols)
      as (written & returned & Hcall & _ & Hrows).
    assert (W k l = written) as HW by (unfold W; by rewrite HV, Hcall).
    rewrite HV, HW. repeat split; try done.
    exists returned. split; [done|].
    eapply Forall2_impl; [exact Hrows|]. by intros row row' [? _]. }
  destruct (heatmap_observables_loop sc n_reactions V W Hviews 0 obs sc []
              ltac:(done)) as (sc' & figs & Hloop & _ & _ & Hafter).
  { split; [done|]. split; [done|].
    intros k l Hk Hl. rewrite decide_False by lia.
    by destruct (Hviews k l Hk Hl) as [-> _]. }
  exists sc', figs. split; [exact Hloop|].
  intros k l Hk Hl.
  destruct (Hviews k l Hk Hl) as (Hview & _ & _ & returned & Hcall & _).
  exists (V k l), (W k l), returned. split; [done|]. split; [done|].
  rewrite (Hafter k l Hk Hl). by rewrite decide_True by lia.
Qed.



(** ** The properties on the example model *)

Lemma remove_nan_normalize_witness :
  let a := [[2; -4; 1]; [0; 0; 0]; [nan; 1; 1]]%float in
  (∃ written returned,
      _remove_nan a true = Some (written, returned)
      ∧ Forall2 (λ row row',
          ∃ m, np.nanmax (np.abs row) = Some m
               ∧ ((m =? 0)%float = false
                  → row' = map (λ x, x / m)%float row)
               ∧ ((m =? 0)%float = true
                  → row' = np.zeros 3
                    ∧ Forall (λ x, is_nan x = false) row'))
          (filter (λ row, nan_free row = true) a) returned)
  ∧ (∃ written returned,
      _remove_nan a false = Some (written, returned)
      ∧ Forall2 (λ row row',
          row_eq row' row
          ∧ (Exists (λ x, (x =? 0)%float = false) row → row' = row))
          (filter (λ row, nan_free row = true) a) returned)
  ∧ snd <$> _remove_nan [[2; -4; 1]; [0; 0; 0]]%float true
    = Some [[0.5; -1; 0.25]; [0; 0; 0]]%float.
Proof.
  apply (remove_nan_normalize [[2; -4; 1]; [0; 0; 0]; [nan; 1; 1]]%float 3);
    [repeat constructor | lia].
Defined.

Lemma baseline_in_last_slot_witness :
  ∃ sim' sm blk,
    @signaling_metric_sweep example_model "amplitude" [1; 2]%Z []
    = Some (sim', sm)
    ∧ sm !! 0 = Some blk
    ∧ length blk = 2 + 1
    ∧ (∀ j rxn_idx, [1; 2]%Z !! j = Some rxn_idx →
         blk !! j
         = Some (@slot_of example_model "amplitude"
                   (@simulate example_model 1%Z
                      (Some (perturbation [1; 2]%Z rxn_idx))
                      (@sim_before example_model [1; 2]%Z [] 0 j))))
    ∧ blk !! 2
      = Some (@slot_of example_model "amplitude"
                (@simulate example_model 1%Z None
                   (@sim_before example_model [1; 2]%Z [] 0 2)))
    ∧ np.item blk (-1) = blk !! 2
    ∧ @sim_before example_model [1; 2]%Z [] 0 2
      = @sim_after example_model 1%Z (perturbed_calls [1; 2]%Z [1; 2]%Z)
          (@sim_before example_model [1; 2]%Z [] 0 0)
    ∧ ∀ sim0 (sm0 : np.tensor4),
        sm0 !! 0 = Some (replicate (2 + 1) (@nan_slot example_model)) →
        ∃ sim1 sm1 blk1,
          foldlM (@perturbed_run example_model "amplitude" [1; 2]%Z 1%Z 0)
                 (sim0, sm0) (enumerate [1; 2]%Z)
          = Some (sim1, sm1)
          ∧ sm1 !! 0 = Some blk1
          ∧ blk1 !! 2 = Some (@nan_slot example_model)
          ∧ ∀ i', i' ≠ 0 → sm1 !! i' = sm0 !! i'.
Proof.
  apply (@baseline_in_last_slot example_model "amplitude" [1; 2]%Z [] 0 1%Z).
  reflexivity.
Defined.

Lemma load_sc_twice_witness :
  ∃ sc1 p1 p2,
    @_load_sc example_model "amplitude" [1; 2]%Z fresh_process
    = Some (sc1, p1)
    ∧ @_load_sc example_model "amplitude" [1; 2]%Z p1 = Some (sc1, p2)
    ∧ calc_calls p2 = calc_calls p1
    ∧ calc_calls p2 ≤ calc_calls fresh_process + 1
    ∧ proc_sim p2 = proc_sim p1
    ∧ np.load (@cache_dir example_model "amplitude" +:+ "/sc.npy")
              (proc_fs p1) = Some sc1
    ∧ np.load (@cache_dir example_model "amplitude" +:+ "/sc.npy")
              (proc_fs p2) = Some sc1.
Proof.
  destruct (@_load_sc example_model "amplitude" [1; 2]%Z fresh_process)
    as [[sc1 p1]|] eqn:Hfirst.
  - exists sc1, p1.
    destruct (@load_sc_twice example_model "amplitude" [1; 2]%Z
                fresh_process p1 sc1 Hfirst) as [p2 Hsecond].
    by exists p2.
  - vm_compute in Hfirst. discriminate.
Defined.

(** The end-to-end scenario on the example model: the coefficients of the
    first parameter set are 1 and 0, those of the second, whose simulations
    fail, are NaN; the first run computes them and writes the cache. *)
Example load_sc_example :
  fst <$> @_load_sc example_model "amplitude" [1; 2]%Z fresh_process
  = Some [[[[1]]; [[0]]]; [[[nan]]; [[nan]]]]%float.
Proof. vm_compute. reflexivity. Qed.

(** A first parameter set whose three simulations all fail does not stop
    the sweep: its block holds NaN, the three simulations of the second
    parameter set are made and their metrics are stored, and the simulator
    has received six calls. *)
Example sweep_after_failures :
  snd <$> @signaling_metric_sweep (with_n_file example_model [2; 1]%Z)
            "amplitude" [1; 2]%Z (@nil float : @sim_state example_model)
  = Some [[[[nan]]; [[nan]]; [[nan]]];
          [[[0x1.4333333333333p+3]]; [[10]]; [[10]]]]%float
  ∧ (λ r, length r.1.2)
      <$> @signaling_metric_sweep
            (recording (with_n_file example_model [2; 1]%Z))
            "amplitude" [1; 2]%Z
            ((@nil float : @sim_state example_model), [])
    = Some 6.
Proof. split; vm_compute; reflexivity. Qed.

(** * Further properties of the module *)

(** ** The cleaning of the bar plots *)

Lemma elem_of_enumerate_from {A : Type} (n i : nat) (x : A) (l : list A) :
  (i, x) ∈ enumerate_from n l ↔ n ≤ i ∧ l !! (i - n) = Some x.
Proof.
  revert n. induction l as [|y l IH]; intros n; cbn.
  - split; [by intros ?%elem_of_nil | by intros [_ ?]].
  - rewrite elem_of_cons, IH. split.
    + intros [[= -> ->]|[Hle Hx]].
      * split; [lia|]. by replace (n - n) with 0 by lia.
      * split; [lia|]. by replace (i - n) with (S (i - S n)) by lia.
    + intros [Hle Hx]. destruct (decide (i = n)) as [->|Hne].
      * left. replace (n - n) with 0 in Hx by lia. cbn in Hx. congruence.
      * right. split; [lia|].
        by replace (i - n) with (S (i - S n)) in Hx by lia.
Qed.

(** [np.delete] keeps the rows that a test accepts when the numbers it is
    given are those of the rows the test rejects. *)
Lemma delete_from_filter {A : Type} (P : A → bool) (n : nat) (a : list A)
    (obj : list nat) :
  (∀ i x, a !! i = Some x → (n + i ∈ obj ↔ P x = false)) →
  np.delete_from n a obj = filter (λ x, P x = true) a.
Proof.
  revert n. induction a as [|x a IH]; intros n Hobj; [done|].
  cbn [np.delete_from]. rewrite filter_cons.
  pose proof (Hobj 0 x eq_refl) as Hx. rewrite Nat.add_0_r in Hx.
  rewrite (IH (S n)).
  - destruct (P x) eqn:HP.
    + rewrite bool_decide_false by (rewrite Hx; done).
      by rewrite decide_True.
    + rewrite bool_decide_true by (by apply Hx).
      by rewrite decide_False.
  - intros i y Hy. rewrite <- (Hobj (S i) y Hy).
    by replace (S n + i) with (n + S i) by lia.
Qed.

(** The numbers recorded by the loops of the cleaning are in range and are
    those of the parameter sets with a NaN, so that [np.delete] returns the
    others. *)
Lemma drop_nan_paramsets_eq (sensitivity_array : np.tensor3) :
  drop_nan_paramsets sensitivity_array
  = Some (filter (λ a_i, forallb nan_free a_i = true) sensitivity_array).
Proof.
  unfold drop_nan_paramsets.
  set (nan_idx := _ ≫= _).
  assert (∀ i, i ∈ nan_idx
               ↔ ∃ a_i, sensitivity_array !! i = Some a_i
                        ∧ forallb nan_free a_i = false) as Hidx.
  { intros i. unfold nan_idx. rewrite list_elem_of_bind. split.
    - intros ([i' a_i] & Hin & Henum).
      apply elem_of_enumerate_from in Henum as [_ Ha_i].
      rewrite Nat.sub_0_r in Ha_i.
      apply list_elem_of_bind in Hin as (row & Hrow & Hin).
      assert (np.any (map np.isnan row) = true ∧ i = i') as [Hnan ->].
      { destruct (np.any _); [|by apply elem_of_nil in Hrow].
        by apply list_elem_of_singleton in Hrow. }
      exists a_i. split; [done|].
      apply not_true_iff_false. intros Hall.
      rewrite forallb_forall in Hall.
      apply list_elem_of_In, Hall in Hin. unfold nan_free in Hin.
      by rewrite Hnan in Hin.
    - intros (a_i & Ha_i & Hall).
      exists (i, a_i). split.
      + apply list_elem_of_bind.
        assert (∃ row, row ∈ a_i ∧ nan_free row = false) as (row & Hin & Hr).
        { clear Ha_i. induction a_i as [|r a_i IH]; [done|].
          cbn in Hall. apply andb_false_iff in Hall as [Hr|Hall].
          - exists r. split; [left | done].
          - destruct (IH Hall) as (row & ? & ?). exists row.
            split; [by right | done]. }
        exists row. split; [|done].
        unfold nan_free in Hr. apply negb_false_iff in Hr. rewrite Hr.
        by apply list_elem_of_singleton.
      + apply elem_of_enumerate_from. split; [lia|].
        by rewrite Nat.sub_0_r. }
  unfold np.delete.
  assert (forallb (λ i, bool_decide (i < length sensitivity_array)) nan_idx
          = true) as ->.
  { apply forallb_forall. intros i Hi%list_elem_of_In.
    apply Hidx in Hi as (a_i & Ha_i & _).
    apply bool_decide_eq_true. by apply lookup_lt_Some in Ha_i. }
  f_equal. apply (delete_from_filter (forallb nan_free)).
  intros i a_i Ha_i. cbn. rewrite Hidx. split.
  - intros (a_i' & Ha_i' & Hall). congruence.
  - intros Hall. by exists a_i.
Qed.

(** X1: the cleaning of [_barplot_sensitivity] never raises, also when the
    array has no reaction or no condition.  It returns, in their order and
    with their floats unchanged, the parameter sets none of whose rows
    holds a NaN: each returned parameter set is free of NaN, and each
    parameter set free of NaN is returned. *)
Theorem drop_nan_paramsets_keeps_nan_free (sensitivity_array : np.tensor3) :
  ∃ kept,
    drop_nan_paramsets sensitivity_array = Some kept
    ∧ kept = filter (λ a_i, forallb nan_free a_i = true) sensitivity_array
    ∧ kept `sublist_of` sensitivity_array
    ∧ Forall (λ a_i, Forall (λ row, nan_free row = true) a_i) kept
    ∧ ∀ a_i, a_i ∈ sensitivity_array →
        Forall (λ row, nan_free row = true) a_i → a_i ∈ kept.
Proof.
  eexists. split; [apply drop_nan_paramsets_eq|]. split; [done|].
  split; [apply sublist_filter|]. split.
  - apply Forall_forall. intros a_i [Hall _]%list_elem_of_filter.
    apply Forall_forall. intros row Hrow%list_elem_of_In.
    rewrite forallb_forall in Hall. by apply Hall.
  - intros a_i Hin Hall. apply list_elem_of_filter. split; [|done]. cbn.
    apply forallb_forall. intros row Hrow%list_elem_of_In.
    rewrite Forall_forall in Hall. by apply Hall.
Qed.

(** ** Cleaning an array that was cleaned *)

Lemma nanmax_abs_zeros (n : nat) :
  0 < n → np.nanmax (np.abs (np.zeros n)) = Some 0%float.
Proof.
  destruct n as [|n]; [lia|]. intros _. cbn. f_equal.
  induction n as [|n IH]; [done|]. cbn. exact IH.
Qed.

(** Without normalisation the row that [_remove_nan] writes is left as it
    is by another call. *)
Lemma cleaned_row_settled (row row' : np.vector) :
  0 < length row →
  cleaned_row false (length row) row = Some row' →
  cleaned_row false (length row) row' = Some row'.
Proof.
  intros Hcols. unfold cleaned_row.
  destruct (np.nanmax (np.abs row)) as [m|] eqn:Hmax; [|done].
  cbn [mbind option_bind]. intros [= <-].
  destruct (m =? 0)%float eqn:Hz.
  - rewrite nanmax_abs_zeros by done. by cbn.
  - rewrite !map_div_one, Hmax. cbn [mbind option_bind].
    by rewrite Hz.
Qed.

Lemma cleaned_row_nan_free (ncols : nat) (row row' : np.vector) :
  cleaned_row false ncols row = Some row' →
  nan_free row = true → nan_free row' = true.
Proof.
  unfold cleaned_row. destruct (np.nanmax _) as [m|]; [|done].
  cbn [mbind option_bind]. intros [= <-] Hfree. destruct (m =? 0)%float.
  - apply nan_free_Forall, zeros_nan_free.
  - by rewrite map_div_one.
Qed.

Lemma survivors_sublist (a w : np.matrix) :
  Forall2 (λ row row', nan_free row = true → nan_free row' = true) a w →
  survivors a w `sublist_of` survivors w w.
Proof.
  unfold survivors. induction 1 as [|row row' a w Hrow _ IH]; [done|].
  cbn [zip zip_with]. rewrite !filter_cons. cbn [fst].
  destruct (decide (nan_free row = true)) as [Hfree|Hnan].
  - rewrite decide_True by auto. cbn. by constructor.
  - destruct (decide (nan_free row' = true)); [|done].
    cbn. by constructor.
Qed.

(** X2: cleaning without normalisation settles at once.  When
    [_remove_nan] is called again on the array it has written, it writes
    the same array; and the rows it returns the second time include, in
    order, all those returned the first time. *)
Theorem remove_nan_settles (a : np.matrix) (ncols : nat) :
  rectangular ncols a → 0 < ncols →
  ∃ written returned returned',
    _remove_nan a false = Some (written, returned)
    ∧ _remove_nan written false = Some (written, returned')
    ∧ returned `sublist_of` returned'.
Proof.
  intros Hrect Hcols.
  destruct (remove_nan_returns a ncols false Hrect Hcols)
    as (written & Hw & Hcall).
  pose proof (rectangular_cleaned a written ncols false Hrect Hw) as Hrows.
  assert (rectangular ncols written) as Hrect'.
  { unfold rectangular. clear -Hrows.
    induction Hrows as [|row row' a w [Hlen Hrow] _ IH]; constructor; [|done].
    rewrite <- Hlen in Hrow. apply cleaned_row_length in Hrow. lia. }
  assert (mapM (cleaned_row false (np.shape1 written)) written
          = Some written) as Hw'.
  { apply mapM_Some_2.
    assert (Forall2 (λ r r', cleaned_row false ncols r = Some r')
                    written written) as Hsettled.
    { clear -Hrows Hcols.
      induction Hrows as [|row row' a w [Hlen Hrow] _ IH]; constructor;
        [|done].
      subst ncols. by apply cleaned_row_settled. }
    destruct written as [|r w]; [constructor|].
    apply Forall_cons in Hrect' as [Hr _]. cbn [np.shape1].
    by rewrite Hr. }
  exists written, (survivors a written), (survivors written written).
  split; [done|]. split.
  - by rewrite remove_nan_eq, Hw'.
  - apply survivors_sublist.
    eapply Forall2_impl; [exact Hrows|].
    intros row row' [_ Hrow]. cbn in Hrow.
    by apply (cleaned_row_nan_free ncols).
Qed.

Lemma remove_nan_settles_witness :
  ∃ written returned returned',
    _remove_nan [[1; -2]; [nan; 0]; [-0; 0]]%float false
    = Some (written, returned)
    ∧ _remove_nan written false = Some (written, returned')
    ∧ returned `sublist_of` returned'.
Proof.
  apply (remove_nan_settles [[1; -2]; [nan; 0]; [-0; 0]]%float 2);
    [repeat constructor | lia].
Defined.

(** The second cleaning can return more: the row that held a NaN next to a
    zero is a row of zeros after the first. *)
Example remove_nan_twice :
  _remove_nan [[1; -2]; [nan; 0]]%float false
  = Some ([[1; -2]; [0; 0]], [[1; -2]])%float
  ∧ _remove_nan [[1; -2]; [0; 0]]%float false
    = Some ([[1; -2]; [0; 0]], [[1; -2]; [0; 0]])%float.
Proof. split; vm_compute; reflexivity. Qed.

(** ** The heat maps that are drawn *)

(** What holds before a loop and is kept by every iteration that does not
    raise holds after the loop. *)
Lemma foldlM_invariant {A B : Type} (I : A → Prop) (f : A → B → option A)
    (a r : A) (l : list B) :
  I a → (∀ a b a', b ∈ l → I a → f a b = Some a' → I a') →
  foldlM f a l = Some r → I r.
Proof.
  revert a. induction l as [|b l IH]; intros a Ha Hstep; cbn.
  - by intros [= <-].
  - destruct (f a b) as [a'|] eqn:Hf; [|done]. cbn.
    apply IH.
    + eapply Hstep; [left | done | done].
    + intros a1 b1 a2 Hin. apply Hstep. by right.
Qed.

Lemma elem_of_enumerate {A : Type} (i : nat) (x : A) (l : list A) :
  (i, x) ∈ enumerate l → l !! i = Some x.
Proof.
  intros [_ Hx]%elem_of_enumerate_from. by rewrite Nat.sub_0_r in Hx.
Qed.

(** The rows [_remove_nan] returns hold no NaN. *)
Lemma remove_nan_returned_nan_free (a written returned : np.matrix) :
  _remove_nan a false = Some (written, returned) →
  Forall (λ row, nan_free row = true) returned.
Proof.
  rewrite remove_nan_eq.
  destruct (mapM _ a) as [w|] eqn:Hw; [|done]. cbn. intros [= <- <-].
  apply mapM_Some_1 in Hw. unfold survivors.
  induction Hw as [|row row' a' w' Hrow _ IH]; [constructor|].
  cbn [zip zip_with]. rewrite filter_cons. cbn [fst].
  destruct (decide (nan_free row = true)) as [Hfree|]; [|done].
  cbn. constructor; [|done].
  by eapply cleaned_row_nan_free.
Qed.

Section heatmap_figures.
Context `{BioModel}.

Lemma heatmap_body_drawable (obs_name condition : string) (k l : nat)
    (sc sc' : np.tensor4) (figs figs' : list heatmap) :
  obs_name ∈ obs → condition ∈ conditions →
  Forall drawable figs →
  heatmap_body obs_name k (sc, figs) (l, condition) = Some (sc', figs') →
  Forall drawable figs'.
Proof.
  intros Hobs Hcond Hfigs. unfold heatmap_body.
  destruct (view_obs_cond sc _ _) as [view|]; [|done]. cbn.
  destruct (_remove_nan view false) as [[written returned]|] eqn:Hcall;
    [|done]. cbn.
  destruct (bool_decide (1 < np.shape0 returned)) eqn:Hrows;
    destruct (np.all_zero returned) eqn:Hzero; cbn;
    intros [= <- <-]; try done.
  apply Forall_app. split; [done|]. constructor; [|constructor].
  apply bool_decide_eq_true in Hrows.
  repeat split; try done.
  by apply (remove_nan_returned_nan_free view written).
Qed.

(** X3: on a tensor of the shape the sweep gives it, with one slot for
    each reaction index and at least one reaction index, every slice
    [[:, :, k, l]] can be taken and cleaned, so that
    [_heatmap_sensitivity] raises nothing of its own, and every heat map
    it draws is for a condition and an observable of the model and shows a
    matrix with at least two parameter sets, no NaN and some coefficient
    that is not zero. *)
Theorem heatmaps_are_drawable (metric : string) (sc : np.tensor4)
    (biological_processes : list (list Z)) (reaction_indices : list Z) :
  Forall (λ blk,
    length blk = length reaction_indices
    ∧ Forall (λ slot,
        length slot = length obs
        ∧ rectangular (length conditions) slot) blk) sc →
  0 < length reaction_indices →
  ∃ sc' figs,
    _heatmap_sensitivity metric sc biological_processes reaction_indices
    = Some (sc', figs)
    ∧ Forall (λ fig,
        fig.1.1 ∈ conditions ∧ fig.1.2 ∈ obs
        ∧ 1 < length fig.2
        ∧ np.all_zero fig.2 = false
        ∧ Forall (λ row, nan_free row = true) fig.2) figs.
Proof.
  intros Hshape Hcols.
  destruct (heatmap_sensitivity_writes metric sc biological_processes
              reaction_indices (length reaction_indices) Hshape Hcols)
    as (sc' & figs & Hcall & _).
  exists sc', figs. split; [done|].
  unfold _heatmap_sensitivity in Hcall.
  refine (foldlM_invariant (λ acc, Forall drawable acc.2) _ (sc, [])
            (sc', figs) _ _ _ Hcall); [constructor|].
  intros [sc1 figs1] [k obs_name] [sc2 figs2] Hk%elem_of_enumerate Hfigs1.
  apply list_elem_of_lookup_2 in Hk.
  apply (foldlM_invariant (λ acc, Forall drawable acc.2)); [done|].
  intros [sc3 figs3] [l condition] [sc4 figs4] Hl%elem_of_enumerate Hfigs3.
  apply list_elem_of_lookup_2 in Hl.
  by apply heatmap_body_drawable.
Qed.

End heatmap_figures.

Lemma heatmaps_are_drawable_witness :
  ∃ sc' figs,
    @_heatmap_sensitivity example_model "amplitude"
      [[[[1]]; [[0]]]; [[[nan]]; [[nan]]]; [[[2]]; [[-1]]]]%float
      [[1; 2]%Z] [1; 2]%Z
    = Some (sc', figs)
    ∧ Forall (λ fig,
        fig.1.1 ∈ @conditions example_model ∧ fig.1.2 ∈ @obs example_model
        ∧ 1 < length fig.2
        ∧ np.all_zero fig.2 = false
        ∧ Forall (λ row, nan_free row = true) fig.2) figs.
Proof.
  apply (@heatmaps_are_drawable example_model "amplitude"
           [[[[1]]; [[0]]]; [[[nan]]; [[nan]]]; [[[2]]; [[-1]]]]%float
           [[1; 2]%Z] [1; 2]%Z); [|cbn; lia].
  repeat constructor.
Defined.

(** Two parameter sets with coefficients and one without: one heat map of
    the two. *)
Example heatmap_example :
  snd <$> @_heatmap_sensitivity example_model "amplitude"
    [[[[1]]; [[0]]]; [[[nan]]; [[nan]]]; [[[2]]; [[-1]]]]%float
    [[1; 2]%Z] [1; 2]%Z
  = Some [("EGF", "Phosphorylated_ERK", [[1; 0]; [2; -1]]%float)].
Proof. vm_compute. reflexivity. Qed.

(** ** The bar plots *)

(** A loop that appends at most one figure per iteration. *)
Lemma foldlM_append {A B : Type} (body : list A → B → option (list A))
    (h : B → option A) (figs : list A) (l : list B) :
  (∀ figs b, b ∈ l → body figs b = Some (figs ++ option_list (h b))) →
  foldlM body figs l = Some (figs ++ omap h l).
Proof.
  revert figs. induction l as [|b l IH]; intros figs Hbody; cbn.
  - by rewrite app_nil_r.
  - rewrite Hbody by left. cbn. rewrite IH by (intros; apply Hbody; by right).
    rewrite <- (assoc_L (++)). by destruct (h b).
Qed.

Section barplot_facts.
Context `{BioModel}.

Lemma view_obs_lookup (sc : np.tensor4) (n1 n2 n3 k : nat) :
  Forall (λ blk,
    length blk = n1
    ∧ Forall (λ slot, length slot = n2 ∧ rectangular n3 slot) blk) sc →
  k < n2 →
  ∃ view,
    view_obs sc (Z.of_nat k) = Some view
    ∧ mapM (mapM (λ a_ij : np.matrix, a_ij !! k)) sc = Some view.
Proof.
  intros Hshape Hk.
  assert (∀ blk : np.tensor3,
    mapM (λ a_ij, np.item a_ij (Z.of_nat k)) blk
    = mapM (λ a_ij : np.matrix, a_ij !! k) blk) as Hblk.
  { intros blk. apply mapM_ext. intros a_ij. apply item_nat. }
  assert (view_obs sc (Z.of_nat k)
          = mapM (mapM (λ a_ij : np.matrix, a_ij !! k)) sc) as Heq.
  { unfold view_obs. by apply mapM_ext. }
  rewrite Heq.
  destruct (mapM (mapM (λ a_ij : np.matrix, a_ij !! k)) sc) as [view|]
    eqn:Hview; [by exists view|].
  apply mapM_None in Hview. apply Exists_exists in Hview as (blk & Hin & Hno).
  rewrite Forall_forall in Hshape. destruct (Hshape blk Hin) as [_ Hslots].
  apply mapM_None in Hno. apply Exists_exists in Hno as (slot & Hin' & Hno).
  rewrite Forall_forall in Hslots. destruct (Hslots slot Hin') as [Hlen _].
  apply lookup_ge_None in Hno. lia.
Qed.

(** On a tensor of the shape the sweep gives it, and with colours enough,
    [_barplot_sensitivity] returns the bar plots of the observables that
    have one. *)
Lemma barplot_sensitivity_eq (metric : string) (sc : np.tensor4)
    (biological_processes : list (list Z)) (reaction_indices : list Z) :
  Forall (λ blk,
    length blk = length reaction_indices
    ∧ Forall (λ slot,
        length slot = length obs
        ∧ rectangular (length conditions) slot) blk) sc →
  length conditions ≤ cmap_len →
  _barplot_sensitivity metric sc biological_processes reaction_indices
  = Some (omap (λ '(k, obs_name), barplot_of sc k obs_name)
               (enumerate obs)).
Proof.
  intros Hshape Hcmap. unfold _barplot_sensitivity.
  rewrite bool_decide_false by lia.
  apply (foldlM_append _ (λ '(k, obs_name), barplot_of sc k obs_name) []).
  intros figs [k obs_name] Hk%elem_of_enumerate.
  apply lookup_lt_Some in Hk.
  destruct (view_obs_lookup sc _ _ _ k Hshape Hk) as (view & -> & Hview).
  cbn [mbind option_bind]. rewrite drop_nan_paramsets_eq.
  cbn [mbind option_bind]. unfold barplot_of. rewrite Hview.
  change (default [] (Some view)) with view.
  case_bool_decide; cbn [option_list].
  + destruct (average_and_stdev _) as [average stdev]. reflexivity.
  + by rewrite app_nil_r.
Qed.

(** X4: [_barplot_sensitivity] raises when the colour list is shorter than
    the list of conditions, whatever the tensor.  Otherwise, on a tensor
    of the shape the sweep gives it, with one slot for each reaction index,
    it returns: the observables are taken in their order, and each gets
    one bar plot, of the mean and standard deviation over the parameter
    sets whose coefficients for that observable hold no NaN, unless no
    coefficient is left, in which case it gets none. *)
Theorem barplot_per_observable (metric : string) (sc : np.tensor4)
    (biological_processes : list (list Z)) (reaction_indices : list Z) :
  Forall (λ blk,
    length blk = length reaction_indices
    ∧ Forall (λ slot,
        length slot = length obs
        ∧ rectangular (length conditions) slot) blk) sc →
  (cmap_len < length conditions →
   _barplot_sensitivity metric sc biological_processes reaction_indices
   = None)
  ∧ (length conditions ≤ cmap_len →
     _barplot_sensitivity metric sc biological_processes reaction_indices
     = Some (omap (λ '(k, obs_name), barplot_of sc k obs_name)
                  (enumerate obs))).
Proof.
  intros Hshape. split; intros Hcmap.
  - unfold _barplot_sensitivity. by rewrite bool_decide_true.
  - by apply barplot_sensitivity_eq.
Qed.

End barplot_facts.

Lemma barplot_per_observable_witness :
  let sc := [[[[1]]; [[0]]]; [[[nan]]; [[nan]]]]%float in
  (@cmap_len example_model < length (@conditions example_model) →
   @_barplot_sensitivity example_model "amplitude" sc [[1; 2]%Z] [1; 2]%Z
   = None)
  ∧ (length (@conditions example_model) ≤ @cmap_len example_model →
     @_barplot_sensitivity example_model "amplitude" sc [[1; 2]%Z] [1; 2]%Z
     = Some (omap (λ '(k, obs_name), barplot_of sc k obs_name)
                  (enumerate (@obs example_model)))).
Proof.
  apply (@barplot_per_observable example_model "amplitude"
           [[[[1]]; [[0]]]; [[[nan]]; [[nan]]]]%float [[1; 2]%Z] [1; 2]%Z).
  repeat constructor.
Defined.

(** The end of the scenario of the example model: the second parameter set
    is dropped, the means are the coefficients of the first, 1 and 0, and
    the standard deviations are zeros. *)
Example barplot_example :
  @_barplot_sensitivity example_model "amplitude"
    [[[[1]]; [[0]]]; [[[nan]]; [[nan]]]]%float [[1; 2]%Z] [1; 2]%Z
  = Some [("Phosphorylated_ERK", [[1]; [0]], [[0]; [0]])%float].
Proof. vm_compute. reflexivity. Qed.

(** ** The number of simulations *)

(** X5: the sweep calls the simulator once per reaction and once more for
    each parameter set, [len(n_file) * (len(reaction_indices) + 1)] times in
    all, whichever of the simulations fail: a failure is neither retried
    nor does it stop the sweep. *)
Theorem sweep_call_count (M : BioModel) (metric : string)
    (reaction_indices : list Z) (sim : @sim_state M) :
  ∃ sim' calls sm,
    @signaling_metric_sweep (recording M) metric reaction_indices (sim, [])
    = Some ((sim', calls), sm)
    ∧ length calls = length (@n_file M) * (length reaction_indices + 1)
    ∧ length sm = length (@n_file M).
Proof.
  rewrite (@signaling_metric_sweep_eq (recording M)).
  destruct (@sim_after_paramsets (recording M) reaction_indices
              (@n_file (recording M)) (sim, [])) as [sim' calls] eqn:Hend.
  eexists sim', calls, _. split; [done|].
  pose proof (recording_sim_after_paramsets M reaction_indices
                (@n_file M) (sim, [])) as Hlog.
  cbn [n_file recording] in Hend. rewrite Hend in Hlog. cbn in Hlog.
  split.
  - rewrite Hlog. apply length_bind_const. intros nth_paramset.
    by rewrite length_fmap, paramset_calls_length.
  - apply (@sweep_rows_length (recording M)).
Qed.

(** ** What [_load_sc] does to the files *)

Lemma string_length_app (s1 s2 : string) :
  String.length (s1 +:+ s2) = String.length s1 + String.length s2.
Proof.
  induction s1 as [|c s1 IH]; [done|].
  change (S (String.length (s1 +:+ s2))
          = S (String.length s1 + String.length s2)).
  by rewrite IH.
Qed.

Lemma string_app_inj_r (s1 s2 suffix : string) :
  s1 +:+ suffix = s2 +:+ suffix → s1 = s2.
Proof.
  revert s2. induction s1 as [|c1 s1 IH]; intros [|c2 s2] Heq.
  - done.
  - apply (f_equal String.length) in Heq.
    rewrite !string_length_app in Heq. cbn [String.length] in Heq. lia.
  - apply (f_equal String.length) in Heq.
    rewrite !string_length_app in Heq. cbn [String.length] in Heq. lia.
  - change (String c1 (s1 +:+ suffix) = String c2 (s2 +:+ suffix)) in Heq.
    injection Heq as -> Heq. f_equal. by apply IH.
Qed.

Section cache_files.
Context `{BioModel}.

(** The cache files of two metrics are two files. *)
Lemma cache_file_inj (metric metric' : string) :
  cache_dir metric +:+ "/sc.npy" = cache_dir metric' +:+ "/sc.npy" →
  metric = metric'.
Proof.
  intros Heq%string_app_inj_r. unfold cache_dir in Heq.
  apply (inj (String.append model_path)) in Heq.
  by apply (inj (String.append "/sensitivity_coefficients/reaction/"))
    in Heq.
Qed.

(** A call that finds the cache file reads it. *)
Lemma load_sc_hit (metric : string) (reaction_indices : list Z)
    (p : process) (a : np.tensor4) :
  files (proc_fs p)
    !! (model_path +:+ "/figure/sensitivity/reaction/" +:+ metric
          +:+ "/heatmap") = None →
  files (proc_fs p) !! (cache_dir metric +:+ "/sc.npy")
    = Some (npy_array a) →
  _load_sc metric reaction_indices p
  = Some (a, {| proc_sim := proc_sim p;
                proc_fs :=
                  {| files := files (proc_fs p);
                     dirs := {[model_path
                                 +:+ "/figure/sensitivity/reaction/"
                                 +:+ metric +:+ "/heatmap"]}
                             ∪ dirs (proc_fs p) |};
                calc_calls := calc_calls p |}).
Proof.
  intros Hhdir Hfile. unfold _load_sc.
  rewrite (makedirs_None _ _ Hhdir). cbn [mbind option_bind].
  rewrite isfile_lookup. cbn [files].
  rewrite bool_decide_true by (by rewrite Hfile). cbn [negb].
  assert (np.load (cache_dir metric +:+ "/sc.npy")
            {| files := files (proc_fs p);
               dirs := {[model_path +:+ "/figure/sensitivity/reaction/"
                           +:+ metric +:+ "/heatmap"]}
                       ∪ dirs (proc_fs p) |} = Some a) as ->; [|done].
  by apply load_Some.
Qed.

(** What a call that returns has found and left: the path of the heat map
    directory was not that of a file; the cache file either held the
    tensor returned, and then no file has changed and nothing was
    computed, or was not there, and then it is the one file written, with
    one computation. *)
Lemma load_sc_returns (metric : string) (reaction_indices : list Z)
    (p p1 : process) (sc : np.tensor4) :
  _load_sc metric reaction_indices p = Some (sc, p1) →
  files (proc_fs p)
    !! (model_path +:+ "/figure/sensitivity/reaction/" +:+ metric
          +:+ "/heatmap") = None
  ∧ dirs (proc_fs p) ⊆ dirs (proc_fs p1)
  ∧ ((files (proc_fs p) !! (cache_dir metric +:+ "/sc.npy")
        = Some (npy_array sc)
      ∧ files (proc_fs p1) = files (proc_fs p)
      ∧ calc_calls p1 = calc_calls p
      ∧ proc_sim p1 = proc_sim p)
     ∨ (files (proc_fs p) !! (cache_dir metric +:+ "/sc.npy") = None
        ∧ files (proc_fs p1)
          = <[cache_dir metric +:+ "/sc.npy" := npy_array sc]>
              (files (proc_fs p))
        ∧ calc_calls p1 = S (calc_calls p)
        ∧ _calc_sensitivity_coefficients metric reaction_indices
            (proc_sim p) = Some (proc_sim p1, sc))).
Proof.
  unfold _load_sc. intros Hcall.
  set (hdir := model_path +:+ "/figure/sensitivity/reaction/" +:+ metric
                 +:+ "/heatmap") in *.
  set (file := cache_dir metric +:+ "/sc.npy") in *.
  destruct (os.makedirs hdir (proc_fs p)) as [fs|] eqn:Hmk; [|done].
  apply makedirs_Some in Hmk as [Hnone ->].
  cbn [mbind option_bind] in Hcall.
  split; [done|].
  rewrite isfile_lookup in Hcall. cbn [files] in Hcall.
  case_bool_decide as Hf; cbn [negb] in Hcall.
  - destruct (np.load file _) as [a|] eqn:Hload; [|done].
    apply load_Some in Hload. cbn [files] in Hload.
    cbn in Hcall. injection Hcall as <- <-. cbn.
    split; [set_solver|]. by left.
  - destruct (os.makedirs (cache_dir metric) _) as [fs|] eqn:Hmk; [|done].
    apply makedirs_Some in Hmk as [_ ->].
    cbn [mbind option_bind] in Hcall.
    destruct (_calc_sensitivity_coefficients _ _ _) as [[sim sc']|]
      eqn:Hcalc; [|done].
    cbn [mbind option_bind] in Hcall.
    rewrite save_cache_file in Hcall. fold file in Hcall.
    case_bool_decide; [done|].
    cbn in Hcall. injection Hcall as <- <-. cbn.
    split; [set_solver|]. right.
    split; [by apply eq_None_not_Some|]. done.
Qed.

(** A call that returns leaves the cache file holding the tensor it
    returned. *)
Lemma load_sc_leaves_cache (metric : string) (reaction_indices : list Z)
    (p p1 : process) (sc1 : np.tensor4) :
  _load_sc metric reaction_indices p = Some (sc1, p1) →
  files (proc_fs p1)
    !! (model_path +:+ "/figure/sensitivity/reaction/" +:+ metric
          +:+ "/heatmap") = None
  ∧ files (proc_fs p1) !! (cache_dir metric +:+ "/sc.npy")
    = Some (npy_array sc1).
Proof.
  intros (Hhdir & _ & Hcase)%load_sc_returns.
  destruct Hcase as [(Hfile & -> & _) | (_ & -> & _)]; [done|].
  split; [|by rewrite lookup_insert_eq].
  rewrite lookup_insert_ne; [done|].
  intros Heq. by apply (heatmap_dir_not_cache_file metric).
Qed.

(** X6: the cache is never checked against the reaction indices.  Once a
    call of [_load_sc] has returned a tensor for a metric, a later call for
    that metric returns this tensor whatever reaction indices it is given,
    and runs no simulation. *)
Theorem load_sc_ignores_reaction_indices (metric : string)
    (reaction_indices reaction_indices' : list Z) (p p1 : process)
    (sc1 : np.tensor4) :
  _load_sc metric reaction_indices p = Some (sc1, p1) →
  ∃ p2,
    _load_sc metric reaction_indices' p1 = Some (sc1, p2)
    ∧ calc_calls p2 = calc_calls p1
    ∧ proc_sim p2 = proc_sim p1
    ∧ files (proc_fs p2) = files (proc_fs p1).
Proof.
  intros [Hhdir1 Hfile1]%load_sc_leaves_cache.
  eexists. split; [by apply load_sc_hit|]. done.
Qed.

(** X7: [_load_sc] removes and overwrites nothing.  When it returns, every
    file that was there is there with the content it had, every directory
    that was there is there, and the only path whose file may be new is
    the cache file of the metric. *)
Theorem load_sc_keeps_files (metric : string) (reaction_indices : list Z)
    (p p1 : process) (sc : np.tensor4) :
  _load_sc metric reaction_indices p = Some (sc, p1) →
  files (proc_fs p) ⊆ files (proc_fs p1)
  ∧ dirs (proc_fs p) ⊆ dirs (proc_fs p1)
  ∧ ∀ path, path ≠ cache_dir metric +:+ "/sc.npy" →
      files (proc_fs p1) !! path = files (proc_fs p) !! path.
Proof.
  intros (_ & Hdirs & Hcase)%load_sc_returns.
  destruct Hcase as [(_ & -> & _) | (Hnone & -> & _)].
  - done.
  - split; [by apply insert_subseteq|]. split; [done|].
    intros path Hpath. by rewrite lookup_insert_ne.
Qed.

(** X8: the caches of the metrics are independent.  For two of the
    metrics the analysis knows, "amplitude", "duration" and "integral",
    which name three directories, a call of [_load_sc] for one leaves what
    [np.load] and [os.path.isfile] see of the cache file of the other as
    it was.  (A name such as "amplitude/" would spell the path of the
    cache file of "amplitude" in another way; files are told apart here
    by the spelling of their paths, hence the hypothesis.) *)
Theorem load_sc_other_metric (metric metric' : string)
    (reaction_indices : list Z) (p p1 : process) (sc : np.tensor4) :
  metric ∈ metrics → metric' ∈ metrics → metric ≠ metric' →
  _load_sc metric reaction_indices p = Some (sc, p1) →
  np.load (cache_dir metric' +:+ "/sc.npy") (proc_fs p1)
  = np.load (cache_dir metric' +:+ "/sc.npy") (proc_fs p)
  ∧ os.isfile (cache_dir metric' +:+ "/sc.npy") (proc_fs p1)
    = os.isfile (cache_dir metric' +:+ "/sc.npy") (proc_fs p).
Proof.
  intros _ _ Hne (_ & _ & Hcase)%load_sc_returns.
  assert (files (proc_fs p1) !! (cache_dir metric' +:+ "/sc.npy")
          = files (proc_fs p) !! (cache_dir metric' +:+ "/sc.npy")) as Heq.
  { destruct Hcase as [(_ & -> & _) | (_ & -> & _)]; [done|].
    rewrite lookup_insert_ne; [done|].
    intros Hpath. by apply Hne, cache_file_inj. }
  unfold np.load, os.isfile. by rewrite Heq.
Qed.

End cache_files.

Lemma load_sc_ignores_reaction_indices_witness :
  ∃ sc1 p1 p2,
    @_load_sc example_model "amplitude" [1; 2]%Z fresh_process
    = Some (sc1, p1)
    ∧ @_load_sc example_model "amplitude" [7]%Z p1 = Some (sc1, p2)
    ∧ calc_calls p2 = calc_calls p1
    ∧ proc_sim p2 = proc_sim p1
    ∧ files (proc_fs p2) = files (proc_fs p1).
Proof.
  destruct (@_load_sc example_model "amplitude" [1; 2]%Z fresh_process)
    as [[sc1 p1]|] eqn:Hfirst.
  - exists sc1, p1.
    destruct (@load_sc_ignores_reaction_indices example_model "amplitude"
                [1; 2]%Z [7]%Z fresh_process p1 sc1 Hfirst)
      as [p2 Hsecond].
    by exists p2.
  - vm_compute in Hfirst. discriminate.
Defined.

Lemma load_sc_keeps_files_witness :
  ∃ sc p1,
    @_load_sc example_model "amplitude" [1; 2]%Z fresh_process
    = Some (sc, p1)
    ∧ files (proc_fs fresh_process) ⊆ files (proc_fs p1)
    ∧ dirs (proc_fs fresh_process) ⊆ dirs (proc_fs p1)
    ∧ ∀ path, path ≠ @cache_dir example_model "amplitude" +:+ "/sc.npy" →
        files (proc_fs p1) !! path = files (proc_fs fresh_process) !! path.
Proof.
  destruct (@_load_sc example_model "amplitude" [1; 2]%Z fresh_process)
    as [[sc p1]|] eqn:Hfirst.
  - exists sc, p1. split; [done|].
    exact (@load_sc_keeps_files example_model "amplitude" [1; 2]%Z
             fresh_process p1 sc Hfirst).
  - vm_compute in Hfirst. discriminate.
Defined.

Lemma load_sc_other_metric_witness :
  ∃ sc p1,
    @_load_sc example_model "amplitude" [1; 2]%Z fresh_process
    = Some (sc, p1)
    ∧ np.load (@cache_dir example_model "duration" +:+ "/sc.npy")
              (proc_fs p1)
      = np.load (@cache_dir example_model "duration" +:+ "/sc.npy")
                (proc_fs fresh_process)
    ∧ os.isfile (@cache_dir example_model "duration" +:+ "/sc.npy")
                (proc_fs p1)
      = os.isfile (@cache_dir example_model "duration" +:+ "/sc.npy")
                  (proc_fs fresh_process).
Proof.
  destruct (@_load_sc example_model "amplitude" [1; 2]%Z fresh_process)
    as [[sc p1]|] eqn:Hfirst.
  - exists sc, p1. split; [done|].
    apply (@load_sc_other_metric example_model "amplitude" "duration"
             [1; 2]%Z fresh_process p1 sc); [| | |done].
    + apply (bool_decide_unpack _). by vm_compute.
    + apply (bool_decide_unpack _). by vm_compute.
    + intros Heq. discriminate Heq.
  - vm_compute in Hfirst. discriminate.
Defined.

(** ** A second run of the analysis *)



Section analyze_facts.
Context `{BioModel}.





End analyze_facts.


(** The first run of the example draws one bar plot, computes once, and
    leaves two files: the cache and the figure. *)
Example analyze_example :
  (λ r, (r.1, calc_calls r.2, size (files (proc_fs r.2)),
         files (proc_fs r.2)
           !! "models/example/figure/sensitivity/reaction/amplitude/Phosphorylated_ERK.pdf",
         files (proc_fs r.2)
           !! "models/example/sensitivity_coefficients/reaction/amplitude/sc.npy"))
    <$> @analyze example_model "amplitude" "barplot" fresh_process
  = Some (barplots [("Phosphorylated_ERK", [[1]; [0]], [[0]; [0]])%float],
          1, 2, Some other_content,
          Some (npy_array [[[[1]]; [[0]]]; [[[nan]]; [[nan]]]]%float)).
Proof. vm_compute. reflexivity. Qed.

(** ** The reaction indices of groupings of one size *)

Lemma foldl_add_int64_length (n : nat) (acc : list Z) (a : list (list Z)) :
  length acc = n → Forall (λ r, length r = n) a →
  length (foldl (zip_with np.add_int64) acc a) = n.
Proof.
  intros Hacc Ha. revert acc Hacc.
  induction Ha as [|r a Hr _ IH]; intros acc Hacc; [done|].
  cbn [foldl]. apply IH. rewrite length_zip_with. lia.
Qed.

Lemma concat_length_same {A : Type} (n : nat) (a : list (list A)) :
  Forall (λ r, length r = n) a → length (concat a) = length a * n.
Proof.
  induction 1 as [|r a Hr _ IH]; [done|].
  cbn [concat length]. rewrite length_app, IH, Hr. lia.
Qed.

Lemma add_int64_zero (x : Z) :
  (- 2 ^ 63 ≤ x < 2 ^ 63)%Z → np.add_int64 0 x = x.
Proof.
  intros Hx. unfold np.add_int64.
  rewrite Z.add_0_l, Z.mod_small by lia. lia.
Qed.

Lemma zip_with_add_int64_zeros (r : list Z) :
  Forall (λ x, - 2 ^ 63 ≤ x < 2 ^ 63)%Z r →
  zip_with np.add_int64 (replicate (length r) 0%Z) r = r.
Proof.
  induction 1 as [|x r Hx _ IH]; [done|].
  cbn [length replicate zip_with]. by rewrite IH, add_int64_zero.
Qed.

(** X10: when all biological processes have the same number of reactions,
    [np.sum] adds them entry by entry, and [analyze] gets as many reaction
    indices as one process has reactions.  With a single process, of
    indices in the range of [int64], these are its indices; with two
    processes or more, which are not empty, there are fewer of them than
    there are reactions in the grouping. *)
Theorem reaction_indices_of_equal_sizes (first : list Z)
    (rest : list (list Z)) :
  Forall (λ r, length r = length first) rest →
  ∃ reaction_indices,
    np.sum_axis0 (first :: rest) = np.sequence reaction_indices
    ∧ length reaction_indices = length first
    ∧ (rest = [] → Forall (λ x, - 2 ^ 63 ≤ x < 2 ^ 63)%Z first →
       reaction_indices = first)
    ∧ (rest ≠ [] → first ≠ [] →
       length reaction_indices < length (concat (first :: rest))).
Proof.
  intros Hsame.
  assert (forallb (λ r, length r =? length first) rest = true) as Hb.
  { apply forallb_forall. intros r Hr%list_elem_of_In.
    rewrite Forall_forall in Hsame. apply Nat.eqb_eq. by apply Hsame. }
  unfold np.sum_axis0. rewrite Hb. eexists. split; [done|].
  assert (length (foldl (zip_with np.add_int64)
                    (replicate (length first) 0%Z) (first :: rest))
          = length first) as Hlen.
  { apply foldl_add_int64_length; [by rewrite length_replicate|].
    by constructor. }
  split; [done|]. split.
  - intros -> Hrange. cbn [foldl]. by apply zip_with_add_int64_zeros.
  - intros Hrest Hfirst. rewrite Hlen.
    rewrite (concat_length_same (length first)) by (by constructor).
    destruct rest as [|r rest]; [done|]. destruct first; [done|].
    cbn [length]. nia.
Qed.

Lemma reaction_indices_of_equal_sizes_witness :
  ∃ reaction_indices,
    np.sum_axis0 ([10; 20] :: [[1; 2]; [3; 4]])%Z
    = np.sequence reaction_indices
    ∧ length reaction_indices = length [10; 20]%Z
    ∧ ([[1; 2]; [3; 4]]%Z = [] →
       Forall (λ x, - 2 ^ 63 ≤ x < 2 ^ 63)%Z [10; 20]%Z →
       reaction_indices = [10; 20]%Z)
    ∧ ([[1; 2]; [3; 4]]%Z ≠ [] → [10; 20]%Z ≠ [] →
       length reaction_indices
       < length (concat ([10; 20] :: [[1; 2]; [3; 4]])%Z)).
Proof.
  apply (reaction_indices_of_equal_sizes [10; 20]%Z [[1; 2]; [3; 4]]%Z).
  repeat constructor.
Defined.

(** ** The bands behind the biological processes *)

Lemma omap_cons_eq {A B : Type} (f : A → option B) (x : A) (l : list A) :
  omap f (x :: l) = option_list (f x) ++ omap f l.
Proof. cbn. by destruct (f x). Qed.

Section vertical_span.
Variable width : float.

Lemma draw_spans_from (l pre : list (list Z)) (calls : list plt.call) :
  foldl (λ '(left_end, calls) '(i, proc),
      let calls :=
        if bool_decide (i `mod` 2 = 0)
        then calls ++ [plt.axvspan
                         (np.of_count left_end - width)
                         (np.of_count left_end - width
                          + np.of_count (length proc))]
        else calls in
      (left_end + length proc, calls))
    (length (concat pre), calls) (enumerate_from (length pre) l)
  = (length (concat (pre ++ l)),
     calls ++ omap (band_of width (pre ++ l)) (enumerate_from (length pre) l)).
Proof.
  revert pre calls. induction l as [|proc l IH]; intros pre calls.
  - cbn. by rewrite !app_nil_r.
  - cbn [enumerate_from foldl].
    rewrite (omap_cons_eq (band_of width (pre ++ proc :: l))).
    assert (band_of width (pre ++ proc :: l) (length pre, proc)
            = if bool_decide (length pre `mod` 2 = 0)
              then Some (plt.axvspan
                           (np.of_count (length (concat pre)) - width)
                           (np.of_count (length (concat pre)) - width
                            + np.of_count (length proc)))
              else None) as ->.
    { unfold band_of. cbn [fst snd]. by rewrite take_app_length. }
    assert (length (concat pre) + length proc
            = length (concat (pre ++ [proc]))) as ->.
    { rewrite concat_app, length_app. cbn. rewrite app_nil_r. lia. }
    assert (S (length pre) = length (pre ++ [proc])) as ->.
    { rewrite length_app. cbn. lia. }
    rewrite IH, <- (assoc_L (++) pre [proc] l). cbn [app].
    f_equal. case_bool_decide; cbn [option_list app]; [|done].
    by rewrite <- (assoc_L (++)).
Qed.

Lemma bands_count (processes l : list (list Z)) (n : nat) :
  length (omap (band_of width processes) (enumerate_from n l))
  = (length l + (if bool_decide (n `mod` 2 = 0) then 1 else 0)) / 2.
Proof.
  revert n. induction l as [|proc l IH]; intros n.
  - cbn. by case_bool_decide.
  - cbn [enumerate_from]. rewrite omap_cons_eq, length_app, (IH (S n)).
    unfold band_of. cbn [fst snd length].
    repeat case_bool_decide; unfold option_list;
      cbn [option_rect length]; lia.
Qed.

(** X11: [_draw_vertical_span] draws nothing for fewer than two
    biological processes.  Otherwise it draws one band for each process
    with an even number, counted from 0, and none for the others: half of
    the processes, rounded up.  The band of a process starts [width] to
    the left of the count of the reactions of the processes before it and
    is as wide as the process has reactions. *)
Theorem vertical_spans (biological_processes : list (list Z)) :
  _draw_vertical_span biological_processes width
  = (if bool_decide (1 < length biological_processes)
     then omap (band_of width biological_processes)
               (enumerate biological_processes)
     else [])
  ∧ length (_draw_vertical_span biological_processes width)
    = (if bool_decide (1 < length biological_processes)
       then (length biological_processes + 1) / 2
       else 0).
Proof.
  assert (_draw_vertical_span biological_processes width
          = if bool_decide (1 < length biological_processes)
            then omap (band_of width biological_processes)
                      (enumerate biological_processes)
            else []) as Heq.
  { unfold _draw_vertical_span. case_bool_decide; [|done].
    pose proof (draw_spans_from biological_processes [] []) as Hspans.
    cbn [concat length app] in Hspans. unfold enumerate.
    by rewrite Hspans. }
  split; [done|]. rewrite Heq. case_bool_decide; [|done].
  unfold enumerate. by rewrite bands_count.
Qed.

End vertical_span.

(** Three processes of 3, 1 and 2 reactions and bars of width 0.5: the
    first and the third get a band. *)
Example vertical_spans_example :
  _draw_vertical_span [[1; 2; 3]; [4]; [5; 6]]%Z 0.5
  = [plt.axvspan (-0.5) 2.5; plt.axvspan 3.5 5.5]%float.
Proof. vm_compute. reflexivity. Qed.

(** ** The labels of the reaction indices *)

(** A loop that appends one element per iteration, unless the element
    cannot be computed, builds the list [mapM] builds. *)
Lemma foldlM_mapM {A B : Type} (body : list A → B → option (list A))
    (h : B → option A) (acc : list A) (l : list B) :
  (∀ calls b, body calls b = c ← h b; Some (calls ++ [c])) →
  foldlM body acc l = l' ← mapM h l; Some (acc ++ l').
Proof.
  intros Hbody. revert acc. induction l as [|b l IH]; intros acc.
  - cbn. by rewrite app_nil_r.
  - cbn [foldlM mapM]. rewrite Hbody.
    destruct (h b) as [c|]; [|done]. cbn [mbind option_bind].
    rewrite IH. destruct (mapM h l) as [l'|]; [|done]. cbn.
    by rewrite <- (assoc_L (++)).
Qed.

Lemma enumerate_from_lookup {A : Type} (n i : nat) (l : list A) :
  enumerate_from n l !! i = (λ x, (n + i, x)) <$> l !! i.
Proof.
  revert n i. induction l as [|x l IH]; intros n [|i]; try done.
  - cbn. by rewrite Nat.add_0_r.
  - cbn [enumerate_from]. rewrite !lookup_cons. rewrite IH.
    by replace (S n + i) with (n + S i) by lia.
Qed.

Lemma enumerate_lookup {A : Type} (i : nat) (l : list A) :
  enumerate l !! i = (λ x, (i, x)) <$> l !! i.
Proof. unfold enumerate. by rewrite enumerate_from_lookup. Qed.

Lemma enumerate_from_length {A : Type} (n : nat) (l : list A) :
  length (enumerate_from n l) = length l.
Proof.
  revert n. induction l as [|x l IH]; intros n; [done|].
  cbn. by rewrite IH.
Qed.

(** [np.argmax] returns an index of the array. *)
Lemma argmax_from_lt (ip : np.vector) (mp : float) (max_ind i : nat) :
  max_ind < i → np.argmax_from mp max_ind i ip < i + length ip.
Proof.
  revert mp max_ind i. induction ip as [|x ip IH]; intros mp max_ind i Hlt.
  - cbn. lia.
  - cbn [np.argmax_from length].
    destruct (negb (x <=? mp)%float).
    + destruct (is_nan x); [lia|].
      pose proof (IH x i (S i) ltac:(lia)). lia.
    + pose proof (IH mp max_ind (S i) ltac:(lia)). lia.
Qed.

Lemma argmax_Some (a : np.vector) :
  a ≠ [] → ∃ k, np.argmax a = Some k ∧ k < length a.
Proof.
  destruct a as [|mp ip]; [done|]. intros _. eexists. split; [done|].
  destruct (is_nan mp); cbn [length]; [lia|].
  pose proof (argmax_from_lt ip mp 0 1 ltac:(lia)). lia.
Qed.

Lemma write_reaction_indices_eq (reaction_indices : list Z)
    (average stdev : np.matrix) (width : float) :
  _write_reaction_indices reaction_indices average stdev width
  = m ← np.max average;
    mapM (label_of average stdev width (m * distance_ratio))
         (enumerate reaction_indices).
Proof.
  unfold _write_reaction_indices.
  destruct (np.max average) as [m|]; [|done]. cbn [mbind option_bind].
  rewrite (foldlM_mapM _
             (label_of average stdev width (m * distance_ratio))).
  - by destruct (mapM _ _).
  - intros calls [i j]. unfold label_of. cbn [fst snd].
    destruct (average !! i) as [average_i|]; [|done].
    cbn [mbind option_bind].
    destruct (np.argmax (np.abs average_i)) as [i_yp|]; [|done].
    cbn [mbind option_bind].
    destruct (average_i !! i_yp) as [yp|]; [|done].
    cbn [mbind option_bind].
    destruct (stdev !! i) as [stdev_i|]; [|done].
    cbn [mbind option_bind].
    destruct (np.argmax stdev_i) as [i_yerr|]; [|done].
    cbn [mbind option_bind].
    destruct (stdev_i !! i_yerr) as [yerr|]; [|done].
    cbn [mbind option_bind]. by destruct (0 <? yp)%float.
Qed.

(** The label of a reaction whose number is that of a row: where
    [np.argmax] finds the entry of the label and its error bar, and the
    text written. *)
Lemma label_of_row (average stdev : np.matrix) (width distance : float)
    (n m i : nat) (j : Z) :
  length average = n → rectangular m average →
  length stdev = n → rectangular m stdev → 0 < m → i < n →
  ∃ average_i stdev_i i_yp yp i_yerr yerr,
    average !! i = Some average_i ∧ stdev !! i = Some stdev_i
    ∧ np.argmax (np.abs average_i) = Some i_yp
    ∧ average_i !! i_yp = Some yp
    ∧ np.argmax stdev_i = Some i_yerr
    ∧ stdev_i !! i_yerr = Some yerr
    ∧ label_of average stdev width distance (i, j)
      = Some (if (0 <? yp)%float
              then plt.text (np.of_count i + width / 2)
                     (yp + yerr + distance) (pretty j) "bottom"
              else plt.text (np.of_count i + width / 2)
                     (yp - yerr - distance) (pretty j) "top").
Proof.
  intros Ha Hra Hs Hrs Hm Hi. unfold label_of. cbn [fst snd].
  destruct (lookup_lt_is_Some_2 average i) as [average_i Hai]; [lia|].
  destruct (lookup_lt_is_Some_2 stdev i) as [stdev_i Hsi]; [lia|].
  assert (length average_i = m) as Hlen_a.
  { unfold rectangular in Hra. rewrite Forall_forall in Hra.
    apply Hra. by eapply list_elem_of_lookup_2. }
  assert (length stdev_i = m) as Hlen_s.
  { unfold rectangular in Hrs. rewrite Forall_forall in Hrs.
    apply Hrs. by eapply list_elem_of_lookup_2. }
  destruct (argmax_Some (np.abs average_i)) as (i_yp & Hyp & Hlt).
  { unfold np.abs. destruct average_i; [cbn in Hlen_a; lia | done]. }
  unfold np.abs in Hlt. rewrite length_map in Hlt.
  destruct (lookup_lt_is_Some_2 average_i i_yp) as [yp Hyp']; [lia|].
  destruct (argmax_Some stdev_i) as (i_yerr & Hyerr & Hlt').
  { destruct stdev_i; [cbn in Hlen_s; lia | done]. }
  destruct (lookup_lt_is_Some_2 stdev_i i_yerr) as [yerr Hyerr']; [lia|].
  exists average_i, stdev_i, i_yp, yp, i_yerr, yerr.
  rewrite Hai, Hsi. cbn [mbind option_bind].
  rewrite Hyp. cbn [mbind option_bind]. rewrite Hyp'.
  cbn [mbind option_bind]. rewrite Hyerr. cbn [mbind option_bind].
  rewrite Hyerr'. cbn [mbind option_bind]. done.
Qed.

Lemma max_Some (average : np.matrix) (n m : nat) :
  length average = n → rectangular m average → 0 < n → 0 < m →
  ∃ mx, np.max average = Some mx.
Proof.
  intros Hn Hrect Hn0 Hm0. unfold np.max.
  destruct average as [|row average]; [cbn in Hn; lia|].
  apply Forall_cons in Hrect as [Hrow _].
  destruct row as [|x row]; [cbn in Hrow; lia|]. cbn. by eexists.
Qed.

(** X12: [_write_reaction_indices], given means and standard deviations of
    [n] rows and [m] columns, [n] and [m] not zero, raises when there are
    more reaction indices than rows.  Otherwise it returns and writes one
    label per reaction index, in their order.  The label number [i] shows
    the index in decimal at [x = i + width/2].  With [yp] the entry of row
    [i] of the means at the position [np.argmax] gives for the absolute
    values of the row, [yerr] the entry of row [i] of the standard
    deviations at the position [np.argmax] gives for that row, and
    [distance] the largest mean times 0.05, the label is written with its
    bottom at [yp + yerr + distance] when [yp > 0], and with its top at
    [yp - yerr - distance] when not. *)
Theorem reaction_index_labels (reaction_indices : list Z)
    (average stdev : np.matrix) (width : float) (n m : nat) :
  length average = n → rectangular m average →
  length stdev = n → rectangular m stdev → 0 < n → 0 < m →
  (n < length reaction_indices →
   _write_reaction_indices reaction_indices average stdev width = None)
  ∧ (length reaction_indices ≤ n →
     ∃ calls largest,
       _write_reaction_indices reaction_indices average stdev width
       = Some calls
       ∧ length calls = length reaction_indices
       ∧ np.max average = Some largest
       ∧ ∀ i j, reaction_indices !! i = Some j →
           ∃ average_i stdev_i i_yp yp i_yerr yerr,
             average !! i = Some average_i
             ∧ stdev !! i = Some stdev_i
             ∧ np.argmax (np.abs average_i) = Some i_yp
             ∧ average_i !! i_yp = Some yp
             ∧ np.argmax stdev_i = Some i_yerr
             ∧ stdev_i !! i_yerr = Some yerr
             ∧ calls !! i
               = Some (if (0 <? yp)%float
                       then plt.text (np.of_count i + width / 2)
                              (yp + yerr + largest * distance_ratio)
                              (pretty j) "bottom"
                       else plt.text (np.of_count i + width / 2)
                              (yp - yerr - largest * distance_ratio)
                              (pretty j) "top")).
Proof.
  intros Ha Hra Hs Hrs Hn Hm. rewrite write_reaction_indices_eq.
  destruct (max_Some average n m Ha Hra Hn Hm) as [mx Hmx]. rewrite Hmx.
  cbn [mbind option_bind]. split.
  - intros Hmore. apply mapM_None, Exists_exists.
    destruct (lookup_lt_is_Some_2 reaction_indices n) as [j Hj]; [lia|].
    exists (n, j). split.
    + apply (list_elem_of_lookup_2 _ n). by rewrite enumerate_lookup, Hj.
    + unfold label_of. cbn [fst snd].
      by rewrite (lookup_ge_None_2 average n) by lia.
  - intros Hfew.
    destruct (mapM (label_of average stdev width (mx * distance_ratio))
                (enumerate reaction_indices)) as [calls|] eqn:Hcalls.
    + exists calls, mx. split; [done|].
      pose proof (length_mapM _ _ _ Hcalls) as Hlen.
      unfold enumerate in Hlen. rewrite enumerate_from_length in Hlen.
      split; [done|]. split; [done|]. intros i j Hj.
      apply mapM_Some_1 in Hcalls.
      pose proof (lookup_lt_Some _ _ _ Hj) as Hi.
      destruct (label_of_row average stdev width (mx * distance_ratio)
                  n m i j Ha Hra Hs Hrs Hm ltac:(lia))
        as (average_i & stdev_i & i_yp & yp & i_yerr & yerr
            & Hrow & Hsrow & Hiyp & Hyp & Hiyerr & Hyerr & Hlabel).
      exists average_i, stdev_i, i_yp, yp, i_yerr, yerr.
      repeat (split; [done|]).
      destruct (Forall2_lookup_l _ _ _ i (i, j) Hcalls) as (c & Hc & Hc').
      { by rewrite enumerate_lookup, Hj. }
      rewrite Hc. rewrite Hlabel in Hc'. by injection Hc' as <-.
    + exfalso. apply mapM_None, Exists_exists in Hcalls
        as ([i j] & Hin & Hnone).
      apply list_elem_of_lookup in Hin as [i' Hin].
      rewrite enumerate_lookup in Hin.
      destruct (reaction_indices !! i') as [j'|] eqn:Hj; [|done].
      cbn in Hin. injection Hin as <- <-.
      pose proof (lookup_lt_Some _ _ _ Hj) as Hi.
      destruct (label_of_row average stdev width (mx * distance_ratio)
                  n m i' j' Ha Hra Hs Hrs Hm ltac:(lia))
        as (? & ? & ? & ? & ? & ? & _ & _ & _ & _ & _ & _ & Hlabel).
      by rewrite Hlabel in Hnone.
Qed.

Lemma reaction_index_labels_witness :
  let average := [[1; -2]; [0; 0]]%float in
  let stdev := [[0.5; 0.25]; [0; 0]]%float in
  (2 < length [7; 8]%Z →
   _write_reaction_indices [7; 8]%Z average stdev 0.5 = None)
  ∧ (length [7; 8]%Z ≤ 2 →
     ∃ calls largest,
       _write_reaction_indices [7; 8]%Z average stdev 0.5 = Some calls
       ∧ length calls = length [7; 8]%Z
       ∧ np.max average = Some largest
       ∧ ∀ i j, [7; 8]%Z !! i = Some j →
           ∃ average_i stdev_i i_yp yp i_yerr yerr,
             average !! i = Some average_i
             ∧ stdev !! i = Some stdev_i
             ∧ np.argmax (np.abs average_i) = Some i_yp
             ∧ average_i !! i_yp = Some yp
             ∧ np.argmax stdev_i = Some i_yerr
             ∧ stdev_i !! i_yerr = Some yerr
             ∧ calls !! i
               = Some (if (0 <? yp)%float
                       then plt.text (np.of_count i + 0.5 / 2)
                              (yp + yerr + largest * distance_ratio)
                              (pretty j) "bottom"
                       else plt.text (np.of_count i + 0.5 / 2)
                              (yp - yerr - largest * distance_ratio)
                              (pretty j) "top")).
Proof.
  apply (reaction_index_labels [7; 8]%Z [[1; -2]; [0; 0]]%float
           [[0.5; 0.25]; [0; 0]]%float 0.5%float 2 2);
    try reflexivity; try lia; repeat constructor.
Defined.

(** The first reaction has its largest coefficient, -2, below zero, and
    the label goes under the bar; a row of zeros is labelled below as
    well. *)
Example reaction_index_labels_example :
  _write_reaction_indices [7; 8]%Z [[1; -2]; [0; 0]]%float
    [[0.5; 0.25]; [0; 0]]%float 0.5
  = Some [plt.text 0.25 (-2 - 0.5 - 1 * distance_ratio) "7" "top";
          plt.text 1.25 (0 - 0 - 1 * distance_ratio) "8" "top"]%float.
Proof. vm_compute. reflexivity. Qed.

(** ** The bars of the conditions *)

Lemma column_Some (a : np.matrix) (m l : nat) :
  rectangular m a → l < m →
  ∃ col, mapM (λ row : np.vector, row !! l) a = Some col
         ∧ length col = length a.
Proof.
  intros Hrect Hl.
  destruct (mapM (λ row : np.vector, row !! l) a) as [col|] eqn:Hcol.
  - exists col. split; [done|]. symmetry. by eapply length_mapM.
  - exfalso. apply mapM_None, Exists_exists in Hcol as (row & Hin & Hnone).
    unfold rectangular in Hrect. rewrite Forall_forall in Hrect.
    apply lookup_ge_None in Hnone. specialize (Hrect row Hin). lia.
Qed.

Section bars_facts.
Context `{BioModel}.
Variable width : float.

Lemma bars_eq (reaction_indices : list Z) (average stdev : np.matrix) :
  bars width reaction_indices average stdev
  = mapM (bar_of width reaction_indices average stdev)
         (enumerate conditions).
Proof.
  unfold bars.
  rewrite (foldlM_mapM _ (bar_of width reaction_indices average stdev)).
  - by destruct (mapM _ _).
  - intros calls [l condition]. unfold bar_of. cbn [fst snd].
    destruct (mapM _ average) as [height|]; [|done].
    cbn [mbind option_bind].
    destruct (mapM _ stdev) as [yerr|]; [|done].
    cbn [mbind option_bind]. by case_bool_decide.
Qed.

Lemma bar_of_column (reaction_indices : list Z)
    (average stdev : np.matrix) (m l : nat) (condition : string) :
  rectangular m average → rectangular m stdev → l < m → l < cmap_len →
  ∃ height yerr,
    mapM (λ row : np.vector, row !! l) average = Some height
    ∧ mapM (λ row : np.vector, row !! l) stdev = Some yerr
    ∧ length height = length average ∧ length yerr = length stdev
    ∧ bar_of width reaction_indices average stdev (l, condition)
      = Some (plt.bar
                (map (λ i, np.of_count i + np.of_count l * width)%float
                     (seq 0 (length reaction_indices)))
                height yerr l width condition).
Proof.
  intros Ha Hs Hl Hcmap.
  destruct (column_Some average m l Ha Hl) as (height & Hheight & Hlh).
  destruct (column_Some stdev m l Hs Hl) as (yerr & Hyerr & Hly).
  exists height, yerr. repeat (split; [done|]).
  unfold bar_of. cbn [fst snd]. rewrite Hheight, Hyerr.
  cbn [mbind option_bind]. by rewrite bool_decide_true.
Qed.


End bars_facts.


(** ** The figures of the bar plots *)

(** *** Shapes *)

Lemma sum0_shape (x : np.tensor3) (n1 n2 : nat) :
  shaped3 n1 n2 x →
  length (np.sum0 (n1, n2) x) = n1 ∧ rectangular n2 (np.sum0 (n1, n2) x).
Proof.
  intros Hshape. unfold np.sum0.
  assert (∀ acc : np.matrix,
    length acc = n1 → rectangular n2 acc →
    length (foldl (zip_with (zip_with PrimFloat.add)) acc x) = n1
    ∧ rectangular n2 (foldl (zip_with (zip_with PrimFloat.add)) acc x))
    as Hfold.
  { induction Hshape as [|a_i a [Hlen Hrect] _ IH];
      intros acc Hacc Hacc_rect; [done|].
    cbn [foldl]. apply IH.
    - rewrite length_zip_with. lia.
    - unfold rectangular in *. apply Forall_forall.
      intros row (r1 & r2 & -> & Hr1 & Hr2)%elem_of_zip_with.
      rewrite Forall_forall in Hacc_rect, Hrect.
      rewrite length_zip_with, (Hacc_rect r1), (Hrect r2) by done. lia. }
  apply Hfold.
  - unfold np.zeros2. apply length_replicate.
  - unfold np.zeros2, np.zeros, rectangular. cbn.
    apply Forall_replicate, length_replicate.
Qed.

Lemma map_map_shape (f : float → float) (a : np.matrix) (n1 n2 : nat) :
  length a = n1 → rectangular n2 a →
  length (map (map f) a) = n1 ∧ rectangular n2 (map (map f) a).
Proof.
  intros Hlen Hrect. split; [by rewrite length_map|].
  unfold rectangular in *. apply Forall_fmap.
  eapply Forall_impl; [exact Hrect|]. intros row Hrow. cbn.
  by rewrite length_map.
Qed.

Lemma std0_shape (a : np.tensor3) (ddof n1 n2 : nat) :
  shaped3 n1 n2 a → a ≠ [] → 0 < n1 →
  length (np.std0 a ddof) = n1 ∧ rectangular n2 (np.std0 a ddof).
Proof.
  intros Hshape Hne Hn1. unfold np.std0.
  destruct (shaped3_shape a n1 n2 Hshape Hne Hn1) as [-> ->].
  destruct (mean0_shape a n1 n2 Hshape Hne Hn1) as [Hmean Hmean_rect].
  apply map_map_shape; apply sum0_shape.
  - unfold shaped3 in *. rewrite !Forall_fmap.
    eapply Forall_impl; [exact Hshape|]. intros a_i [Hlen Hrect]. cbn.
    apply map_map_shape.
    + rewrite length_zip_with. lia.
    + unfold rectangular in *. apply Forall_forall.
      intros row (r1 & r2 & -> & Hr1 & Hr2)%elem_of_zip_with.
      rewrite Forall_forall in Hmean_rect, Hrect.
      rewrite length_zip_with, (Hrect r1), (Hmean_rect r2) by done. lia.
  - unfold shaped3 in *. rewrite !Forall_fmap.
    eapply Forall_impl; [exact Hshape|]. intros a_i [Hlen Hrect]. cbn.
    apply map_map_shape.
    + rewrite length_zip_with. lia.
    + unfold rectangular in *. apply Forall_forall.
      intros row (r1 & r2 & -> & Hr1 & Hr2)%elem_of_zip_with.
      rewrite Forall_forall in Hmean_rect, Hrect.
      rewrite length_zip_with, (Hrect r1), (Hmean_rect r2) by done. lia.
Qed.

Lemma average_and_stdev_shape (a : np.tensor3) (n1 n2 : nat) :
  shaped3 n1 n2 a → a ≠ [] → 0 < n1 →
  (length (average_and_stdev a).1 = n1
   ∧ rectangular n2 (average_and_stdev a).1)
  ∧ (length (average_and_stdev a).2 = n1
     ∧ rectangular n2 (average_and_stdev a).2).
Proof.
  intros Hshape Hne Hn1. unfold average_and_stdev. cbn [fst snd].
  split; [by apply mean0_shape|].
  case_bool_decide; [|by apply std0_shape].
  destruct (shaped3_shape a n1 n2 Hshape Hne Hn1) as [-> ->].
  unfold np.zeros2, np.zeros, rectangular. cbn [fst snd].
  split; [apply length_replicate|].
  apply Forall_replicate, length_replicate.
Qed.

Lemma size3_not_zero (a : np.tensor3) (n1 n2 : nat) :
  shaped3 n1 n2 a → np.size3 a ≠ 0 → a ≠ [] ∧ 0 < n1 ∧ 0 < n2.
Proof.
  intros Hshape. unfold np.size3, np.shape0, np.shape1, np.shape2.
  destruct a as [|a_i a]; [cbn; lia|].
  apply Forall_cons in Hshape as [[Hlen Hrect] _].
  destruct a_i as [|row a_i]; [cbn; lia|].
  apply Forall_cons in Hrect as [Hrow _]. cbn in Hlen. cbn [length].
  intros Hsize. split; [done|]. split; [lia|].
  destruct (decide (length row = 0)) as [Hz|]; [|lia].
  rewrite Hz in Hsize. lia.
Qed.

Section view_shape.
Context `{BioModel}.

(** The slice [[:, :, k, :]] of a tensor of full shape. *)
Lemma view_obs_shaped (sc : np.tensor4) (view : np.tensor3)
    (n1 k : nat) :
  Forall (λ blk,
    length blk = n1
    ∧ Forall (λ slot,
        length slot = length obs
        ∧ rectangular (length conditions) slot) blk) sc →
  mapM (mapM (λ a_ij : np.matrix, a_ij !! k)) sc = Some view →
  shaped3 n1 (length conditions) view.
Proof.
  intros Hshape Hview%mapM_Some_1. unfold shaped3.
  induction Hview as [|blk a_i sc view Hblk _ IH]; [constructor|].
  apply Forall_cons in Hshape as [[Hlen Hslots] Hshape].
  constructor; [|by apply IH].
  pose proof (length_mapM _ _ _ Hblk) as Hlen'.
  split; [lia|]. apply mapM_Some_1 in Hblk.
  unfold rectangular. clear Hlen Hlen'.
  induction Hblk as [|slot row blk a_i Hrow _ IH']; [constructor|].
  apply Forall_cons in Hslots as [[_ Hrect] Hslots].
  constructor; [|by apply IH'].
  unfold rectangular in Hrect. rewrite Forall_forall in Hrect.
  apply Hrect. by eapply list_elem_of_lookup_2.
Qed.

End view_shape.

(** *** Calls that touch no figure *)

Lemma count_calls_app (p : plt.call → bool) (l1 l2 : list plt.call) :
  count_calls p (l1 ++ l2) = count_calls p l1 + count_calls p l2.
Proof. unfold count_calls. by rewrite filter_app, length_app. Qed.

Lemma quiet_calls (l : list plt.call) :
  Forall quiet l →
  count_calls is_figure l = 0 ∧ count_calls is_close l = 0
  ∧ omap saved_as l = [].
Proof.
  unfold count_calls.
  induction 1 as [|c l (Hf & Hc & Hs) _ (IHf & IHc & IHs)]; [done|].
  rewrite !filter_cons, omap_cons_eq, Hf, Hc, Hs, IHs.
  by rewrite !decide_False by done.
Qed.

Lemma mapM_quiet {A : Type} (h : A → option plt.call) (l : list A)
    (calls : list plt.call) :
  (∀ x c, h x = Some c → quiet c) →
  mapM h l = Some calls → Forall quiet calls.
Proof.
  intros Hh Hcalls%mapM_Some_1.
  induction Hcalls as [|x c l calls Hc _ IH]; [constructor|].
  constructor; [by eapply Hh | done].
Qed.

Lemma bands_quiet (width : float) (processes l : list (list Z))
    (n : nat) :
  Forall quiet (omap (band_of width processes) (enumerate_from n l)).
Proof.
  revert n. induction l as [|proc l IH]; intros n; [constructor|].
  cbn [enumerate_from]. rewrite omap_cons_eq. apply Forall_app.
  split; [|apply IH]. unfold band_of. cbn [fst snd].
  case_bool_decide; repeat constructor.
Qed.

Lemma draw_vertical_span_quiet (biological_processes : list (list Z))
    (width : float) :
  Forall quiet (_draw_vertical_span biological_processes width).
Proof.
  unfold _draw_vertical_span. case_bool_decide; [|constructor].
  pose proof (draw_spans_from width biological_processes [] []) as Hspans.
  cbn [concat length app] in Hspans. unfold enumerate.
  rewrite Hspans. cbn [snd app]. apply bands_quiet.
Qed.

Lemma write_reaction_indices_quiet (reaction_indices : list Z)
    (average stdev : np.matrix) (width : float)
    (written : list plt.call) :
  _write_reaction_indices reaction_indices average stdev width
  = Some written →
  Forall quiet written.
Proof.
  rewrite write_reaction_indices_eq.
  destruct (np.max average) as [m|]; [|done]. cbn [mbind option_bind].
  apply mapM_quiet. intros [i j] c. unfold label_of. cbn [fst snd].
  destruct (average !! i) as [average_i|]; [|done].
  cbn [mbind option_bind].
  destruct (np.argmax (np.abs average_i)) as [i_yp|]; [|done].
  cbn [mbind option_bind].
  destruct (average_i !! i_yp) as [yp|]; [|done].
  cbn [mbind option_bind].
  destruct (stdev !! i) as [stdev_i|]; [|done].
  cbn [mbind option_bind].
  destruct (np.argmax stdev_i) as [i_yerr|]; [|done].
  cbn [mbind option_bind].
  destruct (stdev_i !! i_yerr) as [yerr|]; [|done].
  cbn [mbind option_bind].
  destruct (0 <? yp)%float; intros [= <-]; repeat constructor.
Qed.

(** The labels can be written on means and standard deviations with a
    row for each reaction index. *)
Lemma write_reaction_indices_Some (reaction_indices : list Z)
    (average stdev : np.matrix) (width : float) (m : nat) :
  length average = length reaction_indices → rectangular m average →
  length stdev = length reaction_indices → rectangular m stdev →
  0 < length reaction_indices → 0 < m →
  ∃ written,
    _write_reaction_indices reaction_indices average stdev width
    = Some written.
Proof.
  intros Ha Hra Hs Hrs Hn Hm. rewrite write_reaction_indices_eq.
  destruct (max_Some average _ m Ha Hra Hn Hm) as [mx ->].
  cbn [mbind option_bind].
  destruct (mapM (label_of average stdev width (mx * distance_ratio))
              (enumerate reaction_indices)) as [calls|] eqn:Hcalls;
    [by exists calls|].
  exfalso. apply mapM_None, Exists_exists in Hcalls
    as ([i j] & Hin & Hnone).
  apply list_elem_of_lookup in Hin as [i' Hin].
  rewrite enumerate_lookup in Hin.
  destruct (reaction_indices !! i') as [j'|] eqn:Hj; [|done].
  cbn in Hin. injection Hin as <- <-.
  pose proof (lookup_lt_Some _ _ _ Hj) as Hi.
  destruct (label_of_row average stdev width (mx * distance_ratio)
              _ m i' j' Ha Hra Hs Hrs Hm ltac:(lia))
    as (? & ? & ? & ? & ? & ? & _ & _ & _ & _ & _ & _ & Hlabel).
  by rewrite Hlabel in Hnone.
Qed.

Section figures_facts.
Context `{BioModel}.
Variable width : float.

Lemma bars_quiet (reaction_indices : list Z) (average stdev : np.matrix)
    (drawn : list plt.call) :
  bars width reaction_indices average stdev = Some drawn →
  Forall quiet drawn.
Proof.
  rewrite bars_eq. apply mapM_quiet. intros [l condition] c.
  unfold bar_of. cbn [fst snd].
  destruct (mapM _ average); [|done]. cbn [mbind option_bind].
  destruct (mapM _ stdev); [|done]. cbn [mbind option_bind].
  case_bool_decide; [|done]. intros [= <-]. repeat constructor.
Qed.

Lemma bars_Some (reaction_indices : list Z) (average stdev : np.matrix) :
  rectangular (length conditions) average →
  rectangular (length conditions) stdev →
  length conditions ≤ cmap_len →
  ∃ drawn, bars width reaction_indices average stdev = Some drawn.
Proof.
  intros Ha Hs Hcmap. rewrite bars_eq.
  destruct (mapM (bar_of width reaction_indices average stdev)
              (enumerate conditions)) as [calls|] eqn:Hcalls;
    [by exists calls|].
  exfalso. apply mapM_None, Exists_exists in Hcalls
    as ([l condition] & Hin & Hnone).
  apply list_elem_of_lookup in Hin as [l' Hin].
  rewrite enumerate_lookup in Hin.
  destruct (conditions !! l') as [c|] eqn:Hl; [|done].
  cbn in Hin. injection Hin as <- <-.
  pose proof (lookup_lt_Some _ _ _ Hl) as Hlt.
  destruct (bar_of_column width reaction_indices average stdev
              (length conditions) l' c Ha Hs Hlt ltac:(lia))
    as (? & ? & _ & _ & _ & _ & Hbar).
  by rewrite Hbar in Hnone.
Qed.

(** The calls made for one observable: a figure is opened; it is saved
    and closed when the observable has a bar plot, and only then. *)
Lemma barplot_calls_of_figure (metric : string) (sc : np.tensor4)
    (biological_processes : list (list Z)) (reaction_indices : list Z)
    (k : nat) (obs_name : string) :
  Forall (λ blk,
    length blk = length reaction_indices
    ∧ Forall (λ slot,
        length slot = length obs
        ∧ rectangular (length conditions) slot) blk) sc →
  length conditions ≤ cmap_len →
  k < length obs →
  ∃ made,
    barplot_calls_of width metric sc biological_processes
      reaction_indices k obs_name = Some made
    ∧ count_calls is_figure made = 1
    ∧ count_calls is_close made
      = length (option_list (barplot_of sc k obs_name))
    ∧ omap saved_as made
      = (λ fig : barplot, barplot_path metric fig.1.1)
          <$> option_list (barplot_of sc k obs_name).
Proof.
  intros Hshape Hcmap Hk. unfold barplot_calls_of.
  destruct (view_obs_lookup sc _ _ _ k Hshape Hk) as (view & -> & Hview).
  cbn [mbind option_bind]. rewrite drop_nan_paramsets_eq.
  cbn [mbind option_bind]. unfold barplot_of. rewrite Hview.
  change (default [] (Some view)) with view.
  pose proof (view_obs_shaped sc view _ k Hshape Hview) as Hshaped.
  set (kept := filter (λ a_i, forallb nan_free a_i = true) view) in *.
  assert (shaped3 (length reaction_indices) (length conditions) kept)
    as Hkept.
  { unfold shaped3, kept in *. rewrite Forall_forall in Hshaped.
    apply Forall_forall. intros a_i [_ Hin]%list_elem_of_filter.
    by apply Hshaped. }
  destruct (quiet_calls _ (draw_vertical_span_quiet biological_processes
                             width)) as (Hsf & Hsc & Hss).
  case_bool_decide as Hsize.
  - destruct (size3_not_zero kept _ _ Hkept Hsize) as (Hne & Hn1 & Hn2).
    destruct (average_and_stdev_shape kept _ _ Hkept Hne Hn1)
      as [[Ha Hra] [Hs Hrs]].
    destruct (average_and_stdev kept) as [average stdev].
    cbn [fst snd] in *.
    destruct (bars_Some reaction_indices average stdev Hra Hrs Hcmap)
      as [drawn Hdrawn].
    destruct (write_reaction_indices_Some reaction_indices average stdev
                width _ Ha Hra Hs Hrs Hn1 Hn2) as [written Hwritten].
    rewrite Hdrawn. cbn [mbind option_bind].
    rewrite Hwritten. cbn [mbind option_bind].
    destruct (quiet_calls _ (bars_quiet _ _ _ _ Hdrawn))
      as (Hdf & Hdc & Hds).
    destruct (quiet_calls _ (write_reaction_indices_quiet _ _ _ _ _
                               Hwritten)) as (Hwf & Hwc & Hws).
    eexists. split; [done|].
    change (plt.figure :: ?l) with ([plt.figure] ++ l).
    rewrite <- !(assoc_L (++)).
    rewrite !count_calls_app, !omap_app, Hsf, Hsc, Hss, Hdf, Hdc, Hds,
      Hwf, Hwc, Hws.
    done.
  - eexists. split; [done|].
    change (plt.figure :: ?l) with ([plt.figure] ++ l).
    by rewrite !count_calls_app, !omap_app, Hsf, Hsc, Hss.
Qed.

End figures_facts.

Section figures_count.
Context `{BioModel}.
Variable width : float.

Lemma barplot_calls_loop (metric : string) (sc : np.tensor4)
    (biological_processes : list (list Z)) (reaction_indices : list Z)
    (l : list (nat * string)) (acc : list plt.call) :
  Forall (λ blk,
    length blk = length reaction_indices
    ∧ Forall (λ slot,
        length slot = length obs
        ∧ rectangular (length conditions) slot) blk) sc →
  length conditions ≤ cmap_len →
  Forall (λ ko, ko.1 < length obs) l →
  ∃ calls,
    foldlM (λ calls '(k, obs_name),
        made ← barplot_calls_of width metric sc biological_processes
                 reaction_indices k obs_name;
        Some (calls ++ made)) acc l
    = Some (acc ++ calls)
    ∧ count_calls is_figure calls = length l
    ∧ count_calls is_close calls
      = length (omap (λ '(k, obs_name), barplot_of sc k obs_name) l)
    ∧ omap saved_as calls
      = (λ fig : barplot, barplot_path metric fig.1.1)
          <$> omap (λ '(k, obs_name), barplot_of sc k obs_name) l.
Proof.
  intros Hshape Hcmap Hl. revert acc.
  induction Hl as [|[k obs_name] l Hk _ IH]; intros acc.
  - exists []. cbn. by rewrite app_nil_r.
  - cbn [foldlM]. cbn [fst] in Hk.
    destruct (barplot_calls_of_figure width metric sc
                biological_processes reaction_indices k obs_name
                Hshape Hcmap Hk) as (made & -> & Hf & Hc & Hs).
    cbn [mbind option_bind].
    destruct (IH (acc ++ made)) as (calls & -> & Hf' & Hc' & Hs').
    exists (made ++ calls). split; [by rewrite (assoc_L (++))|].
    rewrite !count_calls_app, omap_app, omap_cons_eq, fmap_app,
      length_app, Hf, Hc, Hs, Hf', Hc', Hs'.
    done.
Qed.

(** X14: on a tensor of the shape the sweep gives it, and with colours
    enough, all the calls of [_barplot_sensitivity] can be made: the bars
    have their columns and colours and the labels their rows.  A figure is
    opened for every observable, but a figure is saved and closed only for
    the observables that have a bar plot; the files are those of these
    observables, in their order.  The figure of an observable whose
    parameter sets all hold a NaN stays open. *)
Theorem barplot_figures (metric : string) (sc : np.tensor4)
    (biological_processes : list (list Z)) (reaction_indices : list Z) :
  Forall (λ blk,
    length blk = length reaction_indices
    ∧ Forall (λ slot,
        length slot = length obs
        ∧ rectangular (length conditions) slot) blk) sc →
  length conditions ≤ cmap_len →
  ∃ calls figs,
    barplot_calls width metric sc biological_processes reaction_indices
    = Some calls
    ∧ _barplot_sensitivity metric sc biological_processes
        reaction_indices = Some figs
    ∧ count_calls is_figure calls = length obs
    ∧ count_calls is_close calls = length figs
    ∧ omap saved_as calls
      = (λ fig : barplot, barplot_path metric fig.1.1) <$> figs.
Proof.
  intros Hshape Hcmap.
  destruct (barplot_calls_loop metric sc biological_processes
              reaction_indices (enumerate obs) [] Hshape Hcmap)
    as (calls & Hcalls & Hf & Hc & Hs).
  { apply Forall_forall. intros [k obs_name] Hin%elem_of_enumerate.
    cbn. by eapply lookup_lt_Some. }
  exists calls, (omap (λ '(k, obs_name), barplot_of sc k obs_name)
                      (enumerate obs)).
  split.
  { unfold barplot_calls. by rewrite bool_decide_false by lia. }
  split; [by apply barplot_sensitivity_eq|].
  unfold enumerate in Hf. rewrite enumerate_from_length in Hf. done.
Qed.

End figures_count.

Lemma barplot_figures_witness :
  let sc := [[[[1]; [nan]]; [[0]; [nan]]]]%float in
  ∃ calls figs,
    @barplot_calls (with_obs example_model ["ERK"; "cFos"]) 0.5
      "amplitude" sc [[1; 2]%Z] [1; 2]%Z = Some calls
    ∧ @_barplot_sensitivity (with_obs example_model ["ERK"; "cFos"])
        "amplitude" sc [[1; 2]%Z] [1; 2]%Z = Some figs
    ∧ count_calls is_figure calls
      = length (@obs (with_obs example_model ["ERK"; "cFos"]))
    ∧ count_calls is_close calls = length figs
    ∧ omap saved_as calls
      = (λ fig : barplot,
           @barplot_path (with_obs example_model ["ERK"; "cFos"])
             "amplitude" fig.1.1) <$> figs.
Proof.
  apply (@barplot_figures (with_obs example_model ["ERK"; "cFos"])
           0.5%float "amplitude" [[[[1]; [nan]]; [[0]; [nan]]]]%float
           [[1; 2]%Z] [1; 2]%Z).
  - repeat constructor.
  - cbn. lia.
Defined.

(** Two observables, the second without a coefficient that is a number:
    two figures are opened, and one is saved and closed. *)
Example barplot_figures_example :
  (λ calls, (count_calls is_figure calls, count_calls is_close calls,
             omap saved_as calls))
    <$> @barplot_calls (with_obs example_model ["ERK"; "cFos"]) 0.5
          "amplitude" [[[[1]; [nan]]; [[0]; [nan]]]]%float
          [[1; 2]%Z] [1; 2]%Z
  = Some (2, 1,
          ["models/example/figure/sensitivity/reaction/amplitude/ERK.pdf"]).
Proof. vm_compute. reflexivity. Qed.

(** ** Multiplication by 1 in binary64 *)

(** The product of a mantissa and the mantissa of 1. *)
Lemma mul_mantissa_one (m : positive) :
  (m * 4503599627370496)%positive = Pos.iter xO m 52.
Proof. rewrite Pos.mul_comm. reflexivity. Qed.

Lemma SFmul_one (x : spec_float) :
  valid_binary x = true → SF64mul x SF_one = x.
Proof.
  intros Hv.
  destruct x as [s|s| |s m e];
    [by destruct s | by destruct s | done | ].
  unfold SF64mul, SF_one, SFmul, prec, emax in *. cbn [valid_binary] in Hv.
  unfold bounded, canonical_mantissa, fexp, emin in Hv.
  apply andb_true_iff in Hv as [Hc He].
  apply Z.eqb_eq in Hc. apply Z.leb_le in He.
  rewrite xorb_false_r.
  assert ((e <=? 1024 - 53)%Z = true) as Hle by (apply Z.leb_le; lia).
  rewrite mul_mantissa_one.
  unfold binary_round_aux, shr_fexp, fexp, emin.
  assert (Zdigits2 (Z.pos (Pos.iter xO m 52))
          = (Z.pos (digits2_pos m) + 52)%Z) as ->.
  { change (Zdigits2 (Z.pos (Pos.iter xO m 52)))
      with (Z.pos (Pos.iter Pos.succ (digits2_pos m) 52)).
    generalize (digits2_pos m). intros p.
    lazy [Pos.iter]. rewrite !Pos2Z.inj_succ. lia. }
  replace ((Z.pos (digits2_pos m) + 52 + (e + -52) - 53)
           `max` (3 - 1024 - 53) - (e + -52))%Z with 52%Z by lia.
  assert (shr (shr_record_of_loc (Z.pos (Pos.iter xO m 52)) loc_Exact)
              (e + -52) 52
          = ({| shr_m := Z.pos m; shr_r := false; shr_s := false |},
             (e + -52 + 52)%Z)) as -> by reflexivity.
  cbn [shr_m loc_of_shr_record round_nearest_even shr_record_of_loc].
  change (Zdigits2 (Z.pos m)) with (Z.pos (digits2_pos m)).
  replace (e + -52 + 52)%Z with e by lia.
  replace ((Z.pos (digits2_pos m) + e - 53) `max` (3 - 1024 - 53) - e)%Z
    with 0%Z by lia.
  cbn [shr shr_m]. by rewrite Hle.
Qed.

(** Multiplying by 1 changes no binary64 value. *)
Lemma mul_one (x : float) : (x * 1)%float = x.
Proof.
  apply Prim2SF_inj. rewrite mul_spec, binary64.Prim2SF_one.
  apply SFmul_one, Prim2SF_valid.
Qed.

(** * Properties of the insulin signalling model *)

Import insulin_signaling.

(** ** The perturbation of the fluxes *)

Lemma scale_fluxes_cons (v : gmap Z float) (i : Z) (dv : float)
    (items : list (Z * float)) :
  scale_fluxes v ((i, dv) :: items)
  = v_i ← v !! i; scale_fluxes (<[i := (v_i * dv)%float]> v) items.
Proof. unfold scale_fluxes. cbn [foldlM]. by destruct (v !! i). Qed.

(** When every reaction of the items has a flux, the fluxes are scaled:
    a reaction keeps its flux unless the items list it. *)
Lemma scale_fluxes_Some (items : list (Z * float)) (v : gmap Z float) :
  NoDup items.*1 →
  Forall (λ i, is_Some (v !! i)) items.*1 →
  ∃ v',
    scale_fluxes v items = Some v'
    ∧ ∀ i, v' !! i
           = match (list_to_map items : gmap Z float) !! i with
             | Some dv => (λ v_i, v_i * dv)%float <$> v !! i
             | None => v !! i
             end.
Proof.
  revert v. induction items as [|[i0 dv0] items IH]; intros v Hnd Hall.
  - exists v. split; [done|]. intros i. cbn. by rewrite lookup_empty.
  - cbn [fmap list_fmap fst] in Hnd, Hall.
    apply NoDup_cons in Hnd as [Hnotin Hnd].
    apply Forall_cons in Hall as [[x Hx] Hall].
    rewrite scale_fluxes_cons, Hx. cbn [mbind option_bind].
    destruct (IH (<[i0 := (x * dv0)%float]> v) Hnd) as (v' & -> & Hv').
    { eapply Forall_impl; [exact Hall|]. intros i Hi. cbn in Hi.
      destruct (decide (i = i0)) as [->|Hne].
      - by rewrite lookup_insert_eq.
      - by rewrite lookup_insert_ne. }
    exists v'. split; [done|]. intros i. rewrite Hv'.
    cbn [list_to_map foldr]. cbn [fst snd].
    destruct (decide (i = i0)) as [->|Hne].
    + rewrite (not_elem_of_list_to_map_1 _ i0) by done.
      by rewrite !lookup_insert_eq, Hx.
    + rewrite !(lookup_insert_ne _ i0) by done. done.
Qed.

(** A reaction without a flux makes the scaling raise. *)
Lemma scale_fluxes_None (items : list (Z * float)) (v : gmap Z float) :
  Exists (λ i, v !! i = None) items.*1 → scale_fluxes v items = None.
Proof.
  revert v. induction items as [|[i0 dv0] items IH]; intros v Hex.
  - by apply Exists_nil in Hex.
  - cbn [fmap list_fmap fst] in Hex. rewrite scale_fluxes_cons.
    destruct (v !! i0) as [x|] eqn:Hx; [|done]. cbn [mbind option_bind].
    apply Exists_cons in Hex as [Hex|Hex]; [cbn in Hex; congruence|].
    apply IH. eapply Exists_impl; [exact Hex|]. intros i Hi. cbn in Hi.
    destruct (decide (i = i0)) as [->|Hne]; [congruence|].
    by rewrite lookup_insert_ne.
Qed.

(** X15: the perturbation loop of [diffeq], for the items of a dictionary
    in whatever order it yields them (no key twice).  It raises exactly
    when some reaction of the dictionary has no flux.  Otherwise the flux
    of each reaction of the dictionary is multiplied by its factor, and
    the other fluxes are left as they are; two orders of the same items
    give the same fluxes. *)
Theorem scale_fluxes_by_items (v : gmap Z float)
    (items items' : list (Z * float)) :
  NoDup items.*1 →
  (Exists (λ i, v !! i = None) items.*1 → scale_fluxes v items = None)
  ∧ (Forall (λ i, is_Some (v !! i)) items.*1 →
     ∃ v',
       scale_fluxes v items = Some v'
       ∧ ∀ i, v' !! i
              = match (list_to_map items : gmap Z float) !! i with
                | Some dv => (λ v_i, v_i * dv)%float <$> v !! i
                | None => v !! i
                end)
  ∧ (items ≡ₚ items' → scale_fluxes v items = scale_fluxes v items').
Proof.
  intros Hnd. split; [apply scale_fluxes_None|].
  split; [by apply scale_fluxes_Some|].
  intros Hperm.
  assert (NoDup items'.*1) as Hnd' by (by rewrite <- Hperm).
  destruct (decide (Forall (λ i, is_Some (v !! i)) items.*1))
    as [Hall|Hex].
  - destruct (scale_fluxes_Some items v Hnd Hall) as (v1 & -> & Hv1).
    destruct (scale_fluxes_Some items' v Hnd') as (v2 & -> & Hv2).
    { by rewrite <- Hperm. }
    f_equal. apply map_eq. intros i. rewrite Hv1, Hv2.
    by rewrite (list_to_map_proper (M:=gmap Z) items items' Hnd Hperm).
  - apply not_Forall_Exists in Hex; [|apply _].
    assert (Exists (λ i, v !! i = None) items.*1) as Hnone.
    { eapply Exists_impl; [exact Hex|]. intros i Hi. cbn in Hi.
      by apply eq_None_not_Some. }
    rewrite (scale_fluxes_None items v Hnone).
    symmetry. apply scale_fluxes_None. by rewrite <- Hperm.
Qed.

Lemma scale_fluxes_by_items_witness :
  let v : gmap Z float := {[1%Z := 2%float; 2%Z := 3%float]} in
  (Exists (λ i, v !! i = None) [(2%Z, 0.5%float)].*1 →
   scale_fluxes v [(2%Z, 0.5%float)] = None)
  ∧ (Forall (λ i, is_Some (v !! i)) [(2%Z, 0.5%float)].*1 →
     ∃ v',
       scale_fluxes v [(2%Z, 0.5%float)] = Some v'
       ∧ ∀ i, v' !! i
              = match (list_to_map [(2%Z, 0.5%float)] : gmap Z float) !! i
                with
                | Some dv => (λ v_i, v_i * dv)%float <$> v !! i
                | None => v !! i
                end)
  ∧ ([(2%Z, 0.5%float)] ≡ₚ [(2%Z, 0.5%float)] →
     scale_fluxes v [(2%Z, 0.5%float)] = scale_fluxes v [(2%Z, 0.5%float)]).
Proof.
  apply (scale_fluxes_by_items {[1%Z := 2%float; 2%Z := 3%float]}
           [(2%Z, 0.5%float)] [(2%Z, 0.5%float)]).
  cbn. apply NoDup_singleton.
Defined.

(** The keys of the dictionary of the sweep are the reaction indices. *)
Lemma perturbation_keys (reaction_indices : list Z) (rxn_idx i : Z) :
  rxn_idx ∈ reaction_indices →
  i ∈ (map_to_list (perturbation reaction_indices rxn_idx)).*1
  ↔ i ∈ reaction_indices.
Proof.
  intros Hin. rewrite list_elem_of_fmap. split.
  - intros ([i' dv] & -> & Hi%elem_of_map_to_list). cbn.
    rewrite perturbation_lookup in Hi.
    destruct (decide (i' = rxn_idx)) as [->|_]; [done|].
    by destruct (decide (i' ∈ reaction_indices)).
  - intros Hi.
    destruct (perturbation reaction_indices rxn_idx !! i) as [dv|] eqn:Hp.
    + exists (i, dv). split; [done|]. by apply elem_of_map_to_list.
    + rewrite perturbation_lookup in Hp.
      destruct (decide (i = rxn_idx)); [done|].
      by rewrite decide_True in Hp.
Qed.

Lemma perturbation_not_empty (reaction_indices : list Z) (rxn_idx : Z) :
  perturbation reaction_indices rxn_idx ≠ ∅.
Proof.
  intros Hp.
  pose proof (perturbation_lookup reaction_indices rxn_idx rxn_idx) as Hl.
  rewrite Hp, lookup_empty, decide_True in Hl by done. done.
Qed.

(** The fluxes under the dictionary of the sweep. *)
Lemma sweep_perturbed_fluxes (v : gmap Z float)
    (reaction_indices : list Z) (rxn_idx : Z) :
  rxn_idx ∈ reaction_indices →
  Forall (λ i, is_Some (v !! i)) reaction_indices →
  ∃ v',
    perturbed_fluxes v (Some (perturbation reaction_indices rxn_idx))
    = Some v'
    ∧ v' !! rxn_idx = (λ v_i, v_i * rate)%float <$> v !! rxn_idx
    ∧ ∀ i, i ≠ rxn_idx → v' !! i = v !! i.
Proof.
  intros Hin Hall. unfold perturbed_fluxes.
  rewrite bool_decide_false by apply perturbation_not_empty.
  set (p := perturbation reaction_indices rxn_idx).
  destruct (scale_fluxes_Some (map_to_list p) v) as (v' & -> & Hv').
  { apply NoDup_fst_map_to_list. }
  { apply Forall_forall. intros i Hi%perturbation_keys; [|done].
    rewrite Forall_forall in Hall. by apply Hall. }
  exists v'. split; [done|].
  assert (∀ i, v' !! i
               = match p !! i with
                 | Some dv => (λ v_i, v_i * dv)%float <$> v !! i
                 | None => v !! i
                 end) as Hv.
  { intros i. by rewrite Hv', list_to_map_to_list. }
  split.
  - rewrite Hv. unfold p. rewrite perturbation_lookup.
    by rewrite decide_True.
  - intros i Hi. rewrite Hv. unfold p. rewrite perturbation_lookup.
    rewrite decide_False by done.
    destruct (decide (i ∈ reaction_indices)); [|done].
    destruct (v !! i) as [x|]; [|done]. cbn. by rewrite mul_one.
Qed.



Import insulin_signaling.

(** ** Consecutive assignments to a list *)

Lemma assign_cons (l : list float) (i : nat) (rhs : option float)
    (items : list (nat * option float)) :
  assign l ((i, rhs) :: items)
  = x ← rhs; l1 ← setitem l i x; assign l1 items.
Proof.
  unfold assign. cbn [foldlM]. destruct rhs as [x|]; [|done].
  cbn [mbind option_bind]. by destruct (setitem l i x).
Qed.

(** Assignments within the list, of right-hand sides that can be
    evaluated, are all made: the length is kept, a position that is not
    assigned keeps its value, and a position assigned once holds the value
    assigned. *)
Lemma assign_Some (items : list (nat * option float)) (l : list float) :
  Forall (λ ir, ir.1 < length l ∧ is_Some ir.2) items →
  ∃ l',
    assign l items = Some l'
    ∧ length l' = length l
    ∧ (∀ i, i ∉ items.*1 → l' !! i = l !! i)
    ∧ (NoDup items.*1 →
       ∀ i rhs, (i, rhs) ∈ items → l' !! i = rhs).
Proof.
  revert l. induction items as [|[i0 rhs0] items IH]; intros l Hall.
  - exists l. repeat split; try done. intros _ i rhs Hin.
    by apply elem_of_nil in Hin.
  - apply Forall_cons in Hall as [[Hi0 [x Hx]] Hall].
    cbn [fst snd] in Hi0, Hx. subst rhs0.
    rewrite assign_cons. cbn [mbind option_bind]. unfold setitem.
    rewrite bool_decide_true by done. cbn [mbind option_bind].
    destruct (IH (<[i0 := x]> l)) as (l' & -> & Hlen & Hframe & Hset).
    { eapply Forall_impl; [exact Hall|]. intros ir Hir. cbn in Hir.
      by rewrite length_insert. }
    exists l'. split; [done|]. rewrite length_insert in Hlen.
    split; [done|]. split.
    + intros i Hi. cbn [fmap list_fmap fst] in Hi.
      apply not_elem_of_cons in Hi as [Hne Hi].
      rewrite (Hframe i Hi). by rewrite list_lookup_insert_ne.
    + cbn [fmap list_fmap fst]. intros [Hnotin Hnd]%NoDup_cons i rhs Hin.
      apply elem_of_cons in Hin as [[= -> ->]|Hin].
      * rewrite (Hframe i0 Hnotin). by apply list_lookup_insert_eq.
      * by apply Hset.
Qed.

(** An assignment past the end, or of a right-hand side that raises,
    makes the whole raise. *)
Lemma assign_None (items : list (nat * option float)) (l : list float) :
  Exists (λ ir, length l ≤ ir.1 ∨ ir.2 = None) items →
  assign l items = None.
Proof.
  revert l. induction items as [|[i0 rhs0] items IH]; intros l Hex.
  - by apply Exists_nil in Hex.
  - rewrite assign_cons. destruct rhs0 as [x|]; [|done].
    cbn [mbind option_bind]. unfold setitem. case_bool_decide as Hi0;
      [|done]. cbn [mbind option_bind].
    apply Exists_cons in Hex as [[Hex|Hex]|Hex];
      [cbn in Hex; lia | done |].
    apply IH. eapply Exists_impl; [exact Hex|]. intros ir Hir. cbn in Hir.
    by rewrite length_insert.
Qed.

(** ** The equations of the model *)

Lemma equations_positions (V : V_index) (v : gmap Z float) :
  (equations V v).*1 = assigned V.
Proof. reflexivity. Qed.

Lemma osub_is_Some (a b : option float) :
  is_Some (a -? b) ↔ is_Some a ∧ is_Some b.
Proof.
  unfold osub. destruct a, b; cbn; split; try done.
  - by intros [[] ?].
  - by intros [? []].
  - by intros [[] ?].
Qed.

Lemma oadd_is_Some (a b : option float) :
  is_Some (a +? b) ↔ is_Some a ∧ is_Some b.
Proof.
  unfold oadd. destruct a, b; cbn; split; try done.
  - by intros [[] ?].
  - by intros [? []].
  - by intros [[] ?].
Qed.

(** The right-hand sides can be evaluated exactly when each of the 24
    reactions has a flux. *)
Lemma equations_is_Some (V : V_index) (v : gmap Z float) :
  Forall (λ ir, is_Some ir.2) (equations V v)
  ↔ Forall (λ i, is_Some (v !! i)) reactions.
Proof.
  unfold equations, reactions. cbn [fmap list_fmap seq Z.of_nat].
  rewrite !Forall_cons, !Forall_nil. cbn [snd].
  rewrite !osub_is_Some, !oadd_is_Some, !osub_is_Some.
  cbn [Pos.of_succ_nat Pos.succ]. tauto.
Qed.

Lemma derivative_None (V : V_index) (v : gmap Z float) :
  ¬ Forall (λ ir, ir.1 < V_NUM V ∧ is_Some ir.2) (equations V v) →
  derivative V v = None.
Proof.
  intros Hnot. apply not_Forall_Exists in Hnot; [|apply _].
  unfold derivative. apply assign_None.
  eapply Exists_impl; [exact Hnot|]. intros [i rhs] Hir. cbn in *.
  rewrite length_replicate.
  destruct (decide (i < V_NUM V)); [|left; lia].
  right. destruct rhs; [|done]. exfalso. apply Hir. by split.
Qed.

(** X17: the equations of [diffeq], given the fluxes.  When every
    position assigned is below [V.NUM] and each of the reactions 1 to 24
    has a flux, the derivative has [V.NUM] entries; provided no two species
    share a position, each of the eleven positions assigned holds the
    right-hand side of its equation, and every other entry is zero: the
    species without an equation do not change.  When a position is past
    the end or a reaction has no flux, [diffeq] raises. *)
Theorem derivative_entries (V : V_index) (v : gmap Z float) :
  NoDup (assigned V) →
  (Forall (λ i, i < V_NUM V) (assigned V) →
   Forall (λ i, is_Some (v !! i)) reactions →
   ∃ dydt,
     derivative V v = Some dydt
     ∧ length dydt = V_NUM V
     ∧ (∀ i rhs, (i, rhs) ∈ equations V v → dydt !! i = rhs)
     ∧ (∀ i, i < V_NUM V → i ∉ assigned V → dydt !! i = Some 0%float))
  ∧ (Exists (λ i, V_NUM V ≤ i) (assigned V)
     ∨ Exists (λ i, v !! i = None) reactions →
     derivative V v = None).
Proof.
  intros Hnd. split.
  - intros Hpos Hflux. unfold derivative.
    destruct (assign_Some (equations V v) (replicate (V_NUM V) 0%float))
      as (dydt & -> & Hlen & Hframe & Hset).
    { rewrite length_replicate.
      apply (proj2 (equations_is_Some V v)) in Hflux.
      rewrite <- (equations_positions V v), Forall_fmap in Hpos.
      rewrite Forall_forall in Hpos, Hflux. apply Forall_forall.
      intros ir Hin. split; [by apply Hpos | by apply Hflux]. }
    exists dydt. split; [done|]. rewrite length_replicate in Hlen.
    split; [done|]. split.
    + apply Hset. by rewrite equations_positions.
    + intros i Hi Hnotin. rewrite Hframe by done.
      by apply lookup_replicate_2.
  - intros Hbad. apply derivative_None. intros Hall.
    assert (Forall (λ i, i < V_NUM V) (assigned V)) as Hpos.
    { rewrite <- (equations_positions V v), Forall_fmap.
      eapply Forall_impl; [exact Hall|]. by intros ir [? _]. }
    assert (Forall (λ i, is_Some (v !! i)) reactions) as Hflux.
    { apply (proj1 (equations_is_Some V v)).
      eapply Forall_impl; [exact Hall|]. by intros ir [_ ?]. }
    destruct Hbad as [Hbad|Hbad];
      apply Exists_exists in Hbad as (i & Hin & Hi).
    + rewrite Forall_forall in Hpos. specialize (Hpos i Hin). lia.
    + rewrite Forall_forall in Hflux. specialize (Hflux i Hin).
      rewrite Hi in Hflux. by destruct Hflux.
Qed.

Lemma derivative_entries_witness :
  let v : gmap Z float :=
    list_to_map ((λ i, (Z.of_nat i, np.of_count i)) <$> seq 1 24) in
  (Forall (λ i, i < V_NUM V_in_order) (assigned V_in_order) →
   Forall (λ i, is_Some (v !! i)) reactions →
   ∃ dydt,
     derivative V_in_order v = Some dydt
     ∧ length dydt = V_NUM V_in_order
     ∧ (∀ i rhs, (i, rhs) ∈ equations V_in_order v → dydt !! i = rhs)
     ∧ (∀ i, i < V_NUM V_in_order → i ∉ assigned V_in_order →
        dydt !! i = Some 0%float))
  ∧ (Exists (λ i, V_NUM V_in_order ≤ i) (assigned V_in_order)
     ∨ Exists (λ i, v !! i = None) reactions →
     derivative V_in_order v = None).
Proof.
  apply (derivative_entries V_in_order
           (list_to_map ((λ i, (Z.of_nat i, np.of_count i))
                           <$> seq 1 24))).
  apply (bool_decide_unpack _). by vm_compute.
Defined.

(** With the species in the order of [initial_values] and the flux of the
    reaction [i] equal to [i]: the equations of two reactions give -1, and
    the species without an equation, such as the first, give 0. *)
Example derivative_example :
  derivative V_in_order
    (list_to_map ((λ i, (Z.of_nat i, np.of_count i)) <$> seq 1 24))
  = Some [0; 0; 0; -18; -2; 0; -1; 0; -1; 0; -1; 0; -1; 0; -1; 0; -1;
          -1]%float.
Proof. vm_compute. reflexivity. Qed.

(** ** A perturbation changes the equations of its reaction only *)

(** Two dictionaries of fluxes that differ at one reaction give the same
    right-hand side to every equation that does not mention it. *)
Lemma equations_local (V : V_index) (v v' : gmap Z float) (rxn_idx : Z)
    (n : nat) (row : list Z) :
  (∀ i, i ≠ rxn_idx → v' !! i = v !! i) →
  reactions_of_equations !! n = Some row → rxn_idx ∉ row →
  equations V v' !! n = equations V v !! n.
Proof.
  intros Hagree Hrow Hnotin. unfold reactions_of_equations in Hrow.
  do 11 (destruct n as [|n];
    [ cbn in Hrow; injection Hrow as <-;
      repeat (apply not_elem_of_cons in Hnotin as [? Hnotin]);
      cbn; by rewrite !Hagree by done
    | ]).
  done.
Qed.

Lemma equations_length (V : V_index) (v : gmap Z float) :
  length (equations V v) = length reactions_of_equations.
Proof. reflexivity. Qed.

(** X18: a run of [diffeq] under the dictionary the sweep builds for the
    reaction [rxn_idx], next to the run without a dictionary.  Provided
    the species of the equations have their own positions below [V.NUM]
    and every reaction has a flux, both runs return, and the entry of
    every species whose equation does not mention [rxn_idx] is the same in
    both, bit for bit: the perturbation of a reaction reaches the
    derivative of no other species than those it produces or consumes. *)
Theorem perturbation_is_local (V : V_index)
    (flux : float → list float → list float → gmap Z float)
    (reaction_indices : list Z) (rxn_idx : Z)
    (t : float) (y x : list float) :
  NoDup (assigned V) →
  Forall (λ i, i < V_NUM V) (assigned V) →
  Forall (λ i, is_Some (flux t y x !! i)) reactions →
  Forall (λ i, is_Some (flux t y x !! i)) reaction_indices →
  rxn_idx ∈ reaction_indices →
  ∃ dydt dydt',
    diffeq V flux None t y x = Some dydt
    ∧ diffeq V flux (Some (perturbation reaction_indices rxn_idx)) t y x
      = Some dydt'
    ∧ length dydt' = length dydt
    ∧ ∀ n row i,
        reactions_of_equations !! n = Some row → rxn_idx ∉ row →
        assigned V !! n = Some i →
        dydt' !! i = dydt !! i.
Proof.
  intros Hnd Hpos Hflux Hris Hin. unfold diffeq.
  set (v := flux t y x) in *.
  destruct (sweep_perturbed_fluxes v reaction_indices rxn_idx Hin Hris)
    as (v' & -> & Hrxn & Hother).
  cbn [perturbed_fluxes mbind option_bind].
  assert (Forall (λ i, is_Some (v' !! i)) reactions) as Hflux'.
  { eapply Forall_impl; [exact Hflux|]. intros i Hi. cbn in Hi.
    destruct (decide (i = rxn_idx)) as [->|Hne].
    - rewrite Hrxn. destruct Hi as [? ->]. by eexists.
    - by rewrite Hother. }
  assert (∀ u, Forall (λ i, is_Some (u !! i)) reactions →
    ∃ d, derivative V u = Some d ∧ length d = V_NUM V
         ∧ ∀ i rhs, (i, rhs) ∈ equations V u → d !! i = rhs) as Hderiv.
  { intros u Hu. unfold derivative.
    destruct (assign_Some (equations V u) (replicate (V_NUM V) 0%float))
      as (d & -> & Hlen & _ & Hset).
    { rewrite length_replicate.
      apply (proj2 (equations_is_Some V u)) in Hu.
      pose proof Hpos as Hpos'.
      rewrite <- (equations_positions V u), Forall_fmap in Hpos'.
      rewrite Forall_forall in Hpos', Hu. apply Forall_forall.
      intros ir Hir. split; [by apply Hpos' | by apply Hu]. }
    exists d. split; [done|]. rewrite length_replicate in Hlen.
    split; [done|]. apply Hset. by rewrite equations_positions. }
  destruct (Hderiv v Hflux) as (dydt & -> & Hlen & Hset).
  destruct (Hderiv v' Hflux') as (dydt' & -> & Hlen' & Hset').
  exists dydt, dydt'. split; [done|]. split; [done|].
  split; [lia|]. intros n row i Hrow Hnotin Hi.
  pose proof (equations_local V v v' rxn_idx n row Hother Hrow Hnotin)
    as Hsame.
  rewrite <- (equations_positions V v), list_lookup_fmap in Hi.
  destruct (equations V v !! n) as [[i' rhs]|] eqn:Heq; [|done].
  cbn in Hi. injection Hi as ->.
  rewrite (Hset i rhs) by (by eapply list_elem_of_lookup_2).
  rewrite (Hset' i rhs) by (by eapply list_elem_of_lookup_2).
  done.
Qed.

Lemma perturbation_is_local_witness :
  let flux : float → list float → list float → gmap Z float :=
    λ _ _ _, list_to_map ((λ i, (Z.of_nat i, np.of_count i))
                            <$> seq 1 24) in
  ∃ dydt dydt',
    diffeq V_in_order flux None 0 [] [] = Some dydt
    ∧ diffeq V_in_order flux (Some (perturbation [11; 12]%Z 11%Z)) 0 [] []
      = Some dydt'
    ∧ length dydt' = length dydt
    ∧ ∀ n row i,
        reactions_of_equations !! n = Some row → 11%Z ∉ row →
        assigned V_in_order !! n = Some i →
        dydt' !! i = dydt !! i.
Proof.
  apply (perturbation_is_local V_in_order
           (λ _ _ _, list_to_map ((λ i, (Z.of_nat i, np.of_count i))
                                    <$> seq 1 24))
           [11; 12]%Z 11%Z 0%float [] []).
  - apply (bool_decide_unpack _). by vm_compute.
  - apply (bool_decide_unpack _). by vm_compute.
  - apply (bool_decide_unpack _). by vm_compute.
  - apply (bool_decide_unpack _). by vm_compute.
  - apply (bool_decide_unpack _). by vm_compute.
Defined.

Import insulin_signaling.

(** ** The parameter vector and the initial state *)

(** A vector of zeros to which the values of a table are assigned. *)
Lemma assign_table (table : list (nat * float)) (n : nat) :
  (Forall (λ iv, iv.1 < n) table →
   ∃ x,
     assign (replicate n 0%float) ((λ iv, (iv.1, Some iv.2)) <$> table)
     = Some x
     ∧ length x = n
     ∧ (NoDup table.*1 →
        ∀ i val, (i, val) ∈ table → x !! i = Some val)
     ∧ (∀ i, i < n → i ∉ table.*1 → x !! i = Some 0%float))
  ∧ (Exists (λ iv, n ≤ iv.1) table →
     assign (replicate n 0%float) ((λ iv, (iv.1, Some iv.2)) <$> table)
     = None).
Proof.
  assert (((λ iv : nat * float, (iv.1, Some iv.2)) <$> table).*1
          = table.*1) as Hfst.
  { rewrite <- list_fmap_compose. by apply list_fmap_ext. }
  split.
  - intros Hpos.
    destruct (assign_Some ((λ iv, (iv.1, Some iv.2)) <$> table)
                (replicate n 0%float))
      as (x & -> & Hlen & Hframe & Hset).
    { apply Forall_fmap. eapply Forall_impl; [exact Hpos|].
      intros iv Hiv. cbn in *. rewrite length_replicate. by split. }
    exists x. split; [done|]. rewrite length_replicate in Hlen.
    split; [done|]. split.
    + intros Hnd i val Hin. apply Hset; [by rewrite Hfst|].
      apply list_elem_of_fmap. by exists (i, val).
    + intros i Hi Hnotin. rewrite Hframe by (by rewrite Hfst).
      by apply lookup_replicate_2.
  - intros Hex. apply assign_None. apply Exists_fmap.
    eapply Exists_impl; [exact Hex|]. intros iv Hiv. cbn in *.
    rewrite length_replicate. by left.
Qed.

(** X19: [param_values] returns a vector of [C.NUM] entries when the
    position of every constant is below [C.NUM], and raises [IndexError]
    when one is not.  Provided no two constants share a position, the
    vector holds at the position of each of the 26 constants the value the
    source assigns to it, and zero everywhere else. *)
Theorem param_values_entries (C : C_index) :
  (Forall (λ iv, iv.1 < C_NUM C) (param_table C) →
   ∃ x,
     param_values C = Some x
     ∧ length x = C_NUM C
     ∧ (NoDup (param_table C).*1 →
        ∀ i val, (i, val) ∈ param_table C → x !! i = Some val)
     ∧ (∀ i, i < C_NUM C → i ∉ (param_table C).*1 →
        x !! i = Some 0%float))
  ∧ (Exists (λ iv, C_NUM C ≤ iv.1) (param_table C) →
     param_values C = None)
  ∧ length (param_table C) = 26.
Proof.
  destruct (assign_table (param_table C) (C_NUM C)) as [Hsome Hnone].
  split; [exact Hsome|]. split; [exact Hnone|]. reflexivity.
Qed.

(** X20: [initial_values] returns a vector of [V.NUM] entries when the
    position of every species is below [V.NUM], and raises [IndexError]
    when one is not.  Provided no two species share a position, the vector
    holds at the position of each of the 18 species its initial amount,
    and zero everywhere else; the species to which [diffeq] assigns a
    derivative are among them. *)
Theorem initial_values_entries (V : V_index) :
  (Forall (λ iv, iv.1 < V_NUM V) (initial_table V) →
   ∃ y0,
     initial_values V = Some y0
     ∧ length y0 = V_NUM V
     ∧ (NoDup (initial_table V).*1 →
        ∀ i val, (i, val) ∈ initial_table V → y0 !! i = Some val)
     ∧ (∀ i, i < V_NUM V → i ∉ (initial_table V).*1 →
        y0 !! i = Some 0%float))
  ∧ (Exists (λ iv, V_NUM V ≤ iv.1) (initial_table V) →
     initial_values V = None)
  ∧ length (initial_table V) = 18
  ∧ assigned V ⊆ (initial_table V).*1.
Proof.
  destruct (assign_table (initial_table V) (V_NUM V)) as [Hsome Hnone].
  split; [exact Hsome|]. split; [exact Hnone|]. split; [reflexivity|].
  intros i. unfold assigned, equations, initial_table.
  cbn [fmap list_fmap fst]. rewrite !elem_of_cons, !elem_of_nil. tauto.
Qed.

(** With the constants and the species in the order in which the source
    lists them, the vectors are the columns of values of the source. *)
Example param_values_in_order :
  param_values C_in_order = Some (param_table C_in_order).*2.
Proof. vm_compute. reflexivity. Qed.

Example initial_values_in_order :
  initial_values V_in_order = Some (initial_table V_in_order).*2.
Proof. vm_compute. reflexivity. Qed.

Lemma param_values_entries_witness :
  Forall (λ iv, iv.1 < C_NUM C_in_order) (param_table C_in_order)
  ∧ NoDup (param_table C_in_order).*1
  ∧ ∃ x,
      param_values C_in_order = Some x
      ∧ length x = C_NUM C_in_order
      ∧ ∀ i val, (i, val) ∈ param_table C_in_order → x !! i = Some val.
Proof.
  assert (Forall (λ iv, iv.1 < C_NUM C_in_order) (param_table C_in_order))
    as Hpos.
  { apply (bool_decide_unpack _). by vm_compute. }
  assert (NoDup (param_table C_in_order).*1) as Hnd.
  { apply (bool_decide_unpack _). by vm_compute. }
  split; [done|]. split; [done|].
  destruct (proj1 (param_values_entries C_in_order) Hpos)
    as (x & Hx & Hlen & Hset & _).
  exists x. split; [done|]. split; [done|]. by apply Hset.
Defined.

Lemma initial_values_entries_witness :
  Forall (λ iv, iv.1 < V_NUM V_in_order) (initial_table V_in_order)
  ∧ NoDup (initial_table V_in_order).*1
  ∧ ∃ y0,
      initial_values V_in_order = Some y0
      ∧ length y0 = V_NUM V_in_order
      ∧ ∀ i val, (i, val) ∈ initial_table V_in_order → y0 !! i = Some val.
Proof.
  assert (Forall (λ iv, iv.1 < V_NUM V_in_order)
            (initial_table V_in_order)) as Hpos.
  { apply (bool_decide_unpack _). by vm_compute. }
  assert (NoDup (initial_table V_in_order).*1) as Hnd.
  { apply (bool_decide_unpack _). by vm_compute. }
  split; [done|]. split; [done|].
  destruct (proj1 (initial_values_entries V_in_order) Hpos)
    as (y0 & Hy0 & Hlen & Hset & _).
  exists y0. split; [done|]. split; [done|]. by apply Hset.
Defined.

(** * Properties of the labels and of the settings *)

(** ** Replacing underscores *)

(** The replacement of one character by another goes character by
    character. *)
Lemma replace_char_cons (c c' a : Ascii.ascii) (s : string) :
  str.replace_from (String c "") (String c' "") 0 (String a s)
  = String (if Ascii.ascii_dec c a then c' else a)
           (str.replace_from (String c "") (String c' "") 0 s).
Proof.
  cbn [str.replace_from String.prefix String.length Nat.sub].
  destruct (Ascii.ascii_dec c a); [|done]. by destruct s.
Qed.

Lemma replace_char_length (c c' : Ascii.ascii) (s : string) :
  String.length (str.replace s (String c "") (String c' ""))
  = String.length s.
Proof.
  unfold str.replace. induction s as [|a s IH]; [done|].
  rewrite replace_char_cons. cbn [String.length]. by rewrite IH.
Qed.

Lemma replace_char_gone (c c' : Ascii.ascii) (s : string) :
  c' ≠ c →
  occurs c (str.replace s (String c "") (String c' "")) = false.
Proof.
  intros Hne. unfold str.replace. induction s as [|a s IH]; [done|].
  rewrite replace_char_cons. cbn [occurs]. rewrite IH, orb_false_r.
  apply Ascii.eqb_neq. destruct (Ascii.ascii_dec c a); congruence.
Qed.

Lemma replace_char_absent (c c' : Ascii.ascii) (s : string) :
  occurs c s = false → str.replace s (String c "") (String c' "") = s.
Proof.
  unfold str.replace. induction s as [|a s IH]; [done|].
  cbn [occurs]. intros [Ha Hs]%orb_false_iff.
  rewrite replace_char_cons, IH by done.
  apply Ascii.eqb_neq in Ha. destruct (Ascii.ascii_dec c a); congruence.
Qed.

(** The replacement of a pair of underscores by one character makes no
    string longer, and changes no string without an underscore. *)
Lemma replace_pair_length (new : Ascii.ascii) (s : string) (skip : nat) :
  String.length (str.replace_from "__" (String new "") skip s)
  ≤ String.length s.
Proof.
  revert skip. induction s as [|a s IH]; intros skip; [done|].
  cbn [str.replace_from].
  destruct skip as [|n].
  - destruct (String.prefix "__" (String a s)).
    + change (String.length "__" - 1) with 1.
      change (String new "" +:+ ?t) with (String new t).
      cbn [String.length]. specialize (IH 1). lia.
    + cbn [String.length]. specialize (IH 0). lia.
  - cbn [String.length]. specialize (IH n). lia.
Qed.

Lemma replace_pair_absent (new : Ascii.ascii) (s : string) :
  occurs underscore s = false →
  str.replace_from "__" (String new "") 0 s = s.
Proof.
  induction s as [|a s IH]; [done|].
  cbn [occurs]. intros [Ha Hs]%orb_false_iff.
  apply Ascii.eqb_neq in Ha.
  cbn [str.replace_from String.prefix].
  destruct (Ascii.ascii_dec _ a) as [<-|_]; [done|].
  by rewrite IH.
Qed.

(** X21: the labels made from the names of the observables.  The label
    of the y axis that [Visualization] gives an observable holds no
    underscore, is not longer than the name, and is the name itself when
    the name holds no underscore.  The label of the bar plots, made by
    [obs_name.replace('_', ' ')], holds no underscore either and is as long
    as the name. *)
Theorem labels_without_underscore (name : string) :
  occurs underscore (Nakakuki_Cell_2010.default_ylabel name) = false
  ∧ String.length (Nakakuki_Cell_2010.default_ylabel name)
    ≤ String.length name
  ∧ (occurs underscore name = false →
     Nakakuki_Cell_2010.default_ylabel name = name)
  ∧ occurs underscore (str.replace name "_" " ") = false
  ∧ String.length (str.replace name "_" " ") = String.length name.
Proof.
  unfold Nakakuki_Cell_2010.default_ylabel.
  assert (Ascii.ascii_of_nat 32 ≠ underscore) as Hne by done.
  split; [by apply (replace_char_gone underscore _ _ Hne)|].
  split.
  { rewrite (replace_char_length underscore).
    apply replace_pair_length. }
  split.
  { intros Habsent. unfold str.replace at 2, str.newline.
    rewrite replace_pair_absent by done.
    by apply (replace_char_absent underscore). }
  split; [by apply (replace_char_gone underscore _ _ Hne)|].
  apply (replace_char_length underscore).
Qed.

(** Two underscores make a line break and one a space. *)
Example default_ylabel_example :
  Nakakuki_Cell_2010.default_ylabel "Phosphorylated_ERKc__whole_cell"
  = "Phosphorylated ERKc" +:+ str.newline +:+ "whole cell".
Proof. vm_compute. reflexivity. Qed.

(** ** The options of the visualization *)

Lemma mapM_lookup_seq {A : Type} (l : list A) (s n : nat) :
  s + n ≤ length l →
  mapM (λ j, l !! j) (seq s n) = Some (take n (drop s l)).
Proof.
  revert s. induction n as [|n IH]; intros s Hlen; [done|].
  cbn [seq mapM].
  destruct (lookup_lt_is_Some_2 l s) as [a Ha]; [lia|].
  rewrite Ha. cbn [mbind option_bind]. rewrite IH by lia.
  cbn [mbind option_bind mret option_ret].
  by rewrite (drop_S l a s Ha).
Qed.

Section visualization_facts.
Context {color marker : Type}.
Variable cm_colors : list color.
Variable filled_markers : list marker.
Variable obs_names : list string.

Lemma first_colors_Some :
  10 ≤ length cm_colors →
  Nakakuki_Cell_2010.first_colors color cm_colors
  = Some (take 10 cm_colors).
Proof.
  intros Hlen. unfold Nakakuki_Cell_2010.first_colors.
  by rewrite mapM_lookup_seq by (cbn; lia).
Qed.

Lemma first_colors_None :
  length cm_colors < 10 →
  Nakakuki_Cell_2010.first_colors color cm_colors = None.
Proof.
  intros Hlen. unfold Nakakuki_Cell_2010.first_colors.
  apply mapM_None, Exists_exists. exists (length cm_colors). split.
  - apply elem_of_seq. lia.
  - by apply lookup_ge_None_2.
Qed.

(** X22: the constructor of [Visualization] raises [IndexError] when the
    colour map has fewer than ten colours, even for a model without
    observables.  Otherwise it returns: there is one dictionary of
    [timecourse_options] per observable, whose y label is made from the
    name of the observable and whose colours are the first ten of the
    map; the colours of [sensitivity_options] are these ten as well, and
    the two getters return the dictionaries as they were built. *)
Theorem visualization_init :
  (length cm_colors < 10 →
   Nakakuki_Cell_2010.init color marker cm_colors filled_markers obs_names
   = None)
  ∧ (10 ≤ length cm_colors →
     ∃ viz,
       Nakakuki_Cell_2010.init color marker cm_colors filled_markers
         obs_names = Some viz
       ∧ length (Nakakuki_Cell_2010.get_timecourse_options _ _ viz)
         = length obs_names
       ∧ (∀ i name, obs_names !! i = Some name →
            ∃ o,
              Nakakuki_Cell_2010.get_timecourse_options _ _ viz !! i
              = Some o
              ∧ Nakakuki_Cell_2010.tc_ylabel _ _ o
                = Nakakuki_Cell_2010.default_ylabel name
              ∧ Nakakuki_Cell_2010.tc_cmap _ _ o = take 10 cm_colors)
       ∧ Nakakuki_Cell_2010.so_cmap _
           (Nakakuki_Cell_2010.sensitivity_options _ _ viz)
         = take 10 cm_colors
       ∧ length (Nakakuki_Cell_2010.so_cmap _
                   (Nakakuki_Cell_2010.sensitivity_options _ _ viz)) = 10
       ∧ Nakakuki_Cell_2010.mp_cmap _ _
           (Nakakuki_Cell_2010.multiplot_observables _ _ viz)
         = take 10 cm_colors).
Proof.
  unfold Nakakuki_Cell_2010.init. split.
  - intros Hlen. rewrite (first_colors_None Hlen).
    by destruct (mapM _ _).
  - intros Hlen. rewrite (first_colors_Some Hlen).
    destruct (mapM _ (enumerate obs_names)) as [timecourse|] eqn:Htc.
    + cbn [mbind option_bind]. eexists. split; [done|].
      cbn [Nakakuki_Cell_2010.get_timecourse_options
           Nakakuki_Cell_2010.timecourse_options
           Nakakuki_Cell_2010.sensitivity_options
           Nakakuki_Cell_2010.multiplot_observables
           Nakakuki_Cell_2010.multiplot_options
           Nakakuki_Cell_2010.so_cmap Nakakuki_Cell_2010.mp_cmap].
      pose proof (length_mapM _ _ _ Htc) as Hl.
      unfold enumerate in Hl. rewrite enumerate_from_length in Hl.
      split; [done|]. split.
      * intros i name Hname. apply mapM_Some_1 in Htc.
        destruct (Forall2_lookup_l _ _ _ i (i, name) Htc)
          as (o & Ho & Hbuilt).
        { by rewrite enumerate_lookup, Hname. }
        exists o. split; [done|]. cbn in Hbuilt. rewrite Hname in Hbuilt.
        cbn in Hbuilt. by injection Hbuilt as <-.
      * split; [done|]. split; [|done].
        rewrite length_take. lia.
    + exfalso. apply mapM_None, Exists_exists in Htc
        as ([i name] & Hin & Hnone).
      apply elem_of_enumerate in Hin. by rewrite Hin in Hnone.
Qed.

End visualization_facts.

(** The colour map of ten colours 0 to 9 and two observables. *)
Example visualization_init_example :
  (λ viz, (Nakakuki_Cell_2010.tc_ylabel _ _
             <$> Nakakuki_Cell_2010.get_timecourse_options _ _ viz,
           Nakakuki_Cell_2010.so_cmap _
             (Nakakuki_Cell_2010.sensitivity_options _ _ viz)))
    <$> Nakakuki_Cell_2010.init nat nat (seq 0 12) [] ["dusp_mRNA"; "ERK"]
  = Some (["dusp mRNA"; "ERK"], seq 0 10).
Proof. vm_compute. reflexivity. Qed.

(** ** The settings of the figures *)

(** The lookup of a key in settings made of consecutive assignments. *)
Ltac rc_solve :=
  repeat (rewrite lookup_insert_eq || rewrite lookup_insert_ne by done);
  try done.

Ltac rc_key k name := destruct (decide (k = name)) as [->|?]; [rc_solve|].

Ltac rc_keys k :=
  rc_key k "font.size"; rc_key k "font.family";
  rc_key k "mathtext.fontset"; rc_key k "mathtext.it";
  rc_key k "axes.linewidth"; rc_key k "xtick.major.width";
  rc_key k "ytick.major.width"; rc_key k "lines.linewidth";
  rc_key k "lines.markersize"; rc_key k "savefig.bbox"; rc_solve.

(** X23: the settings of the two kinds of figure of the visualization.
    [set_timecourse_rcParams] replaces all that
    [set_sensitivity_rcParams] sets, but the reverse does not hold: after
    the settings for time courses, those for the sensitivity leave the
    width of the lines and the size of the markers as the time courses had
    them.  Each function gives the same settings when called twice, and
    touches no other key than its own. *)
Theorem visualization_rcParams (rc : rcParams) :
  Nakakuki_Cell_2010.set_timecourse_rcParams
    (Nakakuki_Cell_2010.set_sensitivity_rcParams rc)
  = Nakakuki_Cell_2010.set_timecourse_rcParams rc
  ∧ Nakakuki_Cell_2010.set_sensitivity_rcParams
      (Nakakuki_Cell_2010.set_timecourse_rcParams rc)
      !! "lines.linewidth"
    = Nakakuki_Cell_2010.set_timecourse_rcParams rc !! "lines.linewidth"
  ∧ Nakakuki_Cell_2010.set_sensitivity_rcParams
      (Nakakuki_Cell_2010.set_timecourse_rcParams rc)
      !! "lines.markersize"
    = Nakakuki_Cell_2010.set_timecourse_rcParams rc !! "lines.markersize"
  ∧ Nakakuki_Cell_2010.set_sensitivity_rcParams rc !! "lines.linewidth"
    = rc !! "lines.linewidth"
  ∧ Nakakuki_Cell_2010.set_timecourse_rcParams
      (Nakakuki_Cell_2010.set_timecourse_rcParams rc)
    = Nakakuki_Cell_2010.set_timecourse_rcParams rc
  ∧ Nakakuki_Cell_2010.set_sensitivity_rcParams
      (Nakakuki_Cell_2010.set_sensitivity_rcParams rc)
    = Nakakuki_Cell_2010.set_sensitivity_rcParams rc
  ∧ ∀ k,
      k ∉ ["font.size"; "axes.linewidth"; "xtick.major.width";
           "ytick.major.width"; "lines.linewidth"; "lines.markersize";
           "savefig.bbox"] →
      Nakakuki_Cell_2010.set_timecourse_rcParams rc !! k = rc !! k
      ∧ Nakakuki_Cell_2010.set_sensitivity_rcParams rc !! k = rc !! k.
Proof.
  unfold Nakakuki_Cell_2010.set_timecourse_rcParams,
    Nakakuki_Cell_2010.set_sensitivity_rcParams.
  split; [apply map_eq; intros k; rc_keys k|].
  split; [rc_solve|]. split; [rc_solve|]. split; [rc_solve|].
  split; [apply map_eq; intros k; rc_keys k|].
  split; [apply map_eq; intros k; rc_keys k|].
  intros k Hk.
  repeat (apply not_elem_of_cons in Hk as [? Hk]).
  split; rc_solve.
Qed.

(** X24: the settings that [_barplot_sensitivity] and
    [_heatmap_sensitivity] make before they draw.  The two functions
    assign the same seven keys, so that each replaces all that the other
    has set, in whatever state [plt.rcParams] was; their settings differ
    in the font size alone, 15 and 8.  No other key is touched: what
    [Visualization.set_sensitivity_rcParams] sets for saving, for one,
    stays. *)
Theorem sensitivity_rcParams (rc : rcParams) :
  heatmap_rcParams (barplot_rcParams rc) = heatmap_rcParams rc
  ∧ barplot_rcParams (heatmap_rcParams rc) = barplot_rcParams rc
  ∧ barplot_rcParams rc !! "font.size" = Some (rc_number 15)
  ∧ heatmap_rcParams rc !! "font.size" = Some (rc_number 8)
  ∧ (∀ k, k ≠ "font.size" →
       barplot_rcParams rc !! k = heatmap_rcParams rc !! k)
  ∧ (∀ k,
       k ∉ ["font.size"; "font.family"; "mathtext.fontset"; "mathtext.it";
            "axes.linewidth"; "xtick.major.width"; "ytick.major.width"] →
       barplot_rcParams rc !! k = rc !! k
       ∧ heatmap_rcParams rc !! k = rc !! k)
  ∧ barplot_rcParams (Nakakuki_Cell_2010.set_sensitivity_rcParams rc)
      !! "savefig.bbox" = Some (rc_string "tight").
Proof.
  unfold barplot_rcParams, heatmap_rcParams,
    Nakakuki_Cell_2010.set_sensitivity_rcParams.
  split; [apply map_eq; intros k; rc_keys k|].
  split; [apply map_eq; intros k; rc_keys k|].
  split; [rc_solve|]. split; [rc_solve|].
  split; [intros k Hk; rc_keys k|].
  split; [|rc_solve].
  intros k Hk.
  repeat (apply not_elem_of_cons in Hk as [? Hk]).
  split; rc_solve.
Qed.

(** ** The colours of the visualization and the bar plots *)

Section colours.
Context {color marker : Type}.
Variable cm_colors : list color.
Variable filled_markers : list marker.
Variable obs_names : list string.
Variable M : BioModel.

(** X25: a model whose bar plots take their colours from
    [sensitivity_options] of this [Visualization].  There are ten
    colours, whatever the colour map: [_barplot_sensitivity] raises when
    the simulation has more than ten conditions, and, on a tensor of the
    shape the sweep gives it, returns the bar plots of the observables
    when it has ten or fewer. *)
Theorem barplot_with_visualization (viz : Nakakuki_Cell_2010.Visualization
                                            color marker)
    (metric : string) (sc : np.tensor4)
    (biological_processes : list (list Z)) (reaction_indices : list Z) :
  Nakakuki_Cell_2010.init color marker cm_colors filled_markers obs_names
  = Some viz →
  let n := length (Nakakuki_Cell_2010.so_cmap _
                     (Nakakuki_Cell_2010.sensitivity_options _ _ viz)) in
  (10 < length (@conditions M) →
   @_barplot_sensitivity (with_cmap_len M n) metric sc
     biological_processes reaction_indices = None)
  ∧ (length (@conditions M) ≤ 10 →
     Forall (λ blk,
       length blk = length reaction_indices
       ∧ Forall (λ slot,
           length slot = length (@obs M)
           ∧ rectangular (length (@conditions M)) slot) blk) sc →
     @_barplot_sensitivity (with_cmap_len M n) metric sc
       biological_processes reaction_indices
     = Some (omap (λ '(k, obs_name), barplot_of sc k obs_name)
                  (enumerate (@obs M)))).
Proof.
  intros Hinit n.
  assert (n = 10) as ->.
  { unfold n. clear n. unfold Nakakuki_Cell_2010.init in Hinit.
    destruct (mapM _ (enumerate obs_names)) as [timecourse|]; [|done].
    cbn [mbind option_bind] in Hinit.
    destruct (Nakakuki_Cell_2010.first_colors color cm_colors)
      as [cmap|] eqn:Hcmap; [|done].
    cbn [mbind option_bind] in Hinit. injection Hinit as <-.
    cbn [Nakakuki_Cell_2010.sensitivity_options
         Nakakuki_Cell_2010.so_cmap].
    unfold Nakakuki_Cell_2010.first_colors in Hcmap.
    apply length_mapM in Hcmap. by rewrite <- Hcmap. }
  split.
  - intros Hmany. unfold _barplot_sensitivity.
    by rewrite bool_decide_true.
  - intros Hfew Hshape.
    by apply (@barplot_sensitivity_eq (with_cmap_len M 10)).
Qed.

End colours.

Lemma barplot_with_visualization_witness :
  ∃ viz,
    Nakakuki_Cell_2010.init nat nat (seq 0 12) [] ["ERK"] = Some viz
    ∧ let n := length (Nakakuki_Cell_2010.so_cmap _
                         (Nakakuki_Cell_2010.sensitivity_options _ _ viz))
      in
      (10 < length (@conditions example_model) →
       @_barplot_sensitivity (with_cmap_len example_model n) "amplitude"
         [[[[1]]; [[0]]]]%float [[1; 2]%Z] [1; 2]%Z = None)
      ∧ (length (@conditions example_model) ≤ 10 →
         Forall (λ blk,
           length blk = length [1; 2]%Z
           ∧ Forall (λ slot,
               length slot = length (@obs example_model)
               ∧ rectangular (length (@conditions example_model)) slot)
               blk) [[[[1]]; [[0]]]]%float →
         @_barplot_sensitivity (with_cmap_len example_model n) "amplitude"
           [[[[1]]; [[0]]]]%float [[1; 2]%Z] [1; 2]%Z
         = Some (omap (λ '(k, obs_name),
                        barplot_of [[[[1]]; [[0]]]]%float k obs_name)
                      (enumerate (@obs example_model)))).
Proof.
  destruct (Nakakuki_Cell_2010.init nat nat (seq 0 12) [] ["ERK"])
    as [viz|] eqn:Hinit.
  - exists viz. split; [done|].
    exact (barplot_with_visualization (seq 0 12) [] ["ERK"] example_model
             viz "amplitude" [[[[1]]; [[0]]]]%float [[1; 2]%Z] [1; 2]%Z
             Hinit).
  - vm_compute in Hinit. discriminate.
Defined.
